(** * Catalog backend: category tree, stock, reviews and cache invalidation

    A shallow embedding of the parts of [backend/apps/core] that carry the
    catalog's behaviour: [models.py] (Category, Product, Review),
    [signals.py] (cache invalidation handlers), [views.py] (the
    [add_review], [update_stock] and category [products] actions) and
    [serializers.py] ([get_product_count], [validate_rating]).

    Database tables are lists of rows, kept in the order the default
    manager returns them ([Meta.ordering]); the cache is a finite map from
    string keys to values.  Python integers are [Z], [Decimal] values are
    exact rationals, strings are [string].  An integer column stores the
    integers of the database's range, which is a parameter ([Backend]). *)

From Stdlib Require Import QArith Lqa.
From stdpp Require Import base option list gmap strings pretty.

Open Scope Z_scope.
Open Scope string_scope.
Open Scope list_scope.

(** ** Outcomes of a call

    A Python call returns a value or raises.  Recursive methods are given a
    recursion budget; [OutOfFuel] is the outcome of a call whose recursion
    did not reach a base case within the budget.  No code of the
    application raises on that path: in CPython such a call ends when the
    interpreter's recursion limit is hit. *)

Inductive exn : Type :=
  | DoesNotExist      (* Model.DoesNotExist: a related row is missing *)
  | ProtectedError    (* django.db.models.ProtectedError *)
  | IntegrityError    (* django.db.IntegrityError *)
  | DatabaseError     (* django.db.DatabaseError *)
  | DataError         (* django.db.DataError: a value out of range *)
  | OverflowError     (* builtin OverflowError, raised by the sqlite3 driver *)
  | ValueError        (* builtin ValueError, raised by int() *)
  | TypeError         (* builtin TypeError, raised by int() *)
  | DivisionByZero    (* decimal.DivisionByZero: x / 0 with x nonzero *)
  | InvalidOperation. (* decimal.InvalidOperation: 0 / 0 *)

Inductive outcome (A : Type) : Type :=
  | Return (a : A)
  | Raise (e : exn)
  | OutOfFuel.

Arguments Return {A} a.
Arguments Raise {A} e.
Arguments OutOfFuel {A}.

Definition obind {A B} (m : outcome A) (k : A -> outcome B) : outcome B :=
  match m with
  | Return a => k a
  | Raise e => Raise e
  | OutOfFuel => OutOfFuel
  end.

#[global] Instance outcome_ret : MRet outcome := fun A a => Return a.
#[global] Instance outcome_bind : MBind outcome := fun A B k m => obind m k.

Definition returns {A} (m : outcome A) : Prop := exists a, m = Return a.
Definition raises {A} (m : outcome A) : Prop := exists e, m = Raise e.

(** [Decimal] division: dividing by zero raises. *)
Definition decimal_div (x y : Q) : outcome Q :=
  if Qeq_bool y 0 then
    Raise (if Qeq_bool x 0 then InvalidOperation else DivisionByZero)
  else Return (x / y)%Q.

(** Truth value of a nullable [Decimal]: [None] and zero are falsy. *)
Definition decimal_truthy (d : option Q) : bool :=
  match d with
  | Some q => negb (Qeq_bool q 0)
  | None => false
  end.

(** ** models.py: Category *)

Module Category.

Record t : Type := mk {
  id : Z;
  name : string;
  slug : string;
  parent_id : option Z;      (* parent = ForeignKey('self', null=True) *)
  is_active : bool;
  sort_order : Z;
}.

#[global] Instance eq_dec : EqDecision t.
Proof. solve_decision. Defined.

(** The [categories] table. *)
Definition table : Type := list t.

(** [Category.objects.get(pk=pk)] as used by the foreign-key descriptor. *)
Definition get (tbl : table) (pk : Z) : option t :=
  find (fun r => bool_decide (id r = pk)) tbl.

(** [self.parent]: [None] when [parent_id] is null, otherwise the row the
    key points to; a dangling key raises [DoesNotExist]. *)
Definition parent (tbl : table) (self : t) : outcome (option t) :=
  match parent_id self with
  | None => Return None
  | Some pid =>
      match get tbl pid with
      | Some p => Return (Some p)
      | None => Raise DoesNotExist
      end
  end.

(** [self.children.all()]: the reverse side of the [parent] key. *)
Definition children (tbl : table) (self : t) : list t :=
  filter (fun r => parent_id r = Some (id self)) tbl.

(** [full_path] property (models.py 85-90). *)
Fixpoint full_path (fuel : nat) (tbl : table) (self : t) : outcome string :=
  match fuel with
  | O => OutOfFuel
  | S fuel' =>
      p ← parent tbl self;
      match p with
      | Some par =>
          pp ← full_path fuel' tbl par;
          Return (pp +:+ " > " +:+ name self)
      | None => Return (name self)
      end
  end.

(** The body of the [for child in self.children.all()] loop of
    [get_descendants], with [rec] standing for [child.get_descendants()]. *)
Fixpoint extend_descendants (rec : t -> outcome (list t))
    (todo : list t) (descendants : list t) : outcome (list t) :=
  match todo with
  | [] => Return descendants
  | child :: rest =>
      sub ← rec child;
      extend_descendants rec rest (descendants ++ [child] ++ sub)
  end.

(** [get_descendants] (models.py 92-98). *)
Fixpoint get_descendants (fuel : nat) (tbl : table) (self : t)
    : outcome (list t) :=
  match fuel with
  | O => OutOfFuel
  | S fuel' =>
      extend_descendants (get_descendants fuel' tbl) (children tbl self) []
  end.

End Category.

(** ** The database behind the ORM

    The database is configured outside the repository.  What the code
    depends on is the range of integers its driver stores in an integer
    column and the error beyond that range: on SQLite the signed 64-bit
    range, beyond which the driver raises [OverflowError]; on PostgreSQL
    the signed 32-bit range of the column, beyond which the statement fails
    with [DataError]. *)

Record Backend : Type := mkBackend {
  integer_min : Z;
  integer_max : Z;
  out_of_range : exn;
}.

Definition sqlite3 : Backend :=
  mkBackend (- 2 ^ 63) (2 ^ 63 - 1) OverflowError.
Definition postgresql : Backend :=
  mkBackend (- 2 ^ 31) (2 ^ 31 - 1) DataError.

(** [v] is an integer the driver stores. *)
Definition in_range (backend : Backend) (v : Z) : Prop :=
  integer_min backend <= v <= integer_max backend.

#[global] Instance in_range_dec backend v : Decision (in_range backend v).
Proof. unfold in_range. apply _. Defined.

(** ** models.py: Product *)

Module Product.

Inductive Status : Type := DRAFT | PUBLISHED | ARCHIVED.

#[global] Instance status_eq_dec : EqDecision Status.
Proof. solve_decision. Defined.

Record t : Type := mk {
  id : Z;
  name : string;
  slug : string;
  category_id : Z;           (* category = ForeignKey(Category, PROTECT) *)
  price : Q;                 (* DecimalField *)
  cost : option Q;           (* DecimalField(null=True) *)
  stock_quantity : Z;        (* PositiveIntegerField *)
  sku : string;
  status : Status;
  is_featured : bool;
  created_by_id : Z;
  tags : list Z;             (* ManyToManyField('Tag'): ids of the tags *)
}.

Definition table : Type := list t.

(** [Product.objects.get(pk=pk)]. *)
Definition get (tbl : table) (pk : Z) : option t :=
  find (fun r => bool_decide (id r = pk)) tbl.

Definition with_stock_quantity (self : t) (n : Z) : t :=
  mk (id self) (name self) (slug self) (category_id self) (price self)
     (cost self) n (sku self) (status self) (is_featured self)
     (created_by_id self) (tags self).

(** [self.save(update_fields=['stock_quantity'])]: an UPDATE of the row
    with the instance's primary key.  A value outside the range of the
    driver fails the statement and stores nothing.  Django raises
    [DatabaseError] when no row is affected, and the column of a
    [PositiveIntegerField] rejects a negative value (its CHECK constraint)
    with [IntegrityError]. *)
Definition save_stock_quantity (backend : Backend) (tbl : table) (self : t)
    : outcome table :=
  if bool_decide (in_range backend (stock_quantity self)) then
    if bool_decide (id self ∈ id <$> tbl) then
      if bool_decide (stock_quantity self < 0) then Raise IntegrityError
      else Return (map (fun r => if bool_decide (id r = id self)
                                 then with_stock_quantity r (stock_quantity self)
                                 else r) tbl)
    else Raise DatabaseError
  else Raise (out_of_range backend).

(** [is_in_stock] property (models.py 219-222). *)
Definition is_in_stock (self : t) : bool :=
  bool_decide (stock_quantity self > 0).

(** [profit_margin] property (models.py 224-229).  The quotient is exact
    here; [Decimal] rounds it to the precision of the context. *)
Definition profit_margin (self : t) : outcome (option Q) :=
  if decimal_truthy (cost self) then
    match cost self with
    | Some c =>
        ratio ← decimal_div (price self - c) (price self);
        Return (Some (ratio * 100)%Q)
    | None => Return None
    end
  else Return None.

(** [reduce_stock] (models.py 231-237): the table, the instance after the
    call, and what the call returns. *)
Definition reduce_stock (backend : Backend) (tbl : table) (self : t)
    (quantity : Z) : table * t * outcome bool :=
  if bool_decide (stock_quantity self >= quantity) then
    let self' := with_stock_quantity self (stock_quantity self - quantity) in
    match save_stock_quantity backend tbl self' with
    | Return tbl' => (tbl', self', Return true)
    | Raise e => (tbl, self', Raise e)
    | OutOfFuel => (tbl, self', OutOfFuel)
    end
  else (tbl, self, Return false).

End Product.

(** ** models.py: Review *)

Module Review.

Record t : Type := mk {
  id : Z;
  product_id : Z;            (* ForeignKey(Product, CASCADE) *)
  user_id : Z;               (* ForeignKey(User, CASCADE) *)
  rating : Z;
  title : string;
  content : string;
  is_verified_purchase : bool;
  is_approved : bool;
  helpful_votes : Z;
}.

Definition table : Type := list t.

(** [Review.objects.filter(product=product, user=user)]. *)
Definition by_product_user (tbl : table) (product user : Z) : list t :=
  filter (fun r => product_id r = product /\ user_id r = user) tbl.

(** [.exists()] on that queryset. *)
Definition exists_for (tbl : table) (product user : Z) : bool :=
  bool_decide (by_product_user tbl product user <> []).

(** [Meta.unique_together = ['product', 'user']] as an invariant of the
    table: no two rows carry the same pair. *)
Definition unique_together (tbl : table) : Prop :=
  NoDup ((fun r => (product_id r, user_id r)) <$> tbl).

(** The key an [AutoField] gives to the next row. *)
Definition next_id (tbl : table) : Z :=
  1 + foldr Z.max 0 (map id tbl).

(** [Review.objects.create(...)]: [Meta.unique_together = ['product',
    'user']] makes the insert fail with [IntegrityError] when the pair is
    taken; otherwise the row is stored under a fresh key.  The other
    column constraints are met by every row [add_review] builds. *)
Definition create (tbl : table) (row : t) : table * outcome t :=
  if exists_for tbl (product_id row) (user_id row) then
    (tbl, Raise IntegrityError)
  else
    let stored := mk (next_id tbl) (product_id row) (user_id row) (rating row)
                     (title row) (content row) (is_verified_purchase row)
                     (is_approved row) (helpful_votes row) in
    (tbl ++ [stored], Return stored).

End Review.

(** ** The persistent store *)

Record DB : Type := mkDB {
  categories : Category.table;
  products : Product.table;
  reviews : Review.table;
}.

Definition with_reviews (db : DB) (r : Review.table) : DB :=
  mkDB (categories db) (products db) r.
Definition with_categories (db : DB) (c : Category.table) : DB :=
  mkDB c (products db) (reviews db).

(** ** Model.delete() for Category

    Django's deletion collector, driven by the [on_delete] policies of
    models.py: the [parent] key cascades (line 49), the product's
    [category] key protects (line 132).  The collector gathers the
    category and everything that cascades from it, raises
    [ProtectedError] when a protected reference points at a gathered row,
    and deletes nothing in that case. *)

Module Deletion.

(** [r] lies in the subtree of the row with key [root]: [root] is met on
    the parent chain of [r] within [n] steps. *)
Fixpoint under (n : nat) (tbl : Category.table) (root : Z) (r : Category.t)
    : bool :=
  bool_decide (Category.id r = root) ||
  match n with
  | O => false
  | S n' =>
      match Category.parent_id r ≫= Category.get tbl with
      | Some p => under n' tbl root p
      | None => false
      end
  end.

(** Keys of the rows the collector gathers for [self]. *)
Definition collected (tbl : Category.table) (self : Category.t) : list Z :=
  Category.id self ::
  map Category.id
      (filter (fun r => Is_true (under (length tbl) tbl (Category.id self) r))
              tbl).

Definition protected_by (prods : Product.table) (ids : list Z) : list Product.t :=
  filter (fun p => Product.category_id p ∈ ids) prods.

Definition delete_category (db : DB) (self : Category.t) : DB * outcome unit :=
  let ids := collected (categories db) self in
  match protected_by (products db) ids with
  | [] =>
      (with_categories db
         (filter (fun r => Category.id r ∉ ids) (categories db)),
       Return tt)
  | _ :: _ => (db, Raise ProtectedError)
  end.

End Deletion.

(** ** signals.py: cache invalidation *)

Module Signals.

Section Cache.
Context {V : Type}.

(** [cache.delete(key)] and [cache.delete_many(keys)]. *)
Definition cache_delete (key : string) (cache : gmap string V) : gmap string V :=
  delete key cache.

Definition cache_delete_many (keys : list string) (cache : gmap string V)
    : gmap string V :=
  foldl (fun c k => cache_delete k c) cache keys.

(** Keys built by both product handlers (signals.py 19-23 and 37-41);
    [instance.category.id] is the value of the [category] key. *)
Definition product_cache_keys (instance : Product.t) : list string :=
  [ "category_products_" +:+ pretty (Product.category_id instance);
    "featured_products";
    "product_stats" ].

(** [post_save] handler of Product (signals.py 12-29). *)
Definition invalidate_product_cache (instance : Product.t)
    (cache : gmap string V) : gmap string V :=
  let cache := cache_delete_many (product_cache_keys instance) cache in
  if bool_decide (Product.tags instance <> []) then
    foldl (fun c tag => cache_delete ("tag_products_" +:+ pretty tag) c)
          cache (Product.tags instance)
  else cache.

(** [post_delete] handler of Product (signals.py 32-42). *)
Definition cleanup_product_cache (instance : Product.t)
    (cache : gmap string V) : gmap string V :=
  cache_delete_many (product_cache_keys instance) cache.

End Cache.

End Signals.

(** ** views.py and serializers.py *)

Module Views.

Inductive payload : Type :=
  | ErrorMessage (error : string)          (* {'error': ...} *)
  | SerializerErrors                       (* serializer.errors *)
  | ReviewData (r : Review.t)              (* serializer.data *)
  | StockUpdated (message : string) (new_stock_quantity : Z).

Record Response : Type := mkResponse { data : payload; status : Z }.

Definition HTTP_200_OK : Z := 200.
Definition HTTP_201_CREATED : Z := 201.
Definition HTTP_400_BAD_REQUEST : Z := 400.

(** [CategorySerializer.get_product_count] (serializers.py 74-76). *)
Definition get_product_count (prods : Product.table) (obj : Category.t) : nat :=
  length (filter (fun p => Product.category_id p = Category.id obj
                           /\ Product.status p = Product.PUBLISHED) prods).

(** The queryset of [CategoryViewSet.products] (views.py 73-81) for the
    category [get_object()] resolved, before pagination and serialization. *)
Definition products_queryset (fuel : nat) (db : DB) (category : Category.t)
    : outcome (list Product.t) :=
  descendant_categories ← Category.get_descendants fuel (categories db) category;
  let category_ids :=
    [Category.id category] ++ map Category.id descendant_categories in
  Return (filter (fun p => Product.category_id p ∈ category_ids
                           /\ Product.status p = Product.PUBLISHED)
                 (products db)).

(** What [ReviewSerializer] keeps of a submission: the writable fields. *)
Record validated_review : Type := mkValidated {
  v_product : Z;
  v_rating : Z;
  v_title : string;
  v_content : string;
  v_is_approved : option bool;
}.

(** [ReviewSerializer.validate_rating] (serializers.py 309-313). *)
Definition validate_rating (value : Z) : option Z :=
  if bool_decide (1 <= value <= 5) then Some value else None.

Section ReviewActions.
Context {RequestData : Type}.

(** Parsing and per-field validation that the framework derives from the
    model fields; [None] when a field is rejected. *)
Variable to_internal_value : RequestData -> option validated_review.

(** [serializer.is_valid()] for [ReviewSerializer]. *)
Definition is_valid (data : RequestData) : option validated_review :=
  v ← to_internal_value data;
  _ ← validate_rating (v_rating v);
  Some v.

(** [ProductViewSet.add_review] (views.py 132-148) for the product
    [get_object()] resolved and the authenticated [user]. *)
Definition add_review (db : DB) (product : Product.t) (user : Z)
    (data : RequestData) : DB * outcome Response :=
  if Review.exists_for (reviews db) (Product.id product) user then
    (db, Return (mkResponse
                   (ErrorMessage "You have already reviewed this product.")
                   HTTP_400_BAD_REQUEST))
  else
    match is_valid data with
    | Some v =>
        let row := Review.mk 0 (Product.id product) user (v_rating v)
                     (v_title v) (v_content v) false
                     (default true (v_is_approved v)) 0 in
        match Review.create (reviews db) row with
        | (tbl, Return stored) =>
            (with_reviews db tbl,
             Return (mkResponse (ReviewData stored) HTTP_201_CREATED))
        | (_, Raise e) => (db, Raise e)
        | (_, OutOfFuel) => (db, OutOfFuel)
        end
    | None => (db, Return (mkResponse SerializerErrors HTTP_400_BAD_REQUEST))
    end.

End ReviewActions.

Section StockActions.
Context {PyValue : Type}.

(** The builtin [int()] on a value of the request body. *)
Variable py_int : PyValue -> outcome Z.
Variable backend : Backend.

Definition bad_request (tbl : Product.table) (product : Product.t)
    (msg : string) : Product.table * Product.t * outcome Response :=
  (tbl, product, Return (mkResponse (ErrorMessage msg) HTTP_400_BAD_REQUEST)).

(** The assignment to [product.stock_quantity],
    [product.save(update_fields=['stock_quantity'])] and the success
    response (views.py 197-202). *)
Definition store_stock (tbl : Product.table) (product : Product.t) (n : Z)
    : Product.table * Product.t * outcome Response :=
  let product := Product.with_stock_quantity product n in
  match Product.save_stock_quantity backend tbl product with
  | Return tbl' =>
      (tbl', product,
       Return (mkResponse
                 (StockUpdated "Stock updated successfully."
                               (Product.stock_quantity product))
                 HTTP_200_OK))
  | Raise e => (tbl, product, Raise e)
  | OutOfFuel => (tbl, product, OutOfFuel)
  end.

(** [ProductViewSet.update_stock] (views.py 164-202): [quantity] is
    [request.data.get('quantity')], [operation] is the value under
    ['operation'] when the key is present.  The last message is quoted
    with single quotes here. *)
Definition update_stock (tbl : Product.table) (product : Product.t)
    (quantity : option PyValue) (operation : option string)
    : Product.table * Product.t * outcome Response :=
  let operation := default "set" operation in
  match quantity with
  | None => bad_request tbl product "Quantity is required."
  | Some raw =>
      match py_int raw with
      | Raise ValueError =>
          bad_request tbl product "Quantity must be a valid integer."
      | Raise e => (tbl, product, Raise e)
      | OutOfFuel => (tbl, product, OutOfFuel)
      | Return quantity =>
          if bool_decide (operation = "set") then
            store_stock tbl product (Z.max 0 quantity)
          else if bool_decide (operation = "add") then
            store_stock tbl product (Product.stock_quantity product + quantity)
          else if bool_decide (operation = "subtract") then
            store_stock tbl product
              (Z.max 0 (Product.stock_quantity product - quantity))
          else
            bad_request tbl product
              "Invalid operation. Use 'set', 'add', or 'subtract'."
      end
  end.

End StockActions.

(** The instance's stock after a call of [update_stock]. *)
Definition stock_after (out : Product.table * Product.t * outcome Response) : Z :=
  Product.stock_quantity (snd (fst out)).

(** The stock of the stored row of [product] after a call. *)
Definition stored_stock_after
    (out : Product.table * Product.t * outcome Response) : option Z :=
  Product.stock_quantity <$> Product.get (fst (fst out)) (Product.id (snd (fst out))).

(** The success response of [update_stock] reporting [n]. *)
Definition stock_response (n : Z) : outcome Response :=
  Return (mkResponse (StockUpdated "Stock updated successfully." n) HTTP_200_OK).

End Views.

(** ** The category forest: invariants and reachability *)

Module Tree.

(** The row a category's [parent] key resolves to, if any. *)
Definition parent_of (tbl : Category.table) (c : Category.t) : option Category.t :=
  Category.parent_id c ≫= Category.get tbl.

(** [ancestor k tbl c]: the row reached from [c] by [k] parent steps. *)
Fixpoint ancestor (k : nat) (tbl : Category.table) (c : Category.t)
    : option Category.t :=
  match k with
  | O => Some c
  | S k' => parent_of tbl c ≫= ancestor k' tbl
  end.

(** Primary keys are unique. *)
Definition pk_unique (tbl : Category.table) : Prop :=
  NoDup (Category.id <$> tbl).

(** Every non-null [parent] key points to a stored row. *)
Definition fk_valid (tbl : Category.table) : Prop :=
  forall c pid, c ∈ tbl -> Category.parent_id c = Some pid ->
    is_Some (Category.get tbl pid).

(** The acyclic invariant: no category is its own ancestor. *)
Definition acyclic (tbl : Category.table) : Prop :=
  forall c k, c ∈ tbl -> ancestor (S k) tbl c <> Some c.

(** [c] lies on a cycle of the parent relation. *)
Definition on_cycle (tbl : Category.table) (c : Category.t) : Prop :=
  c ∈ tbl /\ exists k, ancestor (S k) tbl c = Some c.

(** The parent→children edge and what is transitively reachable by it. *)
Definition child_edge (tbl : Category.table) (c d : Category.t) : Prop :=
  d ∈ Category.children tbl c.

Definition reachable (tbl : Category.table) : Category.t -> Category.t -> Prop :=
  tc (child_edge tbl).

(** Decision procedures for the invariants. *)
Definition fk_validb (tbl : Category.table) : bool :=
  forallb (fun c => match Category.parent_id c with
                    | Some pid => bool_decide (is_Some (Category.get tbl pid))
                    | None => true
                    end) tbl.

Fixpoint reaches_root (n : nat) (tbl : Category.table) (c : Category.t) : bool :=
  match parent_of tbl c with
  | None => true
  | Some p =>
      match n with
      | O => false
      | S n' => reaches_root n' tbl p
      end
  end.

Definition acyclicb (tbl : Category.table) : bool :=
  forallb (reaches_root (length tbl) tbl) tbl.

(** The rows met on the first [n] parent steps from [c]. *)
Fixpoint chain (n : nat) (tbl : Category.table) (c : Category.t)
    : list Category.t :=
  c :: match n with
       | O => []
       | S n' =>
           match parent_of tbl c with
           | Some p => chain n' tbl p
           | None => []
           end
       end.

(** The list a returning call carries, [[]] otherwise. *)
Definition result {A} (m : outcome (list A)) : list A :=
  match m with
  | Return l => l
  | _ => []
  end.

End Tree.

(** ** models.py: the star display of a review *)

Module Stars.

(** A Python [str] as its code points. *)
Definition BLACK_STAR : N := 9733.   (* U+2605 *)
Definition WHITE_STAR : N := 9734.   (* U+2606 *)

(** [s * n] on strings: [n] copies, none when [n] is not positive. *)
Definition str_mul (s : list N) (n : Z) : list N :=
  mjoin (replicate (Z.to_nat n) s).

(** [Review.star_display] (models.py 344-347). *)
Definition star_display (self : Review.t) : list N :=
  str_mul [BLACK_STAR] (Review.rating self) ++
  str_mul [WHITE_STAR] (5 - Review.rating self).

End Stars.

(** ** users: roles and permission classes *)

Module Users.

(** [User.Role] (users/models.py 17-20). *)
Inductive Role : Type := ADMIN | MANAGER | USER.

#[global] Instance role_eq_dec : EqDecision Role.
Proof. solve_decision. Defined.

Record User : Type := mkUser {
  id : Z;
  role : Role;
  is_staff : bool;
}.

(** [is_admin] and [is_manager] (users/models.py 72-78). *)
Definition is_admin (self : User) : bool := bool_decide (role self = ADMIN).
Definition is_manager (self : User) : bool := bool_decide (role self = MANAGER).

(** [request.user]: [None] is the anonymous user, which is neither
    authenticated nor staff and has no role methods. *)
Definition requester : Type := option User.

Inductive Method : Type := GET | HEAD | OPTIONS | POST | PUT | PATCH | DELETE.

(** [request.method in permissions.SAFE_METHODS]. *)
Definition safe (m : Method) : bool :=
  match m with
  | GET | HEAD | OPTIONS => true
  | _ => false
  end.

(** [IsAdminOrManagerOrReadOnly.has_permission]
    (users/permissions.py 32-47). *)
Definition IsAdminOrManagerOrReadOnly (user : requester) (method : Method) : bool :=
  match user with
  | None => false
  | Some u =>
      if safe method then true
      else is_staff u || is_admin u || is_manager u
  end.

(** [IsManagerOrAdmin.has_permission] (users/permissions.py 55-65). *)
Definition IsManagerOrAdmin (user : requester) : bool :=
  match user with
  | None => false
  | Some u => is_staff u || is_admin u || is_manager u
  end.

End Users.

(** ** signals.py: the category and review handlers *)

Module MoreSignals.

Section Cache.
Context {V : Type}.

(** [post_save] handler of Category (signals.py 45-59). *)
Definition invalidate_category_cache (tbl : Category.table)
    (instance : Category.t) (cache : gmap string V)
    : gmap string V * outcome unit :=
  let cache :=
    Signals.cache_delete_many
      [ "category_tree"; "root_categories";
        "category_" +:+ pretty (Category.id instance) ] cache in
  match Category.parent tbl instance with
  | Return (Some parent) =>
      (Signals.cache_delete ("category_" +:+ pretty (Category.id parent)) cache,
       Return tt)
  | Return None => (cache, Return tt)
  | Raise e => (cache, Raise e)
  | OutOfFuel => (cache, OutOfFuel)
  end.

(** Keys built by both review handlers (signals.py 71-74 and 90-93);
    [instance.product.id] is the value of the [product] key. *)
Definition review_cache_keys (instance : Review.t) : list string :=
  [ "product_rating_" +:+ pretty (Review.product_id instance);
    "product_reviews_" +:+ pretty (Review.product_id instance) ].

(** [post_save] handler of Review (signals.py 62-80). *)
Definition update_product_rating_cache (instance : Review.t) (created : bool)
    (cache : gmap string V) : gmap string V :=
  let cache := Signals.cache_delete_many (review_cache_keys instance) cache in
  if created && Review.is_approved instance then cache else cache.

(** [post_delete] handler of Review (signals.py 83-94). *)
Definition cleanup_review_cache (instance : Review.t)
    (cache : gmap string V) : gmap string V :=
  Signals.cache_delete_many (review_cache_keys instance) cache.

End Cache.

End MoreSignals.

(** ** serializers.py: validation of products *)

Module ProductSerializer.

(** [validate_price] (serializers.py 211-215); [None] is a
    [ValidationError]. *)
Definition validate_price (value : Q) : option Q :=
  if Qle_bool value 0 then None else Some value.

(** [validate_sku] (serializers.py 204-209): [instance] is the serializer's
    instance, absent on creation. *)
Definition validate_sku (prods : Product.table) (instance : option Product.t)
    (value : string) : option string :=
  let taken :=
    filter (fun p => Product.sku p = value /\
                     Some (Product.id p) <> (Product.id <$> instance)) prods in
  if bool_decide (taken <> []) then None else Some value.

(** The validated attributes of a submission: a field is [None] when the
    key is absent; [cost] may be present and null. *)
Record attrs : Type := mkAttrs {
  a_name : option string;
  a_category_id : option Z;
  a_price : option Q;
  a_cost : option (option Q);
  a_stock_quantity : option Z;
  a_sku : option string;
  a_status : option Product.Status;
  a_is_featured : option bool;
}.

(** [attrs.get('cost', getattr(self.instance, 'cost', None) if
    self.instance else None)] and the same for [price]. *)
Definition effective_cost (instance : option Product.t) (a : attrs) : option Q :=
  match a_cost a with
  | Some c => c
  | None => instance ≫= Product.cost
  end.

Definition effective_price (instance : option Product.t) (a : attrs) : option Q :=
  match a_price a with
  | Some p => Some p
  | None => Product.price <$> instance
  end.

(** [validate] (serializers.py 217-227). *)
Definition validate (instance : option Product.t) (a : attrs) : option attrs :=
  let cost := effective_cost instance a in
  let price := effective_price instance a in
  if decimal_truthy cost && decimal_truthy price &&
     match cost, price with
     | Some c, Some p => Qle_bool p c
     | _, _ => false
     end
  then None else Some a.

End ProductSerializer.

(** ** views.py: product listings *)

Module Catalog.

Definition HTTP_403_FORBIDDEN : Z := 403.
Definition HTTP_404_NOT_FOUND : Z := 404.

Definition permission_denied : Views.Response :=
  Views.mkResponse (Views.ErrorMessage "Permission denied.") HTTP_403_FORBIDDEN.

(** [request.user.is_staff], false for the anonymous user. *)
Definition staff (user : Users.requester) : bool :=
  match user with
  | Some u => Users.is_staff u
  | None => false
  end.

(** [ProductViewSet.get_queryset] (views.py 115-130); the annotations add
    no row and drop none. *)
Definition get_queryset (user : Users.requester) (prods : Product.table)
    : list Product.t :=
  if staff user then prods
  else filter (fun p => Product.status p = Product.PUBLISHED) prods.

(** The queryset of [ProductViewSet.featured] (views.py 204-207). *)
Definition featured (user : Users.requester) (prods : Product.table)
    : list Product.t :=
  filter (fun p => Product.is_featured p = true /\
                   Product.status p = Product.PUBLISHED)
         (get_queryset user prods).

Section LowStock.
Context {PyValue : Type}.

(** The builtin [int()] on a query parameter. *)
Variable py_int : PyValue -> outcome Z.

(** [ProductViewSet.low_stock] (views.py 217-235): [threshold] is the query
    parameter when it is given.  The answer is the early response or the
    listed products. *)
Definition low_stock (user : Users.requester) (prods : Product.table)
    (threshold : option PyValue) : outcome (Views.Response + list Product.t) :=
  if negb (staff user) then Return (inl permission_denied)
  else
    threshold ←
      match threshold with
      | None => Return 10
      | Some raw =>
          match py_int raw with
          | Raise ValueError => Return 10
          | other => other
          end
      end;
    Return (inr (filter (fun p => Product.stock_quantity p <= threshold)
                        (get_queryset user prods))).

End LowStock.

(** The gate of [ProductViewSet.statistics] (views.py 240-246). *)
Definition statistics_allowed (user : Users.requester) : bool :=
  match user with
  | Some u => Users.is_staff u || Users.is_admin u || Users.is_manager u
  | None => false
  end.

(** The product counts of the statistics (views.py 249-259). *)
Record product_counts : Type := mkCounts {
  total_products : nat;
  published_products : nat;
  draft_products : nat;
  archived_products : nat;
  featured_products : nat;
  low_stock_products : nat;
  out_of_stock_products : nat;
}.

Definition count_status (s : Product.Status) (prods : Product.table) : nat :=
  length (filter (fun p => Product.status p = s) prods).

Definition statistics_counts (all_products : Product.table) : product_counts :=
  mkCounts
    (length all_products)
    (count_status Product.PUBLISHED all_products)
    (count_status Product.DRAFT all_products)
    (count_status Product.ARCHIVED all_products)
    (length (filter (fun p => Product.is_featured p = true) all_products))
    (length (filter (fun p => Product.stock_quantity p <= 10) all_products))
    (length (filter (fun p => Product.stock_quantity p = 0) all_products)).

(** [ProductViewSet.statistics] up to the product counts: the early
    response or the counts. *)
Definition statistics (user : Users.requester) (all_products : Product.table)
    : Views.Response + product_counts :=
  if negb (statistics_allowed user) then inl permission_denied
  else inr (statistics_counts all_products).

(** [CategoryViewSet.get_queryset] for the [root_categories] action
    (views.py 33, 49-59) and the queryset of the action (views.py 64). *)
Definition category_queryset (tbl : Category.table) : list Category.t :=
  filter (fun c => Category.is_active c = true) tbl.

Definition root_categories_queryset (tbl : Category.table) : list Category.t :=
  filter (fun c => Category.parent_id c = None) (category_queryset tbl).

End Catalog.

(** ** Reviews of a product and their moderation

    The reviews table is in insertion order ([Review.create] appends), the
    order of [created_at]; [order_by('-created_at')] reverses it. *)

Module Reviews.

(** [product.reviews.filter(is_approved=True)]. *)
Definition approved (tbl : Review.table) (product : Product.t) : list Review.t :=
  filter (fun r => Review.product_id r = Product.id product /\
                   Review.is_approved r = true) tbl.

(** The queryset of [ProductViewSet.reviews] (views.py 150-154). *)
Definition reviews_action (tbl : Review.table) (product : Product.t)
    : list Review.t :=
  reverse (approved tbl product).

(** [get_review_count] (serializers.py 146-148 and 261-263). *)
Definition get_review_count (tbl : Review.table) (obj : Product.t) : nat :=
  length (approved tbl obj).

(** The queryset of [get_recent_reviews] (serializers.py 265-268). *)
Definition get_recent_reviews (tbl : Review.table) (obj : Product.t)
    : list Review.t :=
  take 3 (reverse (approved tbl obj)).

(** [ReviewViewSet.get_queryset] (views.py 342-352) for an authenticated
    user. *)
Definition get_queryset (user : Users.User) (tbl : Review.table) : list Review.t :=
  if Users.is_staff user then tbl
  else filter (fun r => Review.is_approved r = true \/
                        Review.user_id r = Users.id user) tbl.

(** [self.get_object()]: the row of the queryset with the given key. *)
Definition get_object (user : Users.User) (tbl : Review.table) (pk : Z)
    : option Review.t :=
  find (fun r => bool_decide (Review.id r = pk)) (get_queryset user tbl).

Definition with_is_approved (r : Review.t) (b : bool) : Review.t :=
  Review.mk (Review.id r) (Review.product_id r) (Review.user_id r)
            (Review.rating r) (Review.title r) (Review.content r)
            (Review.is_verified_purchase r) b (Review.helpful_votes r).

Definition with_helpful_votes (r : Review.t) (n : Z) : Review.t :=
  Review.mk (Review.id r) (Review.product_id r) (Review.user_id r)
            (Review.rating r) (Review.title r) (Review.content r)
            (Review.is_verified_purchase r) (Review.is_approved r) n.

(** [review.save(update_fields=[...])] for a row just fetched: the row with
    the instance's key takes the written field. *)
Definition save_row (write : Review.t -> Review.t) (tbl : Review.table)
    (self : Review.t) : Review.table :=
  map (fun r => if bool_decide (Review.id r = Review.id self) then write r else r)
      tbl.

Inductive reply : Type :=
  | NotFound                                   (* Http404 from get_object *)
  | Message (message : string)
  | Helpful (message : string) (helpful_votes : Z).

(** [ReviewViewSet.approve] and [reject] (views.py 358-374), reached by
    staff only ([IsAdminUser]). *)
Definition set_approval (b : bool) (msg : string) (user : Users.User)
    (tbl : Review.table) (pk : Z) : Review.table * reply :=
  match get_object user tbl pk with
  | None => (tbl, NotFound)
  | Some review =>
      let review := with_is_approved review b in
      (save_row (fun r => with_is_approved r (Review.is_approved review))
                tbl review,
       Message msg)
  end.

Definition approve : Users.User -> Review.table -> Z -> Review.table * reply :=
  set_approval true "Review approved successfully.".

Definition reject : Users.User -> Review.table -> Z -> Review.table * reply :=
  set_approval false "Review rejected successfully.".

(** [ReviewViewSet.mark_helpful] (views.py 376-386). *)
Definition mark_helpful (user : Users.User) (tbl : Review.table) (pk : Z)
    : Review.table * outcome reply :=
  match get_object user tbl pk with
  | None => (tbl, Return NotFound)
  | Some review =>
      let review := with_helpful_votes review (Review.helpful_votes review + 1) in
      if bool_decide (Review.helpful_votes review < 0) then
        (tbl, Raise IntegrityError)     (* PositiveIntegerField column *)
      else
        (save_row (fun r => with_helpful_votes r (Review.helpful_votes review))
                  tbl review,
         Return (Helpful "Review marked as helpful."
                         (Review.helpful_votes review)))
  end.

End Reviews.

(** ** serializers.py: the nested category representation *)

Module CategorySerializer.

(** What [CategorySerializer] renders of a category: the row's own fields
    (kept as the row) and the three computed fields.  [full_path] is
    [None] where the field renders null. *)
#[local] Unset Elimination Schemes.
Inductive data : Type :=
  | Data (obj : Category.t) (children : list data) (full_path : option string)
         (product_count : nat).
#[local] Set Elimination Schemes.

Definition obj_of (d : data) : Category.t :=
  match d with Data obj _ _ _ => obj end.

(** The categories rendered in a representation, itself first. *)
Fixpoint nodes (d : data) : list Category.t :=
  match d with
  | Data obj children _ _ =>
      obj :: (fix all (l : list data) : list Category.t :=
                match l with
                | [] => []
                | c :: rest => nodes c ++ all rest
                end) children
  end.

(** A [ReadOnlyField] reads its attribute through the framework's
    [get_attribute], which turns [ObjectDoesNotExist] into a null field;
    any other exception propagates. *)
Definition read_only_field {A : Type} (attribute : outcome A)
    : outcome (option A) :=
  match attribute with
  | Return a => Return (Some a)
  | Raise DoesNotExist => Return None
  | Raise e => Raise e
  | OutOfFuel => OutOfFuel
  end.

(** [CategorySerializer(obj).data]: the fields in the order of
    [Meta.fields], with [get_children] (serializers.py 64-72) rendering the
    active children by the same serializer, the [full_path] property and
    [get_product_count] (serializers.py 74-76).  The table is held in the
    order of [Meta.ordering], which the filters keep. *)
Fixpoint to_representation (fuel : nat) (db : DB) (obj : Category.t)
    : outcome data :=
  match fuel with
  | O => OutOfFuel
  | S fuel' =>
      children ←
        (if bool_decide (Category.children (categories db) obj <> []) then
           mapM (to_representation fuel' db)
                (filter (fun c => Category.is_active c = true)
                        (Category.children (categories db) obj))
         else Return []);
      full_path ← read_only_field (Category.full_path fuel (categories db) obj);
      Return (Data obj children full_path
                   (Views.get_product_count (products db) obj))
  end.

(** [CategoryViewSet.root_categories] (views.py 61-66): the action is not
    ['list'], so the roots are rendered by [CategorySerializer]. *)
Definition root_categories (fuel : nat) (db : DB) : outcome (list data) :=
  mapM (to_representation fuel db)
       (Catalog.root_categories_queryset (categories db)).

(** [c] is an active child of [p], and what such steps reach. *)
Definition active_child (tbl : Category.table) (p c : Category.t) : Prop :=
  c ∈ Category.children tbl p /\ Category.is_active c = true.

Definition shown (tbl : Category.table) : relation Category.t :=
  tc (active_child tbl).

(** [c] and all the categories above it are active. *)
Definition active_chain (tbl : Category.table) (c : Category.t) : Prop :=
  forall k a, Tree.ancestor k tbl c = Some a -> Category.is_active a = true.

(** What one call renders: the category, then what active-child steps
    reach from it. *)
Definition renders (tbl : Category.table) (c : Category.t) (d : data) : Prop :=
  obj_of d = c /\
  forall r, r ∈ nodes d <-> r = c \/ shown tbl c r.

End CategorySerializer.

(** ** serializers.py: writing a product, with the signal it fires

    [Model.save()] and the many-to-many manager belong to the framework and
    the database.  They are parameters here: [slugify], the INSERT and the
    UPDATE of a row with the constraints of the table, and [tags.set]. *)

Module ProductWrites.

Definition with_tags (self : Product.t) (tags : list Z) : Product.t :=
  Product.mk (Product.id self) (Product.name self) (Product.slug self)
             (Product.category_id self) (Product.price self) (Product.cost self)
             (Product.stock_quantity self) (Product.sku self)
             (Product.status self) (Product.is_featured self)
             (Product.created_by_id self) tags.

Definition with_slug (self : Product.t) (slug : string) : Product.t :=
  Product.mk (Product.id self) (Product.name self) slug
             (Product.category_id self) (Product.price self) (Product.cost self)
             (Product.stock_quantity self) (Product.sku self)
             (Product.status self) (Product.is_featured self)
             (Product.created_by_id self) (Product.tags self).

(** [for attr, value in validated_data.items(): setattr(instance, attr,
    value)] (serializers.py 245-246). *)
Definition set_attrs (instance : Product.t) (a : ProductSerializer.attrs)
    : Product.t :=
  Product.mk (Product.id instance)
             (default (Product.name instance) (ProductSerializer.a_name a))
             (Product.slug instance)
             (default (Product.category_id instance)
                      (ProductSerializer.a_category_id a))
             (default (Product.price instance) (ProductSerializer.a_price a))
             (default (Product.cost instance) (ProductSerializer.a_cost a))
             (default (Product.stock_quantity instance)
                      (ProductSerializer.a_stock_quantity a))
             (default (Product.sku instance) (ProductSerializer.a_sku a))
             (default (Product.status instance) (ProductSerializer.a_status a))
             (default (Product.is_featured instance)
                      (ProductSerializer.a_is_featured a))
             (Product.created_by_id instance)
             (Product.tags instance).

Definition with_id (self : Product.t) (pk : Z) : Product.t :=
  Product.mk pk (Product.name self) (Product.slug self)
             (Product.category_id self) (Product.price self) (Product.cost self)
             (Product.stock_quantity self) (Product.sku self)
             (Product.status self) (Product.is_featured self)
             (Product.created_by_id self) (Product.tags self).

Definition with_created_by (self : Product.t) (user : Z) : Product.t :=
  Product.mk (Product.id self) (Product.name self) (Product.slug self)
             (Product.category_id self) (Product.price self) (Product.cost self)
             (Product.stock_quantity self) (Product.sku self)
             (Product.status self) (Product.is_featured self)
             user (Product.tags self).

(** The row of [pk] takes the given related tags. *)
Definition store_tags (tbl : Product.table) (pk : Z) (tags : list Z)
    : Product.table :=
  map (fun r => if bool_decide (Product.id r = pk) then with_tags r tags else r)
      tbl.

Section Writes.
Context {V : Type}.

Variable slugify : string -> string.
(** The INSERT of a row, giving its key, and the UPDATE of the instance's
    row. *)
Variable db_insert : Product.table -> Product.t -> outcome (Product.table * Z).
Variable db_update : Product.table -> Product.t -> outcome Product.table.
(** [instance.tags.set(tag_ids)]: the tags related afterwards. *)
Variable tags_set : Product.t -> list Z -> outcome (list Z).

(** The override of [Product.save] (models.py 213-217). *)
Definition slugged (self : Product.t) : Product.t :=
  if bool_decide (Product.slug self = "")
  then with_slug self (slugify (Product.name self)) else self.

(** [instance.save()] on a stored instance, followed by the [post_save]
    handler of signals.py. *)
Definition save (tbl : Product.table) (cache : gmap string V) (self : Product.t)
    : outcome (Product.table * gmap string V * Product.t) :=
  let self := slugged self in
  tbl ← db_update tbl self;
  Return (tbl, Signals.invalidate_product_cache self cache, self).

(** [Product.objects.create(...)]: the same for a new instance. *)
Definition objects_create (tbl : Product.table) (cache : gmap string V)
    (self : Product.t) : outcome (Product.table * gmap string V * Product.t) :=
  let self := slugged self in
  '(tbl, pk) ← db_insert tbl self;
  let self := with_id self pk in
  Return (tbl, Signals.invalidate_product_cache self cache, self).

Definition set_tags (tbl : Product.table) (cache : gmap string V)
    (instance : Product.t) (tag_ids : list Z)
    : outcome (Product.table * gmap string V * Product.t) :=
  tags ← tags_set instance tag_ids;
  Return (store_tags tbl (Product.id instance) tags, cache,
          with_tags instance tags).

(** [ProductSerializer.create] (serializers.py 229-239): [fields] are the
    validated fields, [user] is [request.user]; a new instance has no
    related tags. *)
Definition create (tbl : Product.table) (cache : gmap string V)
    (fields : Product.t) (user : Z) (tag_ids : list Z)
    : outcome (Product.table * gmap string V * Product.t) :=
  '(tbl, cache, product) ←
    objects_create tbl cache (with_tags (with_created_by fields user) []);
  if bool_decide (tag_ids <> []) then set_tags tbl cache product tag_ids
  else Return (tbl, cache, product).

(** [ProductSerializer.update] (serializers.py 241-252). *)
Definition update (tbl : Product.table) (cache : gmap string V)
    (instance : Product.t) (validated_data : ProductSerializer.attrs)
    (tag_ids : option (list Z))
    : outcome (Product.table * gmap string V * Product.t) :=
  '(tbl, cache, instance) ← save tbl cache (set_attrs instance validated_data);
  match tag_ids with
  | Some ids => set_tags tbl cache instance ids
  | None => Return (tbl, cache, instance)
  end.

End Writes.

End ProductWrites.

(** ** Shapes of cache keys *)

Module Keys.

(** [s] starts like a rendered integer: with a digit or a minus sign. *)
Definition numeric_head (s : string) : bool :=
  match s with
  | String a _ =>
      bool_decide (String a "" ∈
                     ["0"; "1"; "2"; "3"; "4"; "5"; "6"; "7"; "8"; "9"; "-"])
  | EmptyString => false
  end.

Definition tag_key (tag : Z) : string := "tag_products_" +:+ pretty tag.
Definition category_products_key (category : Z) : string :=
  "category_products_" +:+ pretty category.
Definition category_key (category : Z) : string :=
  "category_" +:+ pretty category.
Definition product_rating_key (product : Z) : string :=
  "product_rating_" +:+ pretty product.
Definition product_reviews_key (product : Z) : string :=
  "product_reviews_" +:+ pretty product.

End Keys.

(** ** Sample data *)

Definition electronics : Category.t :=
  Category.mk 1 "Electronics" "electronics" None true 0.
Definition computers : Category.t :=
  Category.mk 2 "Computers" "computers" (Some 1) true 0.
Definition laptops : Category.t :=
  Category.mk 3 "Laptops" "laptops" (Some 2) true 0.
Definition sample_tree : Category.table := [electronics; computers; laptops].

(** A corrupted table: two categories that are each other's parent. *)
Definition loop_a : Category.t := Category.mk 1 "A" "a" (Some 2) true 0.
Definition loop_b : Category.t := Category.mk 2 "B" "b" (Some 1) true 0.
Definition looped : Category.table := [loop_a; loop_b].

(** A product in the style of the test suite (price 99.99, cost 50.00,
    stock 10), and variants of it. *)
Definition test_product : Product.t :=
  Product.mk 1 "Test Product" "test-product" 1 (9999 # 100) (Some (5000 # 100))
             10 "TEST-001" Product.PUBLISHED false 1 [7].
Definition laptop_product : Product.t :=
  Product.mk 2 "Laptop" "laptop" 3 (120000 # 100) None
             4 "LAP-001" Product.PUBLISHED false 1 [].
Definition free_sample : Product.t :=
  Product.mk 3 "Free Sample" "free-sample" 1 (1000 # 100) (Some (0 # 100))
             10 "FREE-001" Product.DRAFT false 1 [].

Definition sample_review : Review.t :=
  Review.mk 1 1 42 5 "Great product!" "I love this product." false true 0.

(** A cache holding a tag listing and a key spelled with a colon. *)
Definition sample_cache : gmap string Z :=
  <["tag_products_7" := 0]> (<["category_products:1" := 0]> ∅).

Definition sample_db : DB :=
  mkDB sample_tree [test_product; laptop_product; free_sample] [].

Definition reviewed_db : DB := with_reviews sample_db [sample_review].

Definition sample_submission : Views.validated_review :=
  Views.mkValidated 1 5 "Great product!" "I love this product." None.

(** A table whose second row points at a parent that is not stored. *)
Definition orphan_parent : Category.t :=
  Category.mk 5 "Phones" "phones" (Some 9) true 0.
Definition orphan_child : Category.t :=
  Category.mk 6 "Android" "android" (Some 5) true 0.
Definition orphaned : Category.table := [orphan_parent; orphan_child].

(** A cache with entries of several categories, tags and products. *)
Definition busy_cache : gmap string Z :=
  list_to_map
    [ ("category_products_1", 1); ("category_products_3", 2);
      ("featured_products", 3); ("product_stats", 4);
      ("tag_products_7", 5); ("tag_products_8", 6);
      ("category_tree", 7); ("root_categories", 8);
      ("category_1", 9); ("category_2", 10); ("category_3", 11);
      ("product_rating_1", 12); ("product_reviews_1", 13);
      ("product_rating_2", 14) ].

(** A tag and products that carry it. *)
Definition draft_tagged : Product.t :=
  Product.mk 4 "Prototype" "prototype" 2 (5000 # 100) (Some (6000 # 100))
             0 "PRO-001" Product.DRAFT true 1 [7].
Definition zero_priced : Product.t :=
  Product.mk 5 "Giveaway" "giveaway" 1 (0 # 100) (Some (500 # 100))
             3 "GIV-001" Product.DRAFT false 1 [].
Definition three_stars : Review.t :=
  Review.mk 2 1 43 3 "Fine" "It works." false true 0.
Definition seven_stars : Review.t :=
  Review.mk 9 1 44 7 "Seven" "Out of range." false true 0.

(** Requesters: a staff member, a manager without the staff flag and a
    plain user. *)
Definition staff_user : Users.User := Users.mkUser 1 Users.ADMIN true.
Definition manager_user : Users.User := Users.mkUser 2 Users.MANAGER false.

Definition catalog : Product.table :=
  [test_product; laptop_product; free_sample; draft_tagged; zero_priced].

(** Reviews of the test product: one approved, one awaiting approval. *)
Definition hidden_review : Review.t :=
  Review.mk 3 1 44 2 "Meh" "Not for me." false false 0.
Definition review_table : Review.table :=
  [sample_review; three_stars; hidden_review].
Definition author_44 : Users.User := Users.mkUser 44 Users.USER false.

Definition retired_computers : Category.t :=
  Category.mk 2 "Computers" "computers" (Some 1) false 0.

(** [Computers] is retired while [Laptops] below it is still active. *)
Definition retired_branch : DB :=
  mkDB [electronics; retired_computers; laptops] [laptop_product] [].


(** A database for the examples: [slugify] keeps the name, the INSERT
    appends the row under the key 9, the UPDATE replaces the row of the
    same key, and [tags.set] relates exactly the given tags. *)
Definition sample_slugify (name : string) : string := name.
Definition sample_insert (tbl : Product.table) (p : Product.t)
    : outcome (Product.table * Z) :=
  Return (tbl ++ [ProductWrites.with_id p 9], 9).
Definition sample_update (tbl : Product.table) (p : Product.t)
    : outcome Product.table :=
  Return (map (fun r => if bool_decide (Product.id r = Product.id p)
                        then p else r) tbl).
Definition sample_tags_set (p : Product.t) (ids : list Z) : outcome (list Z) :=
  Return ids.

(** A request setting only the cost, to 70.00. *)
Definition cost_7000 : ProductSerializer.attrs :=
  ProductSerializer.mkAttrs None None None (Some (Some (7000 # 100)))
                            None None None None.

(** A request moving a product to category 3. *)
Definition move_to_laptops : ProductSerializer.attrs :=
  ProductSerializer.mkAttrs None (Some 3) None None None None None None.

Definition moved_product : Product.t :=
  Product.mk 1 "Test Product" "test-product" 3 (9999 # 100) (Some (5000 # 100))
             10 "TEST-001" Product.PUBLISHED false 1 [8].

(** The sample cache after the creation and after the update of the
    examples. *)
Definition busy_cache_after_create : gmap string Z :=
  Signals.invalidate_product_cache
    (ProductWrites.with_id (ProductWrites.with_tags test_product []) 9) busy_cache.
Definition busy_cache_after_update : gmap string Z :=
  Signals.invalidate_product_cache
    (ProductWrites.set_attrs test_product move_to_laptops) busy_cache.


(** * Properties *)

Example full_path_computers :
  Category.full_path 5 sample_tree computers = Return "Electronics > Computers".
Proof. reflexivity. Qed.

Example descendants_electronics :
  Category.get_descendants 5 sample_tree electronics = Return [computers; laptops].
Proof. vm_compute. reflexivity. Qed.

Section TreeFacts.
Import Tree.
Variable tbl : Category.table.

Lemma get_Some pk p : Category.get tbl pk = Some p -> p ∈ tbl /\ Category.id p = pk.
Proof.
  unfold Category.get. intros H. apply find_some in H as [Hin Hid].
  split; [by apply list_elem_of_In|]. by apply bool_decide_eq_true_1 in Hid.
Qed.

Lemma get_pk c : pk_unique tbl -> c ∈ tbl -> Category.get tbl (Category.id c) = Some c.
Proof.
  unfold pk_unique, Category.get. induction tbl as [|r rest IH]; intros Hnd Hin.
  - by apply elem_of_nil in Hin.
  - rewrite fmap_cons in Hnd. apply NoDup_cons in Hnd as [Hr Hnd].
    simpl. case_bool_decide as Heq.
    + apply elem_of_cons in Hin as [->|Hin]; [done|].
      exfalso. apply Hr. rewrite Heq. by apply list_elem_of_fmap_2.
    + apply elem_of_cons in Hin as [->|Hin]; [done|]. by apply IH.
Qed.

Lemma parent_of_Some c p :
  parent_of tbl c = Some p -> p ∈ tbl /\ Category.parent_id c = Some (Category.id p).
Proof.
  unfold parent_of. destruct (Category.parent_id c) as [pid|]; simpl; [|done].
  intros [Hin <-]%get_Some. done.
Qed.

Lemma children_spec c d :
  d ∈ Category.children tbl c <-> d ∈ tbl /\ Category.parent_id d = Some (Category.id c).
Proof. unfold Category.children. rewrite list_elem_of_filter. tauto. Qed.

Lemma child_parent_of c d :
  pk_unique tbl -> c ∈ tbl -> d ∈ Category.children tbl c -> parent_of tbl d = Some c.
Proof.
  intros Hpk Hc [Hd Hp]%children_spec. unfold parent_of. rewrite Hp. simpl.
  by apply get_pk.
Qed.

Lemma parent_of_child c d :
  d ∈ tbl -> parent_of tbl d = Some c -> d ∈ Category.children tbl c.
Proof. intros Hd [_ Hp]%parent_of_Some. by apply children_spec. Qed.

Lemma ancestor_add a b c :
  ancestor (a + b) tbl c = ancestor a tbl c ≫= ancestor b tbl.
Proof.
  revert c. induction a as [|a IH]; intros c; simpl; [done|].
  destruct (parent_of tbl c) as [p|]; simpl; [apply IH | done].
Qed.

Lemma ancestor_S_r k c :
  ancestor (S k) tbl c = ancestor k tbl c ≫= parent_of tbl.
Proof.
  replace (S k) with (k + 1)%nat by lia. rewrite ancestor_add.
  destruct (ancestor k tbl c) as [d|]; simpl; [|done].
  by destruct (parent_of tbl d).
Qed.

Lemma ancestor_in k c d : c ∈ tbl -> ancestor k tbl c = Some d -> d ∈ tbl.
Proof.
  revert c. induction k as [|k IH]; intros c Hc; simpl.
  - by intros [= <-].
  - destruct (parent_of tbl c) as [p|] eqn:Hp; simpl; [|done].
    apply IH. by apply parent_of_Some in Hp as [? _].
Qed.

Lemma ancestor_None_le k k' c :
  (k <= k')%nat -> ancestor k tbl c = None -> ancestor k' tbl c = None.
Proof.
  intros Hle H. replace k' with (k + (k' - k))%nat by lia.
  by rewrite ancestor_add, H.
Qed.

Lemma parent_of_eq c :
  parent_of tbl c = match Category.parent_id c with
                    | Some pid => Category.get tbl pid
                    | None => None
                    end.
Proof. unfold parent_of. by destruct (Category.parent_id c). Qed.

Lemma on_cycle_parent c :
  on_cycle tbl c -> exists p, parent_of tbl c = Some p /\ on_cycle tbl p.
Proof.
  intros [Hc [k Hk]]. simpl in Hk.
  destruct (parent_of tbl c) as [p|] eqn:Hp; [|done]. simpl in Hk.
  exists p. split; [done|]. split; [by apply parent_of_Some in Hp as [? _]|].
  exists k. by rewrite ancestor_S_r, Hk.
Qed.

Lemma on_cycle_child c :
  on_cycle tbl c -> exists d, d ∈ Category.children tbl c /\ on_cycle tbl d.
Proof.
  intros [Hc [k Hk]]. pose proof Hk as Hk'. rewrite ancestor_S_r in Hk'.
  destruct (ancestor k tbl c) as [d|] eqn:Hd; [|done]. simpl in Hk'.
  assert (d ∈ tbl) as Hin by (by eapply ancestor_in).
  exists d. split; [by apply parent_of_child|]. split; [done|].
  exists k. simpl. by rewrite Hk'.
Qed.

End TreeFacts.

(** ** Acyclic tables have bounded parent chains *)

Section Chains.
Import Tree.
Variable tbl : Category.table.

Lemma chain_elem n c x :
  x ∈ chain n tbl c -> exists i, ancestor i tbl c = Some x.
Proof.
  revert c. induction n as [|n IH]; intros c; simpl.
  - intros ->%list_elem_of_singleton. by exists 0%nat.
  - intros [->|Hx]%elem_of_cons; [by exists 0%nat|].
    destruct (parent_of tbl c) as [p|] eqn:Hp; [|by apply elem_of_nil in Hx].
    destruct (IH _ Hx) as [i Hi]. exists (S i). simpl. by rewrite Hp.
Qed.

Lemma chain_length n c :
  is_Some (ancestor n tbl c) -> length (chain n tbl c) = S n.
Proof.
  revert c. induction n as [|n IH]; intros c; simpl; [done|].
  destruct (parent_of tbl c) as [p|]; simpl; [|by intros [? ?]].
  intros H. by rewrite IH.
Qed.

Lemma chain_in n c x : c ∈ tbl -> x ∈ chain n tbl c -> x ∈ tbl.
Proof. intros Hc [i Hi]%chain_elem. by eapply ancestor_in. Qed.

Lemma chain_NoDup n c : acyclic tbl -> c ∈ tbl -> NoDup (chain n tbl c).
Proof.
  intros Hac. revert c. induction n as [|n IH]; intros c Hc; simpl.
  - apply NoDup_singleton.
  - destruct (parent_of tbl c) as [p|] eqn:Hp; [|apply NoDup_singleton].
    apply NoDup_cons. split.
    + intros [i Hi]%chain_elem. apply (Hac c i Hc). simpl. by rewrite Hp.
    + apply IH. by apply parent_of_Some in Hp as [? _].
Qed.

(** Pigeonhole: a chain of distinct stored rows is no longer than the table. *)
Lemma ancestor_bound c :
  acyclic tbl -> c ∈ tbl -> ancestor (length tbl) tbl c = None.
Proof.
  intros Hac Hc. destruct (ancestor (length tbl) tbl c) as [d|] eqn:Hd; [|done].
  exfalso.
  assert (length (chain (length tbl) tbl c) <= length tbl)%nat as Hle.
  { apply submseteq_length, NoDup_submseteq; [by apply chain_NoDup|].
    intros x. by apply chain_in. }
  rewrite chain_length in Hle by (by rewrite Hd). lia.
Qed.

Lemma reaches_root_None n c :
  reaches_root n tbl c = true -> ancestor (S n) tbl c = None.
Proof.
  revert c. induction n as [|n IH]; intros c; simpl;
    destruct (parent_of tbl c) as [p|] eqn:Hp; simpl; try done.
  intros H. apply IH in H. simpl in H. done.
Qed.

Lemma ancestor_cycle_total c k :
  ancestor (S k) tbl c = Some c -> forall n, is_Some (ancestor n tbl c).
Proof.
  intros Hk n. induction (lt_wf n) as [n _ IH].
  destruct (decide (n <= S k)%nat) as [Hle|Hgt].
  - destruct (ancestor n tbl c) as [d|] eqn:Hn; [done|].
    by rewrite (ancestor_None_le _ n (S k) c Hle Hn) in Hk.
  - replace n with (S k + (n - S k))%nat by lia.
    rewrite ancestor_add, Hk. simpl. apply IH. lia.
Qed.

Lemma acyclicb_sound : acyclicb tbl = true -> acyclic tbl.
Proof.
  unfold acyclicb. intros H c k Hc Hk.
  rewrite forallb_forall in H. apply list_elem_of_In, H, reaches_root_None in Hc.
  destruct (ancestor_cycle_total c k Hk (S (length tbl))) as [d Hd]. congruence.
Qed.

Lemma reaches_root_of_None n c :
  ancestor (S n) tbl c = None -> reaches_root n tbl c = true.
Proof.
  revert c. induction n as [|n IH]; intros c; simpl;
    destruct (parent_of tbl c) as [p|] eqn:Hp; simpl; try done.
  apply IH.
Qed.

(** The checker accepts exactly the acyclic tables. *)
Lemma acyclicb_complete : acyclic tbl -> acyclicb tbl = true.
Proof.
  intros Hac. unfold acyclicb. apply forallb_forall. intros c Hc%list_elem_of_In.
  apply reaches_root_of_None.
  apply (ancestor_None_le tbl (length tbl)); [lia|]. by apply ancestor_bound.
Qed.

(** Violating the invariant is having a category on a cycle. *)
Lemma acyclic_no_cycle : acyclic tbl <-> forall c, ~ on_cycle tbl c.
Proof.
  unfold acyclic, on_cycle. split.
  - intros Hac c [Hc [k Hk]]. by apply (Hac c k).
  - intros Hno c k Hc Hk. apply (Hno c). eauto.
Qed.

Lemma fk_validb_sound : fk_validb tbl = true -> fk_valid tbl.
Proof.
  unfold fk_validb. intros H c pid Hc Hp.
  rewrite forallb_forall in H. apply list_elem_of_In, H in Hc.
  rewrite Hp in Hc. by apply bool_decide_eq_true_1 in Hc.
Qed.

End Chains.

(** ** [full_path] *)

Section FullPath.
Import Tree.
Variable tbl : Category.table.

Lemma full_path_S fuel c :
  Category.full_path (S fuel) tbl c =
    match Category.parent_id c with
    | None => Return (Category.name c)
    | Some pid =>
        match Category.get tbl pid with
        | Some p =>
            pp ← Category.full_path fuel tbl p;
            Return (pp +:+ " > " +:+ Category.name c)
        | None => Raise DoesNotExist
        end
    end.
Proof.
  simpl. unfold Category.parent.
  destruct (Category.parent_id c) as [pid|]; [|done].
  by destruct (Category.get tbl pid).
Qed.

(** More budget never changes a value already returned. *)
Lemma full_path_mono fuel fuel' c s :
  (fuel <= fuel')%nat ->
  Category.full_path fuel tbl c = Return s ->
  Category.full_path fuel' tbl c = Return s.
Proof.
  revert fuel' c s. induction fuel as [|fuel IH]; intros fuel' c s Hle; [done|].
  destruct fuel' as [|fuel']; [lia|]. rewrite !full_path_S.
  destruct (Category.parent_id c) as [pid|]; [|done].
  destruct (Category.get tbl pid) as [p|]; [|done].
  destruct (Category.full_path fuel tbl p) as [pp| |] eqn:Hp; try done.
  rewrite (IH fuel' p pp) by (done || lia). done.
Qed.

(** A chain that ends within [k] steps is walked with a budget of [k]. *)
Lemma full_path_returns k fuel c :
  fk_valid tbl -> c ∈ tbl -> ancestor k tbl c = None -> (k <= fuel)%nat ->
  returns (Category.full_path fuel tbl c).
Proof.
  intros Hfk. revert fuel c. induction k as [|k IH]; intros fuel c Hc Hk Hle; [done|].
  destruct fuel as [|fuel]; [lia|]. rewrite full_path_S.
  simpl in Hk. rewrite parent_of_eq in Hk.
  destruct (Category.parent_id c) as [pid|] eqn:Hpid; [|by eexists].
  destruct (Hfk c pid Hc Hpid) as [p Hp]. rewrite Hp in Hk |- *. simpl in Hk.
  destruct (IH fuel p) as [pp Hpp]; [by apply get_Some in Hp as [? _]|done|lia|].
  rewrite Hpp. by eexists.
Qed.

(** On a cycle the recursion meets no base case, whatever the budget. *)
Lemma full_path_cycle fuel c :
  on_cycle tbl c -> Category.full_path fuel tbl c = OutOfFuel.
Proof.
  revert c. induction fuel as [|fuel IH]; intros c Hcyc; [done|].
  destruct (on_cycle_parent tbl c Hcyc) as (p & Hp & Hcp).
  rewrite full_path_S. rewrite parent_of_eq in Hp.
  destruct (Category.parent_id c) as [pid|]; [|done].
  rewrite Hp, (IH p Hcp). done.
Qed.

End FullPath.

(** ** [get_descendants] *)

Section Descendants.
Import Tree.
Variable tbl : Category.table.

Section Loop.
Variable rec : Category.t -> outcome (list Category.t).

(** The loop returns exactly when every recursive call does, with the
    children and their results appended in order. *)
Lemma extend_returns todo acc :
  (forall d, d ∈ todo -> returns (rec d)) ->
  Category.extend_descendants rec todo acc =
    Return (acc ++ (todo ≫= fun d => d :: result (rec d))).
Proof.
  revert acc. induction todo as [|d rest IH]; intros acc Hall; simpl.
  - by rewrite app_nil_r.
  - destruct (Hall d) as [sub Hsub]; [left|]. rewrite Hsub. simpl.
    rewrite IH by (intros; apply Hall; by right).
    by rewrite <- !app_assoc.
Qed.

Lemma extend_inv todo acc L :
  Category.extend_descendants rec todo acc = Return L ->
  forall d, d ∈ todo -> returns (rec d).
Proof.
  revert acc. induction todo as [|d rest IH]; intros acc H x Hx.
  - by apply elem_of_nil in Hx.
  - simpl in H. destruct (rec d) as [sub| |] eqn:Hd; try done. simpl in H.
    apply elem_of_cons in Hx as [->|Hx]; [by eexists|]. by eapply IH.
Qed.

Lemma extend_no_raise todo acc e :
  (forall d e', rec d <> Raise e') ->
  Category.extend_descendants rec todo acc <> Raise e.
Proof.
  intros Hrec. revert acc. induction todo as [|d rest IH]; intros acc; simpl; [done|].
  destruct (rec d) as [sub|e'|] eqn:Hd; simpl; [apply IH| |done].
  by destruct (Hrec d e').
Qed.

Lemma extend_out_of_fuel todo acc d :
  (forall d e', rec d <> Raise e') ->
  d ∈ todo -> rec d = OutOfFuel ->
  Category.extend_descendants rec todo acc = OutOfFuel.
Proof.
  intros Hrec Hd Hout. revert acc.
  induction todo as [|x rest IH]; intros acc; [by apply elem_of_nil in Hd|].
  simpl. destruct (rec x) as [sub|e'|] eqn:Hx; simpl.
  - apply elem_of_cons in Hd as [->|Hd]; [congruence|]. by apply IH.
  - by destruct (Hrec x e').
  - done.
Qed.

End Loop.

Lemma get_descendants_no_raise fuel c e :
  Category.get_descendants fuel tbl c <> Raise e.
Proof.
  revert c e. induction fuel as [|fuel IH]; intros c e; [done|].
  simpl. by apply extend_no_raise.
Qed.

Lemma get_descendants_S fuel c :
  (forall d, d ∈ Category.children tbl c ->
     returns (Category.get_descendants fuel tbl d)) ->
  Category.get_descendants (S fuel) tbl c =
    Return (Category.children tbl c ≫=
              fun d => d :: result (Category.get_descendants fuel tbl d)).
Proof. intros H. simpl. by rewrite extend_returns. Qed.

Lemma get_descendants_inv fuel c L :
  Category.get_descendants (S fuel) tbl c = Return L ->
  (forall d, d ∈ Category.children tbl c ->
     returns (Category.get_descendants fuel tbl d)) /\
  L = Category.children tbl c ≫=
        fun d => d :: result (Category.get_descendants fuel tbl d).
Proof.
  intros H. assert (forall d, d ∈ Category.children tbl c ->
     returns (Category.get_descendants fuel tbl d)) as Hall.
  { simpl in H. by eapply extend_inv. }
  split; [done|]. rewrite get_descendants_S in H by done. congruence.
Qed.

Lemma get_descendants_cycle fuel c :
  on_cycle tbl c -> Category.get_descendants fuel tbl c = OutOfFuel.
Proof.
  revert c. induction fuel as [|fuel IH]; intros c Hcyc; [done|].
  destruct (on_cycle_child tbl c Hcyc) as (d & Hd & Hcd). simpl.
  apply extend_out_of_fuel with d; [|done|by apply IH].
  intros. apply get_descendants_no_raise.
Qed.

(** What a returning call lists is what the child edge reaches. *)
Lemma get_descendants_reachable fuel c L :
  Category.get_descendants fuel tbl c = Return L ->
  forall x, x ∈ L <-> reachable tbl c x.
Proof.
  revert c L. induction fuel as [|fuel IH]; intros c L H x; [done|].
  apply get_descendants_inv in H as [Hall ->].
  rewrite list_elem_of_bind. split.
  - intros (d & Hx & Hd). destruct (Hall d Hd) as [sub Hsub].
    rewrite Hsub in Hx. simpl in Hx. apply elem_of_cons in Hx as [->|Hx].
    + by apply tc_once.
    + eapply tc_l; [exact Hd|]. by apply (IH d sub).
  - intros Hr. inversion Hr as [? Hd|? d ? Hd Hdx]; subst.
    + exists x. split; [left|done].
    + exists d. split; [|done]. destruct (Hall d Hd) as [sub Hsub].
      rewrite Hsub. simpl. right. by apply (IH d sub).
Qed.

End Descendants.

Section Forest.
Import Tree.
Variable tbl : Category.table.
Hypothesis Hpk : pk_unique tbl.
Hypothesis Hac : acyclic tbl.

Lemma reachable_ancestor c x :
  reachable tbl c x -> c ∈ tbl ->
  x ∈ tbl /\ exists k, ancestor (S k) tbl x = Some c.
Proof.
  induction 1 as [c x Hx|c d x Hd Hr IH]; intros Hc.
  - pose proof (child_parent_of tbl c x Hpk Hc Hx) as Hp.
    apply children_spec in Hx as [Hx _]. split; [done|].
    exists 0%nat. simpl. by rewrite Hp.
  - pose proof (child_parent_of tbl c d Hpk Hc Hd) as Hp.
    apply children_spec in Hd as [Hd _].
    destruct (IH Hd) as [Hx [k Hk]]. split; [done|].
    exists (S k). by rewrite ancestor_S_r, Hk.
Qed.

Lemma not_reachable_self c : c ∈ tbl -> ~ reachable tbl c c.
Proof.
  intros Hc Hr. destruct (reachable_ancestor c c Hr Hc) as [_ [k Hk]].
  by apply (Hac c k).
Qed.

(** Two children of [c] that both lie on the parent chain of [y] coincide. *)
Lemma ancestor_siblings c d1 d2 y k1 k2 :
  c ∈ tbl -> parent_of tbl d1 = Some c -> parent_of tbl d2 = Some c ->
  ancestor k1 tbl y = Some d1 -> ancestor k2 tbl y = Some d2 ->
  (k1 <= k2)%nat -> d1 = d2.
Proof.
  intros Hc Hp1 Hp2 H1 H2 Hle.
  replace k2 with (k1 + (k2 - k1))%nat in H2 by lia.
  rewrite ancestor_add, H1 in H2. simpl in H2.
  destruct (k2 - k1)%nat as [|j]; [by injection H2|].
  exfalso. simpl in H2. rewrite Hp1 in H2. simpl in H2.
  apply (Hac c j Hc). by rewrite ancestor_S_r, H2.
Qed.

Lemma block_ancestor fuel d y :
  d ∈ tbl -> returns (Category.get_descendants fuel tbl d) ->
  y ∈ d :: result (Category.get_descendants fuel tbl d) ->
  exists k, ancestor k tbl y = Some d.
Proof.
  intros Hd [sub Hsub] Hy. rewrite Hsub in Hy. simpl in Hy.
  apply elem_of_cons in Hy as [->|Hy]; [by exists 0%nat|].
  apply (get_descendants_reachable tbl fuel d sub Hsub) in Hy.
  destruct (reachable_ancestor d y Hy Hd) as [_ [k Hk]]. by exists (S k).
Qed.

Lemma get_descendants_NoDup fuel c L :
  c ∈ tbl -> Category.get_descendants fuel tbl c = Return L -> NoDup L.
Proof.
  revert c L. induction fuel as [|fuel IH]; intros c L Hc H; [done|].
  apply get_descendants_inv in H as [Hall ->].
  assert (forall d, d ∈ Category.children tbl c ->
            d ∈ tbl /\ parent_of tbl d = Some c) as Hch.
  { intros d Hd. split; [by apply children_spec in Hd as [? _]|].
    by apply child_parent_of. }
  apply NoDup_bind.
  - intros d1 d2 y Hd1 Hd2 Hy1 Hy2.
    destruct (Hch d1 Hd1) as [Hin1 Hp1], (Hch d2 Hd2) as [Hin2 Hp2].
    destruct (block_ancestor fuel d1 y Hin1 (Hall d1 Hd1) Hy1) as [k1 Hk1].
    destruct (block_ancestor fuel d2 y Hin2 (Hall d2 Hd2) Hy2) as [k2 Hk2].
    destruct (decide (k1 <= k2)%nat).
    + by apply (ancestor_siblings c d1 d2 y k1 k2).
    + symmetry. apply (ancestor_siblings c d2 d1 y k2 k1); (done || lia).
  - intros d Hd. destruct (Hch d Hd) as [Hin _].
    destruct (Hall d Hd) as [sub Hsub]. rewrite Hsub. simpl.
    apply NoDup_cons. split; [|by apply (IH d)].
    intros Hself. apply (not_reachable_self d Hin).
    by apply (get_descendants_reachable tbl fuel d sub Hsub).
  - apply NoDup_filter. by apply NoDup_fmap_1 in Hpk.
Qed.

(** A budget of [m] levels suffices below a row that already has
    [length tbl - m] ancestors-or-self on its chain. *)
Lemma get_descendants_returns_at m c :
  c ∈ tbl -> is_Some (ancestor (length tbl - m) tbl c) ->
  returns (Category.get_descendants (S m) tbl c).
Proof.
  revert c. induction m as [|m IH]; intros c Hc Hsome.
  - rewrite Nat.sub_0_r, ancestor_bound in Hsome by done. by destruct Hsome.
  - rewrite get_descendants_S; [by eexists|].
    intros d Hd. pose proof (child_parent_of tbl c d Hpk Hc Hd) as Hp.
    apply children_spec in Hd as [Hd _]. apply IH; [done|].
    destruct (length tbl - m)%nat as [|j] eqn:Hj; [done|].
    simpl. rewrite Hp. simpl. by replace j with (length tbl - S m)%nat by lia.
Qed.

Lemma get_descendants_returns fuel c :
  c ∈ tbl -> (length tbl < fuel)%nat ->
  returns (Category.get_descendants fuel tbl c).
Proof.
  intros Hc Hlt. destruct fuel as [|m]; [lia|].
  apply get_descendants_returns_at; [done|].
  by replace (length tbl - m)%nat with 0%nat by lia.
Qed.

End Forest.

(** ** The category tree resolver *)

Lemma filter_length_mono {A} (P Q : A -> Prop)
    `{forall x, Decision (P x)} `{forall x, Decision (Q x)} (l : list A) :
  (forall x, P x -> Q x) -> (length (filter P l) <= length (filter Q l))%nat.
Proof.
  intros HPQ. induction l as [|x l IH]; [done|].
  rewrite !filter_cons.
  destruct (decide (P x)) as [HP|HP], (decide (Q x)) as [HQ|HQ]; simpl; try lia.
  by destruct HQ; auto.
Qed.

Lemma sample_tree_pk : Tree.pk_unique sample_tree.
Proof. unfold Tree.pk_unique. apply (bool_decide_unpack _). by vm_compute. Qed.

Lemma sample_tree_fk : Tree.fk_valid sample_tree.
Proof. by apply fk_validb_sound. Qed.

Lemma sample_tree_acyclic : Tree.acyclic sample_tree.
Proof. by apply acyclicb_sound. Qed.

Lemma looped_on_cycle : Tree.on_cycle looped loop_a.
Proof. split; [left|]. by exists 1%nat. Qed.

(** C1 (as the code has it): on a category that lies on a cycle of the
    parent relation, [full_path] and [get_descendants] have no cycle guard.
    Whatever recursion budget they are given, the recursion exhausts it
    without returning a value and without raising any error of its own. *)
Theorem cycle_exhausts_every_budget (tbl : Category.table) (c : Category.t) :
  Tree.on_cycle tbl c ->
  forall fuel,
    Category.full_path fuel tbl c = OutOfFuel /\
    Category.get_descendants fuel tbl c = OutOfFuel.
Proof.
  intros Hcyc fuel. split.
  - by apply full_path_cycle.
  - by apply get_descendants_cycle.
Qed.

Lemma cycle_exhausts_every_budget_witness :
  Tree.on_cycle looped loop_a /\
  Category.full_path 1000 looped loop_a = OutOfFuel /\
  Category.get_descendants 1000 looped loop_a = OutOfFuel.
Proof.
  split; [exact looped_on_cycle|].
  exact (cycle_exhausts_every_budget looped loop_a looped_on_cycle 1000).
Defined.

(** C1 (as stated) fails: on the two-category cycle neither method ever
    ends in a raised error, at any recursion budget. *)
Lemma cycle_error_never_raised :
  Tree.on_cycle looped loop_a /\
  (forall fuel, ~ raises (Category.full_path fuel looped loop_a)) /\
  (forall fuel, ~ raises (Category.get_descendants fuel looped loop_a)).
Proof.
  split; [exact looped_on_cycle|]. split; intros fuel [e He].
  - by rewrite (full_path_cycle looped fuel loop_a looped_on_cycle) in He.
  - by rewrite (get_descendants_cycle looped fuel loop_a looped_on_cycle) in He.
Qed.

(** C3: in an acyclic category table, a category with parent [P] has
    [full_path(C) = full_path(P) + " > " + C.name], and a category without
    parent has [full_path(C) = C.name]; both calls return once the budget
    covers the table. *)
Theorem full_path_parent_recurrence
    (tbl : Category.table) (c : Category.t) (fuel : nat) :
  Tree.fk_valid tbl -> Tree.acyclic tbl -> c ∈ tbl ->
  (length tbl <= fuel)%nat ->
  match Category.parent_id c with
  | Some pid =>
      exists P pp,
        Category.get tbl pid = Some P /\
        Category.full_path fuel tbl P = Return pp /\
        Category.full_path fuel tbl c =
          Return (pp +:+ " > " +:+ Category.name c)
  | None => Category.full_path fuel tbl c = Return (Category.name c)
  end.
Proof.
  intros Hfk Hac Hc Hle.
  pose proof (ancestor_bound tbl c Hac Hc) as Hb.
  destruct fuel as [|fuel].
  { destruct tbl; [by apply elem_of_nil in Hc|simpl in Hle; lia]. }
  rewrite full_path_S.
  destruct (Category.parent_id c) as [pid|] eqn:Hpid; [|done].
  destruct (Hfk c pid Hc Hpid) as [P HP]. rewrite HP.
  destruct (length tbl) as [|n] eqn:Hn; [done|].
  simpl in Hb. rewrite parent_of_eq, Hpid, HP in Hb. simpl in Hb.
  destruct (full_path_returns tbl n fuel P) as [pp Hpp];
    [done|by apply get_Some in HP as [? _]|done|lia|].
  exists P, pp. split; [done|]. split.
  - apply (full_path_mono tbl fuel); [lia|done].
  - by rewrite Hpp.
Qed.

Lemma full_path_parent_recurrence_witness :
  exists P pp,
    Category.get sample_tree 1 = Some P /\
    Category.full_path 3 sample_tree P = Return pp /\
    Category.full_path 3 sample_tree computers =
      Return (pp +:+ " > " +:+ "Computers").
Proof.
  apply (full_path_parent_recurrence sample_tree computers 3).
  - exact sample_tree_fk.
  - exact sample_tree_acyclic.
  - right; left.
  - simpl. lia.
Defined.

(** C4: in an acyclic category table, [get_descendants(C)] returns exactly
    the categories transitively reachable from [C] along the
    parent→children edge: [C] itself is not among them, no category is
    listed twice, and the list is empty when [C] has no children. *)
Theorem get_descendants_exact
    (tbl : Category.table) (c : Category.t) (fuel : nat) :
  Tree.pk_unique tbl -> Tree.acyclic tbl -> c ∈ tbl ->
  (length tbl < fuel)%nat ->
  exists L,
    Category.get_descendants fuel tbl c = Return L /\
    (forall d, d ∈ L <-> Tree.reachable tbl c d) /\
    (c ∉ L) /\
    NoDup L /\
    (Category.children tbl c = [] -> L = []).
Proof.
  intros Hpk Hac Hc Hlt.
  destruct (get_descendants_returns tbl Hpk Hac fuel c Hc Hlt) as [L HL].
  pose proof (get_descendants_reachable tbl fuel c L HL) as Hreach.
  exists L. split; [done|]. split; [done|]. split; [|split].
  - intros Hin. apply (not_reachable_self tbl Hpk Hac c Hc). by apply Hreach.
  - by apply (get_descendants_NoDup tbl Hpk Hac fuel c).
  - intros Hnil. destruct fuel as [|fuel]; [lia|].
    apply get_descendants_inv in HL as [_ ->]. by rewrite Hnil.
Qed.

Lemma get_descendants_exact_witness :
  exists L,
    Category.get_descendants 4 sample_tree electronics = Return L /\
    (forall d, d ∈ L <-> Tree.reachable sample_tree electronics d) /\
    (electronics ∉ L) /\
    NoDup L /\
    (Category.children sample_tree electronics = [] -> L = []).
Proof.
  apply (get_descendants_exact sample_tree electronics 4).
  - exact sample_tree_pk.
  - exact sample_tree_acyclic.
  - left.
  - simpl. lia.
Defined.

(** C9: in an acyclic category table, the published products under [C]
    and all of its descendants are at least as many as the published
    products of [C] alone. *)
Theorem product_count_with_descendants_ge
    (db : DB) (c : Category.t) (fuel : nat) :
  Tree.pk_unique (categories db) -> Tree.acyclic (categories db) ->
  c ∈ categories db -> (length (categories db) < fuel)%nat ->
  exists qs,
    Views.products_queryset fuel db c = Return qs /\
    (Views.get_product_count (products db) c <= length qs)%nat.
Proof.
  intros Hpk Hac Hc Hlt.
  destruct (get_descendants_returns _ Hpk Hac fuel c Hc Hlt) as [L HL].
  unfold Views.products_queryset. rewrite HL. simpl. eexists. split; [done|].
  unfold Views.get_product_count. apply filter_length_mono.
  intros p [Hcat Hst]. split; [|done]. rewrite Hcat. left.
Qed.

Lemma product_count_with_descendants_ge_witness :
  exists qs,
    Views.products_queryset 4 sample_db electronics = Return qs /\
    (Views.get_product_count (products sample_db) electronics <= length qs)%nat.
Proof.
  apply (product_count_with_descendants_ge sample_db electronics 4).
  - exact sample_tree_pk.
  - exact sample_tree_acyclic.
  - left.
  - simpl. lia.
Defined.

Example products_under_electronics :
  Views.products_queryset 4 sample_db electronics =
    Return [test_product; laptop_product] /\
  Views.get_product_count (products sample_db) electronics = 1%nat.
Proof. split; by vm_compute. Qed.

(** ** Cache invalidation on product events *)

Section CacheFacts.
Context {V : Type}.
Implicit Types (cache : gmap string V) (keys : list string).

Lemma lookup_cache_delete_many keys cache k :
  Signals.cache_delete_many keys cache !! k =
    if decide (k ∈ keys) then None else cache !! k.
Proof.
  unfold Signals.cache_delete_many. revert cache.
  induction keys as [|k' keys IH]; intros cache; cbn [foldl].
  - destruct (decide (k ∈ [])) as [Hin|]; [|done]. by apply elem_of_nil in Hin.
  - rewrite IH. unfold Signals.cache_delete.
    destruct (decide (k ∈ keys)) as [Hin|Hnin],
             (decide (k ∈ k' :: keys)) as [Hin'|Hnin']; try done.
    + destruct Hnin'. by right.
    + apply elem_of_cons in Hin' as [->|?]; [|done]. apply lookup_delete_eq.
    + apply lookup_delete_ne. intros ->. apply Hnin'. left.
Qed.

Lemma tag_deletes_eq (tags : list Z) cache :
  foldl (fun c tag => Signals.cache_delete ("tag_products_" +:+ pretty tag) c)
        cache tags =
  Signals.cache_delete_many ((fun tag => "tag_products_" +:+ pretty tag) <$> tags) cache.
Proof.
  unfold Signals.cache_delete_many. revert cache.
  induction tags as [|t tags IH]; intros cache; simpl; [done|]. apply IH.
Qed.

Lemma lookup_invalidate_None instance cache k :
  Signals.cache_delete_many (Signals.product_cache_keys instance) cache !! k = None ->
  Signals.invalidate_product_cache instance cache !! k = None.
Proof.
  intros H. unfold Signals.invalidate_product_cache.
  case_bool_decide; [|done].
  rewrite tag_deletes_eq, lookup_cache_delete_many. by case_decide.
Qed.

End CacheFacts.

(** The [post_delete] handler of Product removes exactly the keys
    [category_products_{category_id}], [featured_products] and
    [product_stats]: every other entry of the cache is kept, the entries of
    the product's tags among them. *)
Lemma product_delete_invalidates_exactly {V : Type}
    (instance : Product.t) (cache : gmap string V) (k : string) :
  Signals.cleanup_product_cache instance cache !! k =
    if decide (k ∈ [ "category_products_" +:+ pretty (Product.category_id instance);
                     "featured_products"; "product_stats" ])
    then None else cache !! k.
Proof. apply lookup_cache_delete_many. Qed.

(** C2 at the failing input: the test product carries tag 7 and the cache
    holds [tag_products_7].  Deleting the product removes the three product
    keys but leaves [tag_products_7] in the cache, where saving the same
    product removes it. *)
Theorem product_delete_keeps_tag_key :
  Product.tags test_product = [7] /\
  busy_cache !! "tag_products_7" = Some 5 /\
  Signals.cleanup_product_cache test_product busy_cache !! "tag_products_7"
    = Some 5 /\
  Signals.invalidate_product_cache test_product busy_cache !! "tag_products_7"
    = None /\
  Signals.cleanup_product_cache test_product busy_cache !! "category_products_1"
    = None /\
  Signals.cleanup_product_cache test_product busy_cache !! "featured_products"
    = None /\
  Signals.cleanup_product_cache test_product busy_cache !! "product_stats"
    = None.
Proof. repeat split; by vm_compute. Qed.

(** ** Stock and margin of a product *)

Section StockFacts.
Variable backend : Backend.
Variable tbl : Product.table.

Lemma find_stock_update (self : Product.t) (pk : Z) :
  find (fun r => bool_decide (Product.id r = pk))
       (map (fun r => if bool_decide (Product.id r = Product.id self)
                      then Product.with_stock_quantity r (Product.stock_quantity self)
                      else r) tbl) =
  (fun r => if bool_decide (Product.id r = Product.id self)
            then Product.with_stock_quantity r (Product.stock_quantity self)
            else r) <$> find (fun r => bool_decide (Product.id r = pk)) tbl.
Proof.
  induction tbl as [|r rest IH]; [done|]. simpl.
  assert (Product.id (if bool_decide (Product.id r = Product.id self)
                      then Product.with_stock_quantity r (Product.stock_quantity self)
                      else r) = Product.id r) as -> by (by case_bool_decide).
  by destruct (bool_decide (Product.id r = pk)).
Qed.

Lemma get_stored (pk : Z) :
  pk ∈ Product.id <$> tbl ->
  exists r, Product.get tbl pk = Some r /\ Product.id r = pk.
Proof.
  unfold Product.get. induction tbl as [|r rest IH]; [by intros ?%elem_of_nil|].
  rewrite fmap_cons. simpl. case_bool_decide as Hid; [by eexists|].
  intros [?|Hin]%elem_of_cons; [congruence|]. by apply IH.
Qed.

(** A stored instance whose stock is non-negative and within the range of
    the driver is saved, and the stored row then carries that stock. *)
Lemma save_stock_quantity_ok (self : Product.t) :
  Product.id self ∈ Product.id <$> tbl -> 0 <= Product.stock_quantity self ->
  in_range backend (Product.stock_quantity self) ->
  exists tbl',
    Product.save_stock_quantity backend tbl self = Return tbl' /\
    Product.stock_quantity <$> Product.get tbl' (Product.id self)
      = Some (Product.stock_quantity self).
Proof.
  intros Hin Hpos Hrange. unfold Product.save_stock_quantity.
  rewrite (bool_decide_eq_true_2 (in_range _ _)) by done.
  rewrite (bool_decide_eq_true_2 (_ ∈ _)) by done.
  rewrite bool_decide_eq_false_2 by lia.
  eexists. split; [done|]. unfold Product.get. rewrite find_stock_update.
  destruct (get_stored _ Hin) as (r & Hr & Hid). unfold Product.get in Hr.
  rewrite Hr. simpl. by rewrite bool_decide_eq_true_2.
Qed.

Lemma save_stock_quantity_negative (self : Product.t) :
  Product.id self ∈ Product.id <$> tbl -> Product.stock_quantity self < 0 ->
  in_range backend (Product.stock_quantity self) ->
  Product.save_stock_quantity backend tbl self = Raise IntegrityError.
Proof.
  intros Hin Hneg Hrange. unfold Product.save_stock_quantity.
  rewrite (bool_decide_eq_true_2 (in_range _ _)) by done.
  rewrite (bool_decide_eq_true_2 (_ ∈ _)) by done.
  by rewrite bool_decide_eq_true_2.
Qed.

(** A value the driver does not store fails the statement. *)
Lemma save_stock_quantity_out_of_range (self : Product.t) :
  ~ in_range backend (Product.stock_quantity self) ->
  Product.save_stock_quantity backend tbl self = Raise (out_of_range backend).
Proof.
  intros Hrange. unfold Product.save_stock_quantity.
  by rewrite (bool_decide_eq_false_2 (in_range _ _)) by done.
Qed.

End StockFacts.

(** C5 (as the code has it): on a stored product, when the stock is at
    least [q] and [stock - q] is an integer the database stores,
    [reduce_stock(q)] returns [True] and lowers the stock by exactly [q]
    (the stored row follows); when the stock is below [q] it returns
    [False] and changes nothing; and when the stock is at least [q] but
    [stock - q] is beyond the range of the database, the save raises and
    the stored rows are unchanged. *)
Theorem reduce_stock_spec (backend : Backend)
    (tbl : Product.table) (self : Product.t) (q : Z) :
  Product.id self ∈ Product.id <$> tbl ->
  let '(tbl', self', ret) := Product.reduce_stock backend tbl self q in
  (Product.stock_quantity self >= q ->
   in_range backend (Product.stock_quantity self - q) ->
     ret = Return true /\
     Product.stock_quantity self' = Product.stock_quantity self - q /\
     Product.id self' = Product.id self /\
     Product.stock_quantity <$> Product.get tbl' (Product.id self)
       = Some (Product.stock_quantity self - q)) /\
  (Product.stock_quantity self < q ->
     ret = Return false /\ self' = self /\ tbl' = tbl) /\
  (Product.stock_quantity self >= q ->
   ~ in_range backend (Product.stock_quantity self - q) ->
     ret = Raise (out_of_range backend) /\ tbl' = tbl).
Proof.
  intros Hin. unfold Product.reduce_stock. case_bool_decide as Hge.
  - destruct (decide (in_range backend (Product.stock_quantity self - q)))
      as [Hrange|Hrange].
    + destruct (save_stock_quantity_ok backend tbl
                  (Product.with_stock_quantity self (Product.stock_quantity self - q)))
        as (tbl' & -> & Hrow); [done|simpl; lia|done|].
      split_and!; [done|lia|done].
    + rewrite save_stock_quantity_out_of_range by done.
      split_and!; [done|lia|done].
  - split_and!; [lia|done|lia].
Qed.

Lemma reduce_stock_spec_witness :
  let '(tbl', self', ret) :=
    Product.reduce_stock sqlite3 [test_product] test_product 5 in
  (Product.stock_quantity test_product >= 5 ->
   in_range sqlite3 (Product.stock_quantity test_product - 5) ->
     ret = Return true /\
     Product.stock_quantity self' = Product.stock_quantity test_product - 5 /\
     Product.id self' = Product.id test_product /\
     Product.stock_quantity <$> Product.get tbl' (Product.id test_product)
       = Some (Product.stock_quantity test_product - 5)) /\
  (Product.stock_quantity test_product < 5 ->
     ret = Return false /\ self' = test_product /\ tbl' = [test_product]) /\
  (Product.stock_quantity test_product >= 5 ->
   ~ in_range sqlite3 (Product.stock_quantity test_product - 5) ->
     ret = Raise (out_of_range sqlite3) /\ tbl' = [test_product]).
Proof.
  apply (reduce_stock_spec sqlite3 [test_product] test_product 5). left.
Defined.

(** C5 (as stated) fails: the stock 10 is at least [- 2 ^ 63], yet on
    SQLite [reduce_stock(- 2 ^ 63)] does not return success: the save
    raises [OverflowError] and the stored row keeps its stock of 10. *)
Lemma reduce_stock_beyond_column :
  Product.stock_quantity test_product >= - 2 ^ 63 /\
  Product.reduce_stock sqlite3 [test_product] test_product (- 2 ^ 63) =
    ([test_product],
     Product.with_stock_quantity test_product (10 + 2 ^ 63),
     Raise OverflowError) /\
  Product.stock_quantity <$> Product.get [test_product] (Product.id test_product)
    = Some 10.
Proof. repeat split; by vm_compute. Qed.

(** The scenario of the test suite: stock 10, reduce by 5, then by 10. *)
Example reduce_stock_scenario :
  let p5 := Product.with_stock_quantity test_product 5 in
  Product.reduce_stock sqlite3 [test_product] test_product 5
    = ([p5], p5, Return true) /\
  Product.reduce_stock sqlite3 [p5] p5 10 = ([p5], p5, Return false) /\
  Product.reduce_stock postgresql [test_product] test_product 5
    = ([p5], p5, Return true).
Proof. repeat split; by vm_compute. Qed.

(** C8 at the failing input: a product priced 10.00 whose cost is present
    and equal to 0.00 has no profit margin, where the formula gives 100. *)
Theorem profit_margin_zero_cost :
  Product.cost free_sample = Some (0 # 100) /\
  Product.profit_margin free_sample = Return None /\
  (((Product.price free_sample - (0 # 100)) / Product.price free_sample) * 100
     == 100)%Q.
Proof. repeat split. Qed.

(** For a cost that is present and not zero the margin is the formula. *)
Lemma profit_margin_nonzero_cost (self : Product.t) (c : Q) :
  Product.cost self = Some c -> ~ (c == 0)%Q -> ~ (Product.price self == 0)%Q ->
  Product.profit_margin self =
    Return (Some (((Product.price self - c) / Product.price self) * 100)%Q).
Proof.
  intros Hc Hc0 Hp0. unfold Product.profit_margin, decimal_truthy, decimal_div.
  rewrite Hc.
  destruct (Qeq_bool c 0) eqn:E1; [by apply Qeq_bool_eq in E1|]. simpl.
  destruct (Qeq_bool (Product.price self) 0) eqn:E2; [by apply Qeq_bool_eq in E2|].
  done.
Qed.

Example profit_margin_test_product :
  exists m, Product.profit_margin test_product = Return (Some m) /\
            (m == (499900 # 9999))%Q.
Proof. eexists. split; [reflexivity|]. by vm_compute. Qed.

(** ** Deleting a category *)

(** C7: deleting a category that has at least one product fails with
    [ProtectedError] and leaves the store, hence the products and the
    category, as it was. *)
Theorem delete_category_with_products_protected (db : DB) (c : Category.t) :
  (exists p, p ∈ products db /\ Product.category_id p = Category.id c) ->
  Deletion.delete_category db c = (db, Raise ProtectedError).
Proof.
  intros (p & Hp & Hcat). unfold Deletion.delete_category.
  destruct (Deletion.protected_by _ _) as [|x rest] eqn:E; [|done].
  exfalso. assert (p ∈ Deletion.protected_by (products db)
                          (Deletion.collected (categories db) c)) as Hin.
  { unfold Deletion.protected_by. apply list_elem_of_filter. split; [|done].
    rewrite Hcat. left. }
  rewrite E in Hin. by apply elem_of_nil in Hin.
Qed.

Lemma delete_category_with_products_protected_witness :
  Deletion.delete_category sample_db electronics = (sample_db, Raise ProtectedError).
Proof.
  apply delete_category_with_products_protected.
  exists test_product. split; [left|reflexivity].
Defined.

Example delete_parent_of_owner_protected :
  Deletion.delete_category sample_db computers = (sample_db, Raise ProtectedError).
Proof. by vm_compute. Qed.

Example delete_empty_leaf :
  Deletion.delete_category (mkDB sample_tree [test_product] []) laptops =
    (mkDB [electronics; computers] [test_product] [], Return tt).
Proof. by vm_compute. Qed.

(** ** Reviews: one per product and user *)

Lemma filter_at_most_one {A B} (f : A -> B) (P : A -> Prop)
    `{forall x, Decision (P x)} (b : B) (l : list A) :
  (forall x, P x -> f x = b) -> NoDup (f <$> l) ->
  (length (filter P l) <= 1)%nat.
Proof.
  intros HP. induction l as [|x l IH]; [simpl; lia|].
  rewrite fmap_cons, NoDup_cons, filter_cons. intros [Hx Hnd].
  case_decide as Hm; [|by apply IH]. simpl.
  destruct (filter P l) as [|y rest] eqn:E; [simpl; lia|]. exfalso.
  assert (y ∈ filter P l) as [Hy Hin]%list_elem_of_filter by (rewrite E; left).
  apply Hx. apply list_elem_of_fmap. exists y. split; [|done].
  by rewrite (HP x Hm), (HP y Hy).
Qed.

Section ReviewFacts.

Lemma by_product_user_pair (tbl : Review.table) (p u : Z) :
  Review.by_product_user tbl p u = [] ->
  (p, u) ∉ (fun r => (Review.product_id r, Review.user_id r)) <$> tbl.
Proof.
  unfold Review.by_product_user.
  intros Hnil (r & Hpair & Hr)%list_elem_of_fmap.
  assert (r ∈ filter (fun r => Review.product_id r = p /\ Review.user_id r = u) tbl)
    as Hin by (apply list_elem_of_filter; split; [by injection Hpair|done]).
  rewrite Hnil in Hin. by apply elem_of_nil in Hin.
Qed.

Lemma unique_together_count (tbl : Review.table) (p u : Z) :
  Review.unique_together tbl ->
  (length (Review.by_product_user tbl p u) <= 1)%nat.
Proof.
  unfold Review.unique_together, Review.by_product_user.
  apply filter_at_most_one with (b := (p, u)). by intros r [-> ->].
Qed.

Lemma exists_for_true (tbl : Review.table) (p u : Z) :
  Review.exists_for tbl p u = true <->
  exists r, r ∈ tbl /\ Review.product_id r = p /\ Review.user_id r = u.
Proof.
  unfold Review.exists_for, Review.by_product_user.
  rewrite bool_decide_eq_true. split.
  - intros Hne. destruct (filter _ tbl) as [|r rest] eqn:E; [done|].
    assert (r ∈ filter (fun r => Review.product_id r = p /\ Review.user_id r = u) tbl)
      as [Hm Hin]%list_elem_of_filter by (rewrite E; left).
    by exists r.
  - intros (r & Hr & Hp & Hu) Hnil.
    assert (r ∈ filter (fun r => Review.product_id r = p /\ Review.user_id r = u) tbl)
      as Hin by (by apply list_elem_of_filter).
    rewrite Hnil in Hin. by apply elem_of_nil in Hin.
Qed.

Lemma create_unique_together (tbl : Review.table) (row : Review.t) :
  Review.unique_together tbl ->
  Review.unique_together (fst (Review.create tbl row)).
Proof.
  unfold Review.create. intros Hu.
  destruct (Review.exists_for _ _ _) eqn:E; [done|]. simpl.
  unfold Review.unique_together. rewrite fmap_app. apply NoDup_app.
  split; [done|]. split; [|apply NoDup_singleton].
  intros pair Hin ->%list_elem_of_singleton. simpl in Hin.
  revert Hin. apply by_product_user_pair.
  unfold Review.exists_for in E. apply bool_decide_eq_false in E.
  by destruct (Review.by_product_user _ _ _); [|destruct E].
Qed.

Context {RequestData : Type}.
Variable to_internal_value : RequestData -> option Views.validated_review.

Lemma add_review_unique_together db product user data :
  Review.unique_together (reviews db) ->
  Review.unique_together
    (reviews (fst (Views.add_review to_internal_value db product user data))).
Proof.
  intros Hu. unfold Views.add_review.
  destruct (Review.exists_for _ _ _); [done|].
  destruct (Views.is_valid _ _) as [v|]; [|done].
  match goal with |- context [Review.create ?t ?r] =>
    pose proof (create_unique_together t r Hu) as Hc;
    destruct (Review.create t r) as [tbl' [stored|e|]] end; done.
Qed.

End ReviewFacts.

(** C6: the table never holds two reviews of one product by one user.
    [add_review] keeps that invariant, and when the user has already
    reviewed the product it answers 400 with an error, stores nothing and
    leaves the number of reviews of the pair at 1. *)
Theorem duplicate_review_rejected {RequestData : Type}
    (to_internal_value : RequestData -> option Views.validated_review)
    (db : DB) (product : Product.t) (user : Z) (data : RequestData) :
  Review.unique_together (reviews db) ->
  let '(db', resp) :=
    Views.add_review to_internal_value db product user data in
  Review.unique_together (reviews db') /\
  (length (Review.by_product_user (reviews db') (Product.id product) user) <= 1)%nat /\
  ((exists r, r ∈ reviews db /\ Review.product_id r = Product.id product
              /\ Review.user_id r = user) ->
     db' = db /\
     resp = Return (Views.mkResponse
                      (Views.ErrorMessage "You have already reviewed this product.")
                      Views.HTTP_400_BAD_REQUEST) /\
     length (Review.by_product_user (reviews db') (Product.id product) user) = 1%nat).
Proof.
  intros Hu.
  pose proof (add_review_unique_together to_internal_value db product user data Hu)
    as Hu'.
  destruct (Views.add_review _ _ _ _ _) as [db' resp] eqn:E. simpl in Hu'.
  split; [done|]. split; [by apply unique_together_count|].
  intros Hex. pose proof Hex as Hex'. apply exists_for_true in Hex'.
  unfold Views.add_review in E. rewrite Hex' in E. injection E as <- <-.
  split; [done|]. split; [done|].
  pose proof (unique_together_count (reviews db) (Product.id product) user Hu).
  unfold Review.exists_for in Hex'. apply bool_decide_eq_true in Hex'.
  destruct (Review.by_product_user _ _ _) as [|? [|? ?]]; simpl in *; (done || lia).
Qed.

(** User 42 has reviewed the test product and submits again. *)
Lemma duplicate_review_rejected_witness :
  Review.unique_together (reviews reviewed_db) /\
  Views.add_review (fun v => Some v) reviewed_db test_product 42 sample_submission =
    (reviewed_db,
     Return (Views.mkResponse
               (Views.ErrorMessage "You have already reviewed this product.")
               Views.HTTP_400_BAD_REQUEST)).
Proof.
  assert (Review.unique_together (reviews reviewed_db)) as Hu.
  { apply (bool_decide_unpack _). by vm_compute. }
  split; [exact Hu|].
  pose proof (duplicate_review_rejected (fun v => Some v) reviewed_db
                test_product 42 sample_submission Hu) as H.
  destruct (Views.add_review _ reviewed_db test_product 42 sample_submission)
    as [db' resp].
  destruct H as (_ & _ & H). destruct H as (-> & -> & _); [|reflexivity].
  exists sample_review. split; [left|done].
Defined.

Example first_review_accepted :
  Views.add_review (fun v => Some v) sample_db test_product 42 sample_submission =
    (reviewed_db,
     Return (Views.mkResponse (Views.ReviewData sample_review)
                              Views.HTTP_201_CREATED)).
Proof. by vm_compute. Qed.

(** ** The stock endpoint *)

Section StockEndpoint.
Variable backend : Backend.
Variable tbl : Product.table.
Variable product : Product.t.
Hypothesis Hstored : Product.id product ∈ Product.id <$> tbl.

Lemma store_stock_ok (n : Z) :
  0 <= n -> in_range backend n ->
  Views.stock_after (Views.store_stock backend tbl product n) = n /\
  snd (Views.store_stock backend tbl product n) = Views.stock_response n /\
  Views.stored_stock_after (Views.store_stock backend tbl product n) = Some n.
Proof.
  intros Hn Hrange.
  unfold Views.store_stock, Views.stock_after, Views.stored_stock_after.
  destruct (save_stock_quantity_ok backend tbl
              (Product.with_stock_quantity product n))
    as (tbl' & -> & Hrow); done.
Qed.

Lemma store_stock_negative (n : Z) :
  n < 0 -> in_range backend n ->
  Views.store_stock backend tbl product n =
    (tbl, Product.with_stock_quantity product n, Raise IntegrityError).
Proof.
  intros Hn Hrange. unfold Views.store_stock.
  by rewrite save_stock_quantity_negative.
Qed.

End StockEndpoint.

Lemma store_stock_out_of_range (backend : Backend)
    (tbl : Product.table) (product : Product.t) (n : Z) :
  ~ in_range backend n ->
  Views.store_stock backend tbl product n =
    (tbl, Product.with_stock_quantity product n, Raise (out_of_range backend)).
Proof.
  intros Hrange. unfold Views.store_stock.
  by rewrite save_stock_quantity_out_of_range.
Qed.

(** C10 (as the code has it): on a stored product and for an integer
    quantity [q], [update_stock] with operation ['set'] (also the default)
    assigns [max(0, q)] and with ['subtract'] assigns [max(0, stock - q)]:
    clamped at zero, never negative.  With ['add'] it assigns [stock + q]
    without clamping.  What is assigned is reported in the response and
    stored as long as it is a non-negative integer the database stores; a
    negative sum is refused by the column, and a value beyond the range of
    the database fails the save: in both cases the stored rows are
    unchanged. *)
Theorem update_stock_clamps {PyValue : Type} (py_int : PyValue -> outcome Z)
    (backend : Backend)
    (tbl : Product.table) (product : Product.t) (raw : PyValue) (q : Z) :
  py_int raw = Return q ->
  Product.id product ∈ Product.id <$> tbl ->
  let stock := Product.stock_quantity product in
  let call := Views.update_stock py_int backend tbl product (Some raw) in
  let assigns op n :=
    Views.stock_after (call op) = n /\
    (0 <= n -> in_range backend n ->
       snd (call op) = Views.stock_response n /\
       Views.stored_stock_after (call op) = Some n) /\
    (n < 0 -> in_range backend n ->
       snd (call op) = Raise IntegrityError /\ fst (fst (call op)) = tbl) /\
    (~ in_range backend n ->
       snd (call op) = Raise (out_of_range backend) /\
       fst (fst (call op)) = tbl) in
  (assigns (Some "set") (Z.max 0 q) /\
   call None = call (Some "set") /\
   0 <= Views.stock_after (call (Some "set"))) /\
  (assigns (Some "subtract") (Z.max 0 (stock - q)) /\
   0 <= Views.stock_after (call (Some "subtract"))) /\
  assigns (Some "add") (stock + q).
Proof.
  intros Hq Hin stock call assigns.
  assert (forall op n,
            call op = Views.store_stock backend tbl product n -> assigns op n)
    as Hassigns.
  { intros op n Hop. unfold assigns. rewrite Hop. split_and!.
    - unfold Views.stock_after, Views.store_stock.
      by destruct (Product.save_stock_quantity _ _ _).
    - intros Hn Hrange.
      by destruct (store_stock_ok backend tbl product Hin n Hn Hrange)
        as (_ & ? & ?).
    - intros Hn Hrange. by rewrite store_stock_negative.
    - intros Hrange. by rewrite store_stock_out_of_range. }
  assert (call (Some "set") =
            Views.store_stock backend tbl product (Z.max 0 q)) as Hset.
  { unfold call, Views.update_stock. by rewrite Hq. }
  assert (call (Some "subtract") =
            Views.store_stock backend tbl product (Z.max 0 (stock - q))) as Hsub.
  { unfold call, Views.update_stock. by rewrite Hq. }
  assert (call (Some "add") =
            Views.store_stock backend tbl product (stock + q)) as Hadd.
  { unfold call, Views.update_stock. by rewrite Hq. }
  split_and!.
  - by apply Hassigns.
  - unfold call, Views.update_stock. by rewrite Hq.
  - destruct (Hassigns _ _ Hset) as [-> _]. lia.
  - by apply Hassigns.
  - destruct (Hassigns _ _ Hsub) as [-> _]. lia.
  - by apply Hassigns.
Qed.

(** The test product (stock 10) on SQLite: subtracting 15 clamps at 0,
    setting -15 clamps at 0, adding -15 assigns -5. *)
Lemma update_stock_clamps_witness :
  let call := Views.update_stock (fun z : Z => Return z) sqlite3 [test_product]
                                 test_product (Some 15) in
  let call_neg := Views.update_stock (fun z : Z => Return z) sqlite3
                                     [test_product] test_product (Some (-15)) in
  Views.stock_after (call (Some "subtract")) = 0 /\
  Views.stock_after (call_neg (Some "set")) = 0 /\
  Views.stock_after (call_neg (Some "add")) = -5.
Proof.
  assert (Product.id test_product ∈ Product.id <$> [test_product]) as Hin by left.
  pose proof (update_stock_clamps (fun z : Z => Return z) sqlite3 [test_product]
                test_product 15 15 eq_refl Hin) as (_ & ((Hsub & _) & _) & _).
  pose proof (update_stock_clamps (fun z : Z => Return z) sqlite3 [test_product]
                test_product (-15) (-15) eq_refl Hin)
    as (((Hset & _) & _) & _ & (Hadd & _)).
  split; [exact Hsub|]. split; [exact Hset|exact Hadd].
Defined.

(** C10 (as stated) fails: on SQLite, setting the stock of the test
    product to [2 ^ 63] does not result in a stock of [max(0, 2 ^ 63)]:
    the save raises [OverflowError], no response is sent and the stored
    row keeps its stock of 10.  The same holds for ['subtract'] with
    [- 2 ^ 63]. *)
Lemma update_stock_beyond_column :
  let out := Views.update_stock (fun z : Z => Return z) sqlite3 [test_product]
                                test_product (Some (2 ^ 63)) (Some "set") in
  let out' := Views.update_stock (fun z : Z => Return z) sqlite3 [test_product]
                                 test_product (Some (- 2 ^ 63)) (Some "subtract") in
  snd out = Raise OverflowError /\
  Views.stored_stock_after out = Some 10 /\
  Some 10 <> Some (Z.max 0 (2 ^ 63)) /\
  snd out' = Raise OverflowError /\
  Views.stored_stock_after out' = Some 10.
Proof. repeat split; by vm_compute. Qed.

Example update_stock_add_negative :
  Views.update_stock (fun z : Z => Return z) sqlite3 [test_product] test_product
                     (Some (-15)) (Some "add") =
    ([test_product], Product.with_stock_quantity test_product (-5),
     Raise IntegrityError).
Proof. by vm_compute. Qed.

Example update_stock_bad_quantity :
  Views.update_stock (fun _ : string => Raise ValueError) sqlite3 [test_product]
                     test_product (Some "abc") (Some "set") =
    ([test_product], test_product,
     Return (Views.mkResponse
               (Views.ErrorMessage "Quantity must be a valid integer.")
               Views.HTTP_400_BAD_REQUEST)).
Proof. reflexivity. Qed.

(** * Further properties of the catalog *)

(** ** Paths *)

Lemma string_append_assoc (s1 s2 s3 : string) :
  (s1 +:+ s2) +:+ s3 = s1 +:+ s2 +:+ s3.
Proof.
  induction s1 as [|a s1 IH]; [done|].
  change (String a ((s1 +:+ s2) +:+ s3) = String a (s1 +:+ s2 +:+ s3)).
  by rewrite IH.
Qed.

Lemma concat_snoc (sep : string) (l : list string) (x : string) :
  l <> [] -> String.concat sep (l ++ [x]) = String.concat sep l +:+ sep +:+ x.
Proof.
  induction l as [|y l IH]; [done|]. intros _.
  destruct l as [|z l].
  - reflexivity.
  - change ((y :: z :: l) ++ [x]) with (y :: ((z :: l) ++ [x])).
    change (String.concat sep (y :: (z :: l) ++ [x]))
      with (y +:+ sep +:+ String.concat sep ((z :: l) ++ [x])).
    rewrite IH by done.
    change (String.concat sep (y :: z :: l))
      with (y +:+ sep +:+ String.concat sep (z :: l)).
    by rewrite !string_append_assoc.
Qed.

Lemma chain_nonempty n tbl c : Tree.chain n tbl c <> [].
Proof. by destruct n. Qed.

Lemma full_path_chain (tbl : Category.table) n fuel c :
  Tree.fk_valid tbl -> c ∈ tbl -> Tree.ancestor n tbl c = None -> (n <= fuel)%nat ->
  Category.full_path fuel tbl c =
    Return (String.concat " > " (reverse (Category.name <$> Tree.chain n tbl c))).
Proof.
  intros Hfk. revert fuel c. induction n as [|n IH]; intros fuel c Hc Hn Hle; [done|].
  destruct fuel as [|fuel]; [lia|]. rewrite full_path_S.
  simpl in Hn. simpl. rewrite parent_of_eq in Hn |- *.
  destruct (Category.parent_id c) as [pid|] eqn:Hpid; [|done].
  destruct (Hfk c pid Hc Hpid) as [p Hp]. rewrite Hp in Hn |- *. simpl in Hn.
  rewrite (IH fuel p); [|by apply get_Some in Hp as [? _]|done|lia]. simpl.
  rewrite reverse_cons, concat_snoc; [done|].
  intros Hnil%(f_equal reverse). rewrite reverse_involutive in Hnil.
  by destruct n.
Qed.

(** X1: in a valid acyclic table, [full_path] is the names on the parent
    chain of the category, root first, joined by [" > "]. *)
Theorem full_path_joins_chain (tbl : Category.table) (c : Category.t) (fuel : nat) :
  Tree.fk_valid tbl -> Tree.acyclic tbl -> c ∈ tbl -> (length tbl <= fuel)%nat ->
  Category.full_path fuel tbl c =
    Return (String.concat " > "
              (reverse (Category.name <$> Tree.chain (length tbl) tbl c))).
Proof.
  intros Hfk Hac Hc Hle. apply full_path_chain; try done.
  by apply ancestor_bound.
Qed.

Lemma full_path_joins_chain_witness :
  Category.full_path 3 sample_tree laptops =
    Return (String.concat " > " ["Electronics"; "Computers"; "Laptops"]).
Proof.
  apply (full_path_joins_chain sample_tree laptops 3).
  - exact sample_tree_fk.
  - exact sample_tree_acyclic.
  - right; right; left.
  - simpl. lia.
Defined.

(** X2: [full_path] raises exactly when a parent key on the chain of the
    category points at no stored row within the recursion budget, and the
    error is then [DoesNotExist]. *)
Theorem full_path_raises_iff_dangling
    (tbl : Category.table) (c : Category.t) (fuel : nat) (e : exn) :
  Category.full_path fuel tbl c = Raise e <->
  e = DoesNotExist /\
  exists k d pid,
    (k < fuel)%nat /\ Tree.ancestor k tbl c = Some d /\
    Category.parent_id d = Some pid /\ Category.get tbl pid = None.
Proof.
  revert c. induction fuel as [|fuel IH]; intros c.
  - split; [done|]. intros (_ & k & ? & ? & ? & _). lia.
  - rewrite full_path_S. split.
    + destruct (Category.parent_id c) as [pid|] eqn:Hpid; [|done].
      destruct (Category.get tbl pid) as [p|] eqn:Hp.
      * destruct (Category.full_path fuel tbl p) as [pp|e'|] eqn:Hfp; try done.
        simpl. intros [= <-]. apply IH in Hfp as (-> & k & d & pid' & Hk & Ha & Hd & Hg).
        split; [done|]. exists (S k), d, pid'. split; [lia|]. split; [|done].
        simpl. rewrite parent_of_eq, Hpid, Hp. done.
      * intros [= <-]. split; [done|]. exists 0%nat, c, pid. split; [lia|]. done.
    + intros (-> & k & d & pid & Hk & Ha & Hd & Hg). destruct k as [|k].
      * injection Ha as <-. by rewrite Hd, Hg.
      * simpl in Ha. rewrite parent_of_eq in Ha.
        destruct (Category.parent_id c) as [pid'|]; [|done].
        destruct (Category.get tbl pid') as [p|]; [|done]. simpl in Ha.
        assert (Category.full_path fuel tbl p = Raise DoesNotExist) as ->; [|done].
        apply IH. split; [done|]. exists k, d, pid. split; [lia|]. done.
Qed.

Example full_path_orphan :
  Category.full_path 5 orphaned orphan_child = Raise DoesNotExist.
Proof. reflexivity. Qed.

(** ** Products along the hierarchy *)

(** X3: in a valid acyclic table, every product listed for a descendant
    category is listed for the category itself. *)
Theorem products_of_descendant_included
    (db : DB) (c d : Category.t) (fuel : nat) :
  Tree.pk_unique (categories db) -> Tree.acyclic (categories db) ->
  c ∈ categories db -> (length (categories db) < fuel)%nat ->
  Tree.reachable (categories db) c d ->
  exists qc qd,
    Views.products_queryset fuel db c = Return qc /\
    Views.products_queryset fuel db d = Return qd /\
    forall p, p ∈ qd -> p ∈ qc.
Proof.
  intros Hpk Hac Hc Hlt Hcd.
  destruct (reachable_ancestor _ Hpk c d Hcd Hc) as [Hd _].
  destruct (get_descendants_returns _ Hpk Hac fuel c Hc Hlt) as [Lc HLc].
  destruct (get_descendants_returns _ Hpk Hac fuel d Hd Hlt) as [Ld HLd].
  unfold Views.products_queryset. rewrite HLc, HLd. simpl.
  eexists _, _. split; [done|]. split; [done|].
  intros p [[Hin Hst] Hp]%list_elem_of_filter. apply list_elem_of_filter.
  split; [|done]. split; [|done]. right. apply list_elem_of_fmap.
  apply elem_of_cons in Hin as [Hin|Hin].
  - exists d. split; [done|]. by apply (get_descendants_reachable _ fuel c Lc HLc).
  - apply list_elem_of_fmap in Hin as (x & Hx & Hin). exists x. split; [done|].
    apply (get_descendants_reachable _ fuel c Lc HLc).
    apply (get_descendants_reachable _ fuel d Ld HLd) in Hin.
    by eapply tc_transitive.
Qed.

Lemma products_of_descendant_included_witness :
  exists qc qd,
    Views.products_queryset 4 sample_db electronics = Return qc /\
    Views.products_queryset 4 sample_db laptops = Return qd /\
    forall p, p ∈ qd -> p ∈ qc.
Proof.
  apply (products_of_descendant_included sample_db electronics laptops 4).
  - exact sample_tree_pk.
  - exact sample_tree_acyclic.
  - left.
  - simpl. lia.
  - apply tc_l with computers.
    + apply children_spec. split; [right; left|done].
    + apply tc_once. apply children_spec. split; [right; right; left|done].
Defined.

(** ** Cache keys *)

Import Keys.

Lemma pretty_N_go_head (x : N) (s : string) :
  (0 < x)%N \/ numeric_head s = true -> numeric_head (pretty_N_go x s) = true.
Proof.
  revert s. induction (N.lt_wf_0 x) as [x _ IH]; intros s Hx.
  assert (x = 0 \/ 0 < x)%N as [->|Hpos] by lia.
  - rewrite pretty_N_go_0. destruct Hx as [?|?]; [lia|done].
  - rewrite pretty_N_go_step by done. apply IH; [by apply N.div_lt|].
    right. unfold pretty_N_char. by repeat case_match.
Qed.

Lemma pretty_Z_head (z : Z) : numeric_head (pretty z) = true.
Proof.
  destruct z as [|p|p]; [done| |done].
  unfold pretty, pretty_Z, pretty, pretty_positive, pretty, pretty_N.
  rewrite decide_False by done. apply pretty_N_go_head. left. lia.
Qed.

Lemma key_inj (prefix : string) (a b : Z) :
  prefix +:+ pretty a = prefix +:+ pretty b -> a = b.
Proof. intros H. apply (inj (String.append _)) in H. by apply (inj pretty) in H. Qed.

Lemma key_not_word (prefix word : string) (z : Z) :
  numeric_head word = false -> prefix +:+ pretty z <> prefix +:+ word.
Proof.
  intros Hw H. apply (inj (String.append _)) in H.
  pose proof (pretty_Z_head z) as Hz. rewrite H in Hz. congruence.
Qed.

Section CacheExact.
Import Keys.
Context {V : Type}.
Implicit Types (cache : gmap string V).

Lemma lookup_invalidate_product instance cache k :
  Signals.invalidate_product_cache instance cache !! k =
    if decide (k ∈ Signals.product_cache_keys instance ++
                   (tag_key <$> Product.tags instance))
    then None else cache !! k.
Proof.
  unfold Signals.invalidate_product_cache. case_bool_decide as Htags.
  - rewrite tag_deletes_eq, !lookup_cache_delete_many.
    change (fun tag => "tag_products_" +:+ pretty tag) with tag_key.
    repeat case_decide; try done; exfalso;
      match goal with
      | H : _ ∉ _ ++ _ |- _ => rewrite elem_of_app in H
      | H : _ ∈ _ ++ _ |- _ => rewrite elem_of_app in H
      end; tauto.
  - rewrite Htags, app_nil_r.
    apply lookup_cache_delete_many.
Qed.

End CacheExact.

(** X4: the [post_save] handler of Product removes exactly the three
    product keys and [tag_products_{id}] of each related tag; every other
    entry of the cache is kept, and a second run changes nothing. *)
Theorem product_save_invalidates_exactly {V : Type}
    (instance : Product.t) (cache : gmap string V) :
  (forall k,
     Signals.invalidate_product_cache instance cache !! k =
       if decide (k ∈ [ Keys.category_products_key (Product.category_id instance);
                        "featured_products"; "product_stats" ] ++
                      (Keys.tag_key <$> Product.tags instance))
       then None else cache !! k) /\
  Signals.invalidate_product_cache instance
    (Signals.invalidate_product_cache instance cache) =
  Signals.invalidate_product_cache instance cache.
Proof.
  split; [apply lookup_invalidate_product|].
  apply map_eq. intros k. rewrite !lookup_invalidate_product.
  by case_decide.
Qed.

(** X5: saving a product keeps the listing of every other category and of
    every tag it does not carry. *)
Theorem product_save_keeps_other_listings {V : Type}
    (instance : Product.t) (cache : gmap string V) (category tag : Z) :
  category <> Product.category_id instance -> tag ∉ Product.tags instance ->
  Signals.invalidate_product_cache instance cache
    !! Keys.category_products_key category
    = cache !! Keys.category_products_key category /\
  Signals.invalidate_product_cache instance cache !! Keys.tag_key tag
    = cache !! Keys.tag_key tag.
Proof.
  intros Hcat Htag. rewrite !lookup_invalidate_product.
  unfold Signals.product_cache_keys. split.
  - rewrite decide_False; [done|]. intros Hin.
    repeat (apply elem_of_cons in Hin as [Hin|Hin]).
    + by apply key_inj in Hin.
    + cbv [Keys.category_products_key String.append] in Hin. discriminate Hin.
    + cbv [Keys.category_products_key String.append] in Hin. discriminate Hin.
    + simpl in Hin. apply list_elem_of_fmap in Hin as (t & Hin & _).
      cbv [Keys.category_products_key Keys.tag_key String.append] in Hin.
      discriminate Hin.
  - rewrite decide_False; [done|]. intros Hin.
    repeat (apply elem_of_cons in Hin as [Hin|Hin]).
    + cbv [Keys.tag_key String.append] in Hin. discriminate Hin.
    + cbv [Keys.tag_key String.append] in Hin. discriminate Hin.
    + cbv [Keys.tag_key String.append] in Hin. discriminate Hin.
    + simpl in Hin. apply list_elem_of_fmap in Hin as (t & Hin & Ht).
      apply key_inj in Hin. by subst.
Qed.

Lemma product_save_keeps_other_listings_witness :
  Signals.invalidate_product_cache test_product busy_cache
    !! Keys.category_products_key 3 = busy_cache !! Keys.category_products_key 3 /\
  Signals.invalidate_product_cache test_product busy_cache !! Keys.tag_key 8
    = busy_cache !! Keys.tag_key 8.
Proof.
  apply (product_save_keeps_other_listings test_product busy_cache 3 8).
  - done.
  - simpl. apply not_elem_of_cons. split; [done|apply not_elem_of_nil].
Defined.

Example product_save_busy_cache :
  Signals.invalidate_product_cache test_product busy_cache !! "tag_products_7" = None /\
  Signals.invalidate_product_cache test_product busy_cache !! "tag_products_8" = Some 6 /\
  Signals.invalidate_product_cache test_product busy_cache !! "category_products_3" = Some 2.
Proof. repeat split; by vm_compute. Qed.

(** X6: for a stored category with valid parent key, the [post_save]
    handler of Category ends normally, having removed exactly
    [category_tree], [root_categories], the category's own entry and its
    parent's; the entry of any other category is kept. *)
Theorem category_save_invalidates_exactly {V : Type}
    (tbl : Category.table) (instance : Category.t) (cache : gmap string V) :
  Tree.fk_valid tbl -> instance ∈ tbl ->
  exists cache',
    MoreSignals.invalidate_category_cache tbl instance cache = (cache', Return tt) /\
    (forall k,
       cache' !! k =
         if decide (k ∈ [ "category_tree"; "root_categories";
                          Keys.category_key (Category.id instance) ] ++
                        (Keys.category_key <$>
                           option_list (Category.parent_id instance)))
         then None else cache !! k) /\
    (forall g, g <> Category.id instance ->
               Category.parent_id instance <> Some g ->
               cache' !! Keys.category_key g = cache !! Keys.category_key g).
Proof.
  intros Hfk Hin. unfold MoreSignals.invalidate_category_cache, Category.parent.
  assert (forall cache' : gmap string V,
    (forall k, cache' !! k =
       if decide (k ∈ [ "category_tree"; "root_categories";
                        Keys.category_key (Category.id instance) ] ++
                      (Keys.category_key <$>
                         option_list (Category.parent_id instance)))
       then None else cache !! k) ->
    forall g, g <> Category.id instance ->
              Category.parent_id instance <> Some g ->
              cache' !! Keys.category_key g = cache !! Keys.category_key g) as Hother.
  { intros cache' Hk g Hg Hpg. rewrite Hk, decide_False; [done|]. intros Hel.
    apply elem_of_app in Hel as [Hel|Hel].
    - repeat (apply elem_of_cons in Hel as [Hel|Hel]).
      + by apply (key_not_word "category_" "tree") in Hel.
      + cbv [Keys.category_key String.append] in Hel. discriminate Hel.
      + by apply key_inj in Hel.
      + by apply elem_of_nil in Hel.
    - apply list_elem_of_fmap in Hel as (pid & Hel & Hpid).
      apply key_inj in Hel. subst pid.
      destruct (Category.parent_id instance); simpl in Hpid;
        [|by apply elem_of_nil in Hpid].
      apply list_elem_of_singleton in Hpid. congruence. }
  destruct (Category.parent_id instance) as [pid|] eqn:Hpid.
  - destruct (Hfk instance pid Hin Hpid) as [p Hp]. rewrite Hp.
    apply get_Some in Hp as [_ Hid]. eexists. split; [done|].
    assert (forall k,
      Signals.cache_delete (String.append "category_" (pretty (Category.id p)))
        (Signals.cache_delete_many
           ["category_tree"; "root_categories";
            String.append "category_" (pretty (Category.id instance))] cache) !! k =
      if decide (k ∈ [ "category_tree"; "root_categories";
                        Keys.category_key (Category.id instance) ] ++
                      (Keys.category_key <$> option_list (Some pid)))
      then None else cache !! k) as Hk.
    { intros k. unfold Signals.cache_delete. rewrite Hid.
      destruct (decide (k = Keys.category_key pid)) as [->|Hne].
      - rewrite lookup_delete_eq, decide_True; [done|].
        apply elem_of_app. right. left.
      - rewrite lookup_delete_ne by done. rewrite lookup_cache_delete_many.
        repeat case_decide; try done; exfalso;
          match goal with
          | H : _ ∉ _ ++ _ |- _ => rewrite elem_of_app in H
          | H : _ ∈ _ ++ _ |- _ => rewrite elem_of_app in H
          end; simpl in *; rewrite ?list_elem_of_singleton in *; tauto. }
    split; [done|]. by apply Hother.
  - eexists. split; [done|].
    assert (forall k,
      Signals.cache_delete_many
        ["category_tree"; "root_categories";
         String.append "category_" (pretty (Category.id instance))] cache !! k =
      if decide (k ∈ [ "category_tree"; "root_categories";
                        Keys.category_key (Category.id instance) ] ++
                      (Keys.category_key <$> option_list None))
      then None else cache !! k) as Hk.
    { intros k. by rewrite lookup_cache_delete_many. }
    split; [done|]. by apply Hother.
Qed.

Lemma category_save_invalidates_exactly_witness :
  exists cache',
    MoreSignals.invalidate_category_cache sample_tree laptops busy_cache
      = (cache', Return tt) /\
    cache' !! "category_3" = None /\
    cache' !! "category_2" = None /\
    cache' !! "category_1" = Some 9.
Proof.
  destruct (category_save_invalidates_exactly sample_tree laptops busy_cache)
    as (cache' & Hrun & Hk & Hother).
  - exact sample_tree_fk.
  - right; right; left.
  - exists cache'. split; [exact Hrun|]. split; [|split].
    + rewrite Hk. reflexivity.
    + rewrite Hk. reflexivity.
    + transitivity (busy_cache !! Keys.category_key 1); [|reflexivity].
      exact (Hother 1 ltac:(done) ltac:(done)).
Defined.

(** When the parent key of the saved category points at no stored
    row, the handler raises [DoesNotExist] after it has already removed
    the three fixed entries. *)
Theorem category_save_dangling_parent {V : Type}
    (tbl : Category.table) (instance : Category.t) (cache : gmap string V)
    (pid : Z) :
  Category.parent_id instance = Some pid -> Category.get tbl pid = None ->
  MoreSignals.invalidate_category_cache tbl instance cache =
    (Signals.cache_delete_many
       [ "category_tree"; "root_categories";
         Keys.category_key (Category.id instance) ] cache,
     Raise DoesNotExist) /\
  Signals.cache_delete_many
    [ "category_tree"; "root_categories";
      Keys.category_key (Category.id instance) ] cache !! "category_tree" = None.
Proof.
  intros Hpid Hget. unfold MoreSignals.invalidate_category_cache, Category.parent.
  rewrite Hpid, Hget. split; [done|].
  rewrite lookup_cache_delete_many. rewrite decide_True; [done|left].
Qed.

Lemma category_save_dangling_parent_witness :
  MoreSignals.invalidate_category_cache orphaned orphan_parent busy_cache =
    (Signals.cache_delete_many
       [ "category_tree"; "root_categories"; Keys.category_key 5 ] busy_cache,
     Raise DoesNotExist) /\
  Signals.cache_delete_many
    [ "category_tree"; "root_categories"; Keys.category_key 5 ] busy_cache
    !! "category_tree" = None.
Proof.
  apply (category_save_dangling_parent orphaned orphan_parent busy_cache 9);
    reflexivity.
Defined.

(** X7: the [post_save] and the [post_delete] handler of Review have the
    same effect: they remove exactly [product_rating_{id}] and
    [product_reviews_{id}] of the reviewed product, and keep these entries
    of every other product. *)
Theorem review_handlers_invalidate_exactly {V : Type}
    (instance : Review.t) (created : bool) (cache : gmap string V) :
  MoreSignals.update_product_rating_cache instance created cache =
    MoreSignals.cleanup_review_cache instance cache /\
  (forall k,
     MoreSignals.cleanup_review_cache instance cache !! k =
       if decide (k ∈ [ Keys.product_rating_key (Review.product_id instance);
                        Keys.product_reviews_key (Review.product_id instance) ])
       then None else cache !! k) /\
  (forall p, p <> Review.product_id instance ->
     MoreSignals.cleanup_review_cache instance cache !! Keys.product_rating_key p
       = cache !! Keys.product_rating_key p /\
     MoreSignals.cleanup_review_cache instance cache !! Keys.product_reviews_key p
       = cache !! Keys.product_reviews_key p).
Proof.
  split; [|split].
  - unfold MoreSignals.update_product_rating_cache, MoreSignals.cleanup_review_cache.
    by destruct (created && Review.is_approved instance).
  - intros k. apply lookup_cache_delete_many.
  - intros p Hp. unfold MoreSignals.cleanup_review_cache.
    rewrite !lookup_cache_delete_many. unfold MoreSignals.review_cache_keys.
    split; (rewrite decide_False; [done|]); intros Hin;
      repeat (apply elem_of_cons in Hin as [Hin|Hin]);
      try (by apply key_inj in Hin);
      try (by apply elem_of_nil in Hin);
      cbv [Keys.product_rating_key Keys.product_reviews_key String.append] in Hin;
      discriminate Hin.
Qed.

(** ** More on stock and margin *)

Lemma save_stock_quantity_ids (backend : Backend)
    (tbl tbl' : Product.table) (self : Product.t) :
  Product.save_stock_quantity backend tbl self = Return tbl' ->
  Product.id <$> tbl' = Product.id <$> tbl.
Proof.
  unfold Product.save_stock_quantity.
  repeat case_bool_decide; try done. intros [= <-].
  clear. induction tbl as [|r rest IH]; [done|]. cbn.
  f_equal; [by case_bool_decide|exact IH].
Qed.

Lemma reduce_stock_ok (backend : Backend)
    (tbl : Product.table) (self : Product.t) (q : Z) :
  Product.id self ∈ Product.id <$> tbl -> q <= Product.stock_quantity self ->
  in_range backend (Product.stock_quantity self - q) ->
  exists tbl',
    Product.reduce_stock backend tbl self q =
      (tbl', Product.with_stock_quantity self (Product.stock_quantity self - q),
       Return true) /\
    Product.id <$> tbl' = Product.id <$> tbl /\
    Product.stock_quantity <$> Product.get tbl' (Product.id self)
      = Some (Product.stock_quantity self - q).
Proof.
  intros Hin Hq Hrange. unfold Product.reduce_stock.
  rewrite bool_decide_eq_true_2 by lia.
  destruct (save_stock_quantity_ok backend tbl
              (Product.with_stock_quantity self (Product.stock_quantity self - q)))
    as (tbl' & Hsave & Hrow); [done|simpl; lia|done|].
  rewrite Hsave. exists tbl'. split; [done|]. split; [|done].
  by apply save_stock_quantity_ids in Hsave.
Qed.

Lemma reduce_stock_out_of_range (backend : Backend)
    (tbl : Product.table) (self : Product.t) (q : Z) :
  q <= Product.stock_quantity self ->
  ~ in_range backend (Product.stock_quantity self - q) ->
  Product.reduce_stock backend tbl self q =
    (tbl, Product.with_stock_quantity self (Product.stock_quantity self - q),
     Raise (out_of_range backend)).
Proof.
  intros Hq Hrange. unfold Product.reduce_stock.
  rewrite bool_decide_eq_true_2 by lia.
  by rewrite save_stock_quantity_out_of_range.
Qed.

Lemma reduce_stock_short (backend : Backend)
    (tbl : Product.table) (self : Product.t) (q : Z) :
  Product.stock_quantity self < q ->
  Product.reduce_stock backend tbl self q = (tbl, self, Return false).
Proof.
  intros Hq. unfold Product.reduce_stock. by rewrite bool_decide_eq_false_2 by lia.
Qed.

(** X8: on a stored product [reduce_stock] never fails the sign check of
    the column and never leaves a negative stock.  It either returns, with
    a non-negative stock after a success, or raises the out-of-range error
    of the database because [stock - q] is beyond what the database
    stores, and then the table is unchanged.  The keys of the table are
    kept, and a non-negative stock stays non-negative. *)
Theorem reduce_stock_never_negative (backend : Backend)
    (tbl : Product.table) (self : Product.t) (q : Z) :
  Product.id self ∈ Product.id <$> tbl ->
  let '(tbl', self', ret) := Product.reduce_stock backend tbl self q in
  ((exists ok, ret = Return ok /\
      (ok = true -> 0 <= Product.stock_quantity self')) \/
   (ret = Raise (out_of_range backend) /\ tbl' = tbl /\
    q <= Product.stock_quantity self /\
    ~ in_range backend (Product.stock_quantity self - q))) /\
  (in_range backend (Product.stock_quantity self - q) ->
     exists ok, ret = Return ok) /\
  (0 <= Product.stock_quantity self -> 0 <= Product.stock_quantity self') /\
  Product.id <$> tbl' = Product.id <$> tbl.
Proof.
  intros Hin. destruct (decide (q <= Product.stock_quantity self)) as [Hq|Hq].
  - destruct (decide (in_range backend (Product.stock_quantity self - q)))
      as [Hrange|Hrange].
    + destruct (reduce_stock_ok backend tbl self q Hin Hq Hrange)
        as (tbl' & -> & Hids & _).
      split_and!; [|by exists true|simpl; lia|done].
      left. exists true. split; [done|]. simpl. lia.
    + rewrite reduce_stock_out_of_range by done.
      split_and!; [by right|done|simpl; lia|done].
  - rewrite reduce_stock_short by lia.
    split_and!; [left|..]; try done; by exists false.
Qed.

Lemma reduce_stock_never_negative_witness :
  let '(tbl', self', ret) :=
    Product.reduce_stock sqlite3 [test_product] test_product 4 in
  ((exists ok, ret = Return ok /\
      (ok = true -> 0 <= Product.stock_quantity self')) \/
   (ret = Raise (out_of_range sqlite3) /\ tbl' = [test_product] /\
    4 <= Product.stock_quantity test_product /\
    ~ in_range sqlite3 (Product.stock_quantity test_product - 4))) /\
  (in_range sqlite3 (Product.stock_quantity test_product - 4) ->
     exists ok, ret = Return ok) /\
  (0 <= Product.stock_quantity test_product -> 0 <= Product.stock_quantity self') /\
  Product.id <$> tbl' = Product.id <$> [test_product].
Proof.
  apply (reduce_stock_never_negative sqlite3 [test_product] test_product 4). left.
Defined.

(** X9: two reductions in a row, by [q1] and then by a non-negative [q2],
    that fit the stock and whose results the database stores, leave the
    instance and the stored stock as one reduction by [q1 + q2] does. *)
Theorem reduce_stock_twice (backend : Backend)
    (tbl : Product.table) (self : Product.t) (q1 q2 : Z) :
  Product.id self ∈ Product.id <$> tbl ->
  0 <= q2 -> q1 + q2 <= Product.stock_quantity self ->
  in_range backend (Product.stock_quantity self - q1) ->
  in_range backend (Product.stock_quantity self - (q1 + q2)) ->
  let '(tbl1, self1, ret1) := Product.reduce_stock backend tbl self q1 in
  let '(tbl2, self2, ret2) := Product.reduce_stock backend tbl1 self1 q2 in
  let '(tbl', self', ret') := Product.reduce_stock backend tbl self (q1 + q2) in
  ret1 = Return true /\ ret2 = Return true /\ ret' = Return true /\
  self2 = self' /\
  Product.stock_quantity <$> Product.get tbl2 (Product.id self) =
    Product.stock_quantity <$> Product.get tbl' (Product.id self).
Proof.
  intros Hin Hq2 Hsum Hrange1 Hrange.
  destruct (reduce_stock_ok backend tbl self q1 Hin)
    as (tbl1 & -> & Hids1 & Hrow1); [lia|done|].
  set (self1 := Product.with_stock_quantity self (Product.stock_quantity self - q1)).
  assert (Product.id self1 ∈ Product.id <$> tbl1) as Hin1 by (by rewrite Hids1).
  destruct (reduce_stock_ok backend tbl1 self1 q2 Hin1)
    as (tbl2 & -> & Hids2 & Hrow2); [simpl; lia| |].
  { simpl. by replace (Product.stock_quantity self - q1 - q2)
             with (Product.stock_quantity self - (q1 + q2)) by lia. }
  destruct (reduce_stock_ok backend tbl self (q1 + q2) Hin)
    as (tbl' & -> & Hids' & Hrow'); [lia|done|].
  split_and!; try done.
  - unfold self1, Product.with_stock_quantity. simpl. f_equal. lia.
  - change (Product.id self1) with (Product.id self) in Hrow2.
    rewrite Hrow2, Hrow'. simpl. f_equal. lia.
Qed.

Lemma reduce_stock_twice_witness :
  let '(tbl1, self1, ret1) :=
    Product.reduce_stock sqlite3 [test_product] test_product 4 in
  let '(tbl2, self2, ret2) := Product.reduce_stock sqlite3 tbl1 self1 6 in
  let '(tbl', self', ret') :=
    Product.reduce_stock sqlite3 [test_product] test_product (4 + 6) in
  ret1 = Return true /\ ret2 = Return true /\ ret' = Return true /\
  self2 = self' /\
  Product.stock_quantity <$> Product.get tbl2 (Product.id test_product) =
    Product.stock_quantity <$> Product.get tbl' (Product.id test_product).
Proof.
  apply (reduce_stock_twice sqlite3 [test_product] test_product 4 6).
  - left.
  - lia.
  - simpl. lia.
  - by vm_compute.
  - by vm_compute.
Defined.

(** Beyond the range of SQLite the first of two reductions already
    fails. *)
Example reduce_stock_twice_beyond_column :
  snd (Product.reduce_stock sqlite3 [test_product] test_product (- 2 ^ 63))
    = Raise OverflowError.
Proof. by vm_compute. Qed.

Lemma Qeq_bool_false_iff (x y : Q) : Qeq_bool x y = false <-> ~ (x == y)%Q.
Proof.
  split.
  - intros H Heq. apply Qeq_eq_bool in Heq. congruence.
  - intros H. destruct (Qeq_bool x y) eqn:E; [|done]. by apply Qeq_bool_eq in E.
Qed.

(** X10: a product whose cost lies strictly between zero and its price has
    a profit margin strictly between 0 and 100. *)
Theorem profit_margin_bounds (self : Product.t) (c : Q) :
  Product.cost self = Some c -> (0 < c)%Q -> (c < Product.price self)%Q ->
  exists m, Product.profit_margin self = Return (Some m) /\ (0 < m)%Q /\ (m < 100)%Q.
Proof.
  intros Hc Hpos Hlt.
  assert (0 < Product.price self)%Q as Hp by (by eapply Qlt_trans).
  rewrite (profit_margin_nonzero_cost self c Hc).
  - eexists. split; [done|].
    assert (0 < (Product.price self - c) / Product.price self)%Q as H0.
    { apply Qlt_shift_div_l; [done|]. lra. }
    assert ((Product.price self - c) / Product.price self < 1)%Q as H1.
    { apply Qlt_shift_div_r; [done|]. lra. }
    split; lra.
  - intros H. rewrite H in Hpos. by apply Qlt_irrefl in Hpos.
  - intros H. rewrite H in Hp. by apply Qlt_irrefl in Hp.
Qed.

Lemma profit_margin_bounds_witness :
  exists m, Product.profit_margin test_product = Return (Some m) /\
            (0 < m)%Q /\ (m < 100)%Q.
Proof.
  apply (profit_margin_bounds test_product (5000 # 100)); reflexivity.
Defined.

(** X11: [profit_margin] raises exactly when the price is zero and the
    cost is present and not zero, and the error is then
    [decimal.DivisionByZero]. *)
Theorem profit_margin_raises_iff (self : Product.t) (e : exn) :
  Product.profit_margin self = Raise e <->
  e = DivisionByZero /\ (Product.price self == 0)%Q /\
  exists c, Product.cost self = Some c /\ ~ (c == 0)%Q.
Proof.
  unfold Product.profit_margin, decimal_truthy, decimal_div.
  destruct (Product.cost self) as [c|]; [|split; [done|by intros (_ & _ & ? & ? & _)]].
  destruct (Qeq_bool c 0) eqn:Ec; simpl.
  - split; [done|]. intros (_ & _ & c' & [= <-] & Hc').
    by apply Qeq_bool_eq in Ec.
  - apply Qeq_bool_false_iff in Ec.
    destruct (Qeq_bool (Product.price self) 0) eqn:Ep; simpl.
    + apply Qeq_bool_eq in Ep.
      assert (Qeq_bool (Product.price self - c) 0 = false) as ->.
      { apply Qeq_bool_false_iff. intros H. apply Ec. rewrite Ep in H. lra. }
      split.
      * intros [= <-]. split; [done|]. split; [done|]. by exists c.
      * by intros (-> & _).
    + apply Qeq_bool_false_iff in Ep. split; [done|]. by intros (_ & ? & _).
Qed.

Example profit_margin_zero_price :
  Product.profit_margin zero_priced = Raise DivisionByZero.
Proof. reflexivity. Qed.

(** ** Validation of a product submission *)

(** X12: when [validate] accepts a submission whose effective price is
    positive, the effective cost, if there is one, is below that price. *)
Theorem validate_cost_below_price
    (instance : option Product.t) (a : ProductSerializer.attrs) (p c : Q) :
  ProductSerializer.validate instance a = Some a ->
  ProductSerializer.effective_price instance a = Some p -> (0 < p)%Q ->
  ProductSerializer.effective_cost instance a = Some c -> (c < p)%Q.
Proof.
  unfold ProductSerializer.validate. intros Hv Hp Hpos Hc.
  rewrite Hp, Hc in Hv. unfold decimal_truthy in Hv.
  destruct (Qeq_bool p 0) eqn:Ep.
  { apply Qeq_bool_eq in Ep. rewrite Ep in Hpos. by apply Qlt_irrefl in Hpos. }
  destruct (Qeq_bool c 0) eqn:Ec.
  { apply Qeq_bool_eq in Ec. by rewrite Ec. }
  simpl in Hv. destruct (Qle_bool p c) eqn:Ele; [done|].
  apply Qnot_le_lt. intros Hle. apply Qle_bool_iff in Hle. congruence.
Qed.

Lemma validate_cost_below_price_witness :
  ProductSerializer.effective_cost (Some test_product) cost_7000
    = Some (7000 # 100) /\
  (7000 # 100 < 9999 # 100)%Q.
Proof.
  split; [reflexivity|].
  apply (validate_cost_below_price (Some test_product) cost_7000
           (9999 # 100) (7000 # 100));
    reflexivity.
Defined.

(** The converse edge: a zero price switches the check off. *)
Example validate_zero_price_accepts_any_cost :
  ProductSerializer.validate (Some zero_priced)
    (ProductSerializer.mkAttrs None None None (Some (Some (900 # 100)))
                               None None None None) <> None.
Proof. done. Qed.

(** With [validate_price] and [validate] both accepting a creation,
    the price is positive and above the cost. *)
Theorem validated_creation_price_above_cost
    (a : ProductSerializer.attrs) (p : Q) :
  ProductSerializer.a_price a = Some p ->
  ProductSerializer.validate_price p = Some p ->
  ProductSerializer.validate None a = Some a ->
  (0 < p)%Q /\
  forall c, ProductSerializer.a_cost a = Some (Some c) -> (c < p)%Q.
Proof.
  intros Hp Hvp Hv.
  assert (0 < p)%Q as Hpos.
  { unfold ProductSerializer.validate_price in Hvp.
    destruct (Qle_bool p 0) eqn:E; [done|].
    apply Qnot_le_lt. intros Hle. apply Qle_bool_iff in Hle. congruence. }
  split; [done|]. intros c Hc.
  unfold ProductSerializer.validate, ProductSerializer.effective_cost,
    ProductSerializer.effective_price in Hv.
  rewrite Hp, Hc in Hv. unfold decimal_truthy in Hv.
  destruct (Qeq_bool p 0) eqn:Ep.
  { apply Qeq_bool_eq in Ep. rewrite Ep in Hpos. by apply Qlt_irrefl in Hpos. }
  destruct (Qeq_bool c 0) eqn:Ec.
  { apply Qeq_bool_eq in Ec. by rewrite Ec. }
  simpl in Hv. destruct (Qle_bool p c) eqn:Ele; [done|].
  apply Qnot_le_lt. intros Hle. apply Qle_bool_iff in Hle. congruence.
Qed.

Lemma validated_creation_price_above_cost_witness :
  (0 < 9999 # 100)%Q /\
  forall c,
    ProductSerializer.a_cost
      (ProductSerializer.mkAttrs (Some "New") (Some 1) (Some (9999 # 100))
                                 (Some (Some (5000 # 100))) None (Some "NEW-001")
                                 None None) = Some (Some c) ->
    (c < 9999 # 100)%Q.
Proof.
  apply (validated_creation_price_above_cost
           (ProductSerializer.mkAttrs (Some "New") (Some 1) (Some (9999 # 100))
                                      (Some (Some (5000 # 100))) None (Some "NEW-001")
                                      None None) (9999 # 100));
    reflexivity.
Defined.

Lemma NoDup_fmap_eq {A B} (f : A -> B) (l : list A) (x y : A) :
  NoDup (f <$> l) -> x ∈ l -> y ∈ l -> f x = f y -> x = y.
Proof.
  induction l as [|z l IH]; [by intros _ ?%elem_of_nil|].
  rewrite fmap_cons, NoDup_cons. intros [Hz Hnd] Hx Hy Hf.
  apply elem_of_cons in Hx as [->|Hx]; apply elem_of_cons in Hy as [->|Hy].
  - done.
  - destruct Hz. rewrite Hf. by apply list_elem_of_fmap_2.
  - destruct Hz. rewrite <- Hf. by apply list_elem_of_fmap_2.
  - by apply IH.
Qed.

(** X13: on a table with unique SKUs, an SKU accepted for a creation is
    new to the table, and an update that resubmits the SKU of its own
    stored row is accepted. *)
Theorem validate_sku_keeps_unique
    (prods : Product.table) (r : Product.t) (value : string) :
  NoDup (Product.sku <$> prods) ->
  (ProductSerializer.validate_sku prods None value = Some value ->
     NoDup (value :: (Product.sku <$> prods))) /\
  (r ∈ prods ->
     ProductSerializer.validate_sku prods (Some r) (Product.sku r)
       = Some (Product.sku r)).
Proof.
  intros Hnd. unfold ProductSerializer.validate_sku. split.
  - case_bool_decide as Htaken; [done|]. intros _.
    apply NoDup_cons. split; [|done].
    intros (p & Hsku & Hp)%list_elem_of_fmap.
    by apply (filter_nil_not_elem_of _ _ p Htaken).
  - intros Hr. case_bool_decide as Htaken; [|done]. exfalso.
    destruct (filter _ prods) as [|p rest] eqn:E; [done|].
    assert (p ∈ filter (fun p => Product.sku p = Product.sku r /\
                                 Some (Product.id p) <> (Product.id <$> Some r)) prods)
      as [[Hsku Hid] Hp]%list_elem_of_filter by (rewrite E; left).
    by rewrite (NoDup_fmap_eq Product.sku prods p r Hnd Hp Hr Hsku) in Hid.
Qed.

Lemma validate_sku_keeps_unique_witness :
  (ProductSerializer.validate_sku (products sample_db) None "NEW-001" = Some "NEW-001" ->
     NoDup ("NEW-001" :: (Product.sku <$> products sample_db))) /\
  (test_product ∈ products sample_db ->
     ProductSerializer.validate_sku (products sample_db) (Some test_product)
       (Product.sku test_product) = Some (Product.sku test_product)).
Proof.
  apply (validate_sku_keeps_unique (products sample_db) test_product "NEW-001").
  apply (bool_decide_unpack _). by vm_compute.
Defined.

Example validate_sku_taken :
  ProductSerializer.validate_sku (products sample_db) None "TEST-001" = None /\
  ProductSerializer.validate_sku (products sample_db) (Some laptop_product)
    "TEST-001" = None.
Proof. split; by vm_compute. Qed.

(** ** Stars *)

Lemma str_mul_single (a : N) (n : Z) :
  Stars.str_mul [a] n = replicate (Z.to_nat n) a.
Proof.
  unfold Stars.str_mul. induction (Z.to_nat n) as [|k IH]; [done|].
  simpl. by rewrite IH.
Qed.

(** X14: for a rating from 0 to 5, [star_display] has five stars of which
    the first [rating] are black and the rest white. *)
Theorem star_display_five (self : Review.t) :
  0 <= Review.rating self <= 5 ->
  Stars.star_display self =
    replicate (Z.to_nat (Review.rating self)) Stars.BLACK_STAR ++
    replicate (5 - Z.to_nat (Review.rating self)) Stars.WHITE_STAR /\
  length (Stars.star_display self) = 5%nat.
Proof.
  intros Hr. unfold Stars.star_display. rewrite !str_mul_single.
  replace (Z.to_nat (5 - Review.rating self))
    with (5 - Z.to_nat (Review.rating self))%nat by lia.
  split; [done|]. rewrite length_app, !length_replicate. lia.
Qed.

Lemma star_display_five_witness :
  Stars.star_display three_stars =
    replicate (Z.to_nat (Review.rating three_stars)) Stars.BLACK_STAR ++
    replicate (5 - Z.to_nat (Review.rating three_stars)) Stars.WHITE_STAR /\
  length (Stars.star_display three_stars) = 5%nat.
Proof. apply (star_display_five three_stars). simpl. lia. Defined.

(** X15: outside that range the display is not five stars long: a rating
    above 5 gives that many black stars and no white one. *)
Theorem star_display_above_five (self : Review.t) :
  5 < Review.rating self ->
  Stars.star_display self =
    replicate (Z.to_nat (Review.rating self)) Stars.BLACK_STAR /\
  (5 < length (Stars.star_display self))%nat.
Proof.
  intros Hr. unfold Stars.star_display. rewrite !str_mul_single.
  replace (Z.to_nat (5 - Review.rating self)) with 0%nat by lia.
  simpl. rewrite app_nil_r. split; [done|]. rewrite length_replicate. lia.
Qed.

Lemma star_display_above_five_witness :
  Stars.star_display seven_stars = replicate 7 Stars.BLACK_STAR /\
  (5 < length (Stars.star_display seven_stars))%nat.
Proof. apply (star_display_above_five seven_stars). simpl. lia. Defined.

(** ** The stock endpoint, continued *)

Lemma store_stock_cases (backend : Backend)
    (tbl : Product.table) (product : Product.t) (n : Z) :
  (exists e, Views.store_stock backend tbl product n =
               (tbl, Product.with_stock_quantity product n, Raise e)) \/
  (0 <= n /\ Product.id product ∈ Product.id <$> tbl /\
   snd (Views.store_stock backend tbl product n) = Views.stock_response n /\
   Views.stock_after (Views.store_stock backend tbl product n) = n /\
   Views.stored_stock_after (Views.store_stock backend tbl product n) = Some n /\
   Product.id <$> fst (fst (Views.store_stock backend tbl product n))
     = Product.id <$> tbl).
Proof.
  destruct (decide (in_range backend n)) as [Hrange|Hrange];
    [|left; exists (out_of_range backend); by apply store_stock_out_of_range].
  destruct (decide (Product.id product ∈ Product.id <$> tbl)) as [Hin|Hnin].
  - destruct (decide (0 <= n)) as [Hn|Hn].
    + right. destruct (store_stock_ok backend tbl product Hin n Hn Hrange)
        as (H1 & H2 & H3).
      split_and!; try done. unfold Views.store_stock.
      destruct (Product.save_stock_quantity backend tbl _) as [tbl'| |] eqn:E;
        try done.
      by apply save_stock_quantity_ids in E.
    + left. exists IntegrityError. apply store_stock_negative; [done|lia|done].
  - left. exists DatabaseError. unfold Views.store_stock, Product.save_stock_quantity.
    simpl. rewrite (bool_decide_eq_true_2 (in_range _ _)) by done.
    by rewrite bool_decide_eq_false_2.
Qed.

(** X16: whatever the request, [update_stock] changes the table only when
    it answers 200, and then the reported stock is non-negative and is the
    stock of the stored row; a 400 answer leaves the instance untouched
    too. *)
Theorem update_stock_changes_only_on_success {PyValue : Type}
    (py_int : PyValue -> outcome Z) (backend : Backend)
    (tbl : Product.table) (product : Product.t)
    (quantity : option PyValue) (operation : option string) :
  let out := Views.update_stock py_int backend tbl product quantity operation in
  (fst (fst out) = tbl \/
   exists n, snd out = Views.stock_response n /\ 0 <= n /\
             Views.stored_stock_after out = Some n) /\
  (forall resp, snd out = Return resp ->
     Views.status resp = Views.HTTP_400_BAD_REQUEST ->
     out = (tbl, product, Return resp)).
Proof.
  assert (forall n,
    (fst (fst (Views.store_stock backend tbl product n)) = tbl \/
     exists m, snd (Views.store_stock backend tbl product n)
                 = Views.stock_response m /\
               0 <= m /\
               Views.stored_stock_after (Views.store_stock backend tbl product n)
                 = Some m) /\
    (forall resp, snd (Views.store_stock backend tbl product n) = Return resp ->
       Views.status resp = Views.HTTP_400_BAD_REQUEST ->
       Views.store_stock backend tbl product n = (tbl, product, Return resp)))
    as Hstore.
  { intros n. destruct (store_stock_cases backend tbl product n)
      as [[e ->]|(Hn & _ & Hresp & _ & Hrow & _)].
    - split; [by left|]. by intros resp [=].
    - split; [right; by exists n|]. rewrite Hresp. by intros resp [= <-] [=]. }
  unfold Views.update_stock, Views.bad_request. simpl.
  destruct quantity as [raw|]; [|split; [by left|by intros resp [= <-]]].
  destruct (py_int raw) as [q|e|]; [|destruct e|];
    try (split; [by left|]; intros resp; by intros [= <-]).
  repeat case_bool_decide; try apply Hstore.
  split; [by left|]. by intros resp [= <-].
Qed.

(** X17: on a stored product with non-negative stock, adding [q] and then
    subtracting [q] restores the stock, provided the sum is not negative
    and both the stock and the sum are integers the database stores. *)
Theorem update_stock_add_then_subtract {PyValue : Type}
    (py_int : PyValue -> outcome Z) (backend : Backend)
    (tbl : Product.table) (product : Product.t)
    (raw : PyValue) (q : Z) :
  py_int raw = Return q ->
  Product.id product ∈ Product.id <$> tbl ->
  0 <= Product.stock_quantity product -> 0 <= Product.stock_quantity product + q ->
  in_range backend (Product.stock_quantity product) ->
  in_range backend (Product.stock_quantity product + q) ->
  let out1 := Views.update_stock py_int backend tbl product
                                 (Some raw) (Some "add") in
  let out2 := Views.update_stock py_int backend (fst (fst out1)) (snd (fst out1))
                                 (Some raw) (Some "subtract") in
  snd out2 = Views.stock_response (Product.stock_quantity product) /\
  Views.stock_after out2 = Product.stock_quantity product /\
  Views.stored_stock_after out2 = Some (Product.stock_quantity product).
Proof.
  intros Hq Hin Hstock Hsum Hrange Hrange'.
  simpl. unfold Views.update_stock. rewrite Hq. simpl.
  destruct (save_stock_quantity_ok backend tbl
    (Product.with_stock_quantity product (Product.stock_quantity product + q)))
    as (tbl1 & Hs1 & _); [done|simpl; lia|done|].
  assert (Views.store_stock backend tbl product (Product.stock_quantity product + q) =
            (tbl1,
             Product.with_stock_quantity product (Product.stock_quantity product + q),
             Views.stock_response (Product.stock_quantity product + q))) as ->.
  { unfold Views.store_stock. by rewrite Hs1. }
  simpl.
  replace (Product.stock_quantity product + q - q)
    with (Product.stock_quantity product) by lia.
  rewrite Z.max_r by done.
  apply save_stock_quantity_ids in Hs1.
  destruct (store_stock_ok backend tbl1
              (Product.with_stock_quantity product (Product.stock_quantity product + q))
              ltac:(by rewrite Hs1) (Product.stock_quantity product) Hstock Hrange)
    as (? & ? & ?).
  done.
Qed.

Lemma update_stock_add_then_subtract_witness :
  let out1 := Views.update_stock (fun z : Z => Return z) sqlite3 [test_product]
                                 test_product (Some 5) (Some "add") in
  let out2 := Views.update_stock (fun z : Z => Return z) sqlite3 (fst (fst out1))
                                 (snd (fst out1)) (Some 5) (Some "subtract") in
  snd out2 = Views.stock_response (Product.stock_quantity test_product) /\
  Views.stock_after out2 = Product.stock_quantity test_product /\
  Views.stored_stock_after out2 = Some (Product.stock_quantity test_product).
Proof.
  apply (update_stock_add_then_subtract (fun z : Z => Return z) sqlite3
           [test_product] test_product 5 5 eq_refl).
  - left.
  - simpl. lia.
  - simpl. lia.
  - by vm_compute.
  - by vm_compute.
Defined.

(** The other order does not restore it: subtracting clamps. *)
Example update_stock_subtract_then_add :
  let out1 := Views.update_stock (fun z : Z => Return z) sqlite3 [test_product]
                                 test_product (Some 15) (Some "subtract") in
  let out2 := Views.update_stock (fun z : Z => Return z) sqlite3 (fst (fst out1))
                                 (snd (fst out1)) (Some 15) (Some "add") in
  Views.stock_after out2 = 15.
Proof. by vm_compute. Qed.

(** Beyond the range of SQLite the addition already fails and the stored
    row keeps its stock. *)
Example update_stock_add_beyond_column :
  let out := Views.update_stock (fun z : Z => Return z) sqlite3 [test_product]
                                test_product (Some (2 ^ 63)) (Some "add") in
  snd out = Raise OverflowError /\ Views.stored_stock_after out = Some 10.
Proof. split; by vm_compute. Qed.

(** ** Listings and their gates *)

Lemma filter_filter_implied {A} (P Q : A -> Prop)
    `{forall x, Decision (P x)} `{forall x, Decision (Q x)} (l : list A) :
  (forall x, P x -> Q x) -> filter P (filter Q l) = filter P l.
Proof.
  intros HPQ. induction l as [|x l IH]; [done|].
  rewrite (filter_cons Q), (filter_cons P).
  destruct (decide (Q x)) as [HQ|HQ].
  - rewrite filter_cons. destruct (decide (P x)); by rewrite IH.
  - destruct (decide (P x)) as [HP|HP]; [by destruct HQ; auto|done].
Qed.

Lemma filter_sublist_implied {A} (P Q : A -> Prop)
    `{forall x, Decision (P x)} `{forall x, Decision (Q x)} (l : list A) :
  (forall x, P x -> Q x) -> filter P l `sublist_of` filter Q l.
Proof.
  intros HPQ. induction l as [|x l IH]; [done|].
  rewrite !filter_cons.
  destruct (decide (P x)) as [HP|HP], (decide (Q x)) as [HQ|HQ].
  - by apply sublist_skip.
  - by destruct HQ; auto.
  - by apply sublist_cons.
  - done.
Qed.

(** X18: the featured listing is the same for every requester, staff or
    not, and holds only published featured products. *)
Theorem featured_same_for_all
    (user : Users.requester) (prods : Product.table) :
  Catalog.featured user prods = Catalog.featured None prods /\
  forall p, p ∈ Catalog.featured user prods ->
    p ∈ prods /\ Product.status p = Product.PUBLISHED /\
    Product.is_featured p = true.
Proof.
  assert (Catalog.featured user prods =
            filter (fun p => Product.is_featured p = true /\
                             Product.status p = Product.PUBLISHED) prods) as Huser.
  { unfold Catalog.featured, Catalog.get_queryset.
    destruct (Catalog.staff user); [done|].
    apply filter_filter_implied. by intros p [_ ?]. }
  split.
  - rewrite Huser. unfold Catalog.featured, Catalog.get_queryset. simpl.
    symmetry. apply filter_filter_implied. by intros p [_ ?].
  - rewrite Huser. intros p [[? ?] ?]%list_elem_of_filter. done.
Qed.

(** For staff, [low_stock] grows with the threshold: what is listed
    for a threshold is listed, in the same order, for every larger one. *)
Theorem low_stock_monotone {PyValue : Type} (py_int : PyValue -> outcome Z)
    (user : Users.requester) (prods : Product.table)
    (raw1 raw2 : PyValue) (t1 t2 : Z) :
  Catalog.staff user = true ->
  py_int raw1 = Return t1 -> py_int raw2 = Return t2 -> t1 <= t2 ->
  exists l1 l2,
    Catalog.low_stock py_int user prods (Some raw1) = Return (inr l1) /\
    Catalog.low_stock py_int user prods (Some raw2) = Return (inr l2) /\
    l1 `sublist_of` l2.
Proof.
  intros Hstaff H1 H2 Hle. unfold Catalog.low_stock.
  rewrite Hstaff, H1, H2. simpl. eexists _, _. split; [done|]. split; [done|].
  apply filter_sublist_implied. intros p. lia.
Qed.

Lemma low_stock_monotone_witness :
  exists l1 l2,
    Catalog.low_stock (fun z : Z => Return z) (Some staff_user) catalog (Some 3)
      = Return (inr l1) /\
    Catalog.low_stock (fun z : Z => Return z) (Some staff_user) catalog (Some 10)
      = Return (inr l2) /\
    l1 `sublist_of` l2.
Proof.
  apply (low_stock_monotone (fun z : Z => Return z) (Some staff_user) catalog
           3 10 3 10); (reflexivity || lia).
Defined.

Lemma status_partition {A} (f : A -> Product.Status) (l : list A) :
  (length (filter (fun x => f x = Product.PUBLISHED) l) +
   length (filter (fun x => f x = Product.DRAFT) l) +
   length (filter (fun x => f x = Product.ARCHIVED) l) = length l)%nat.
Proof.
  induction l as [|x l IH]; [done|]. rewrite !filter_cons.
  destruct (f x); repeat (case_decide; try done); simpl; lia.
Qed.

Lemma count_status_total (prods : Product.table) :
  (Catalog.count_status Product.PUBLISHED prods +
   Catalog.count_status Product.DRAFT prods +
   Catalog.count_status Product.ARCHIVED prods = length prods)%nat.
Proof. apply (status_partition Product.status). Qed.

(** X19: in the statistics the published, draft and archived counts add up
    to the total, and out-of-stock <= low-stock <= total and
    featured <= total. *)
Theorem statistics_counts_consistent (all_products : Product.table) :
  let s := Catalog.statistics_counts all_products in
  (Catalog.published_products s + Catalog.draft_products s +
   Catalog.archived_products s = Catalog.total_products s)%nat /\
  (Catalog.out_of_stock_products s <= Catalog.low_stock_products s)%nat /\
  (Catalog.low_stock_products s <= Catalog.total_products s)%nat /\
  (Catalog.featured_products s <= Catalog.total_products s)%nat.
Proof.
  simpl. split_and!.
  - apply count_status_total.
  - apply filter_length_mono. intros p. lia.
  - apply length_filter.
  - apply length_filter.
Qed.

(** X20: a manager or admin by role who lacks the staff flag passes the
    write gate of the catalogue and the gate of the statistics, yet
    [low_stock] answers 403 and the product queryset shows only published
    products. *)
Theorem role_without_staff_flag {PyValue : Type} (py_int : PyValue -> outcome Z)
    (u : Users.User) (m : Users.Method) (prods : Product.table)
    (threshold : option PyValue) :
  Users.is_staff u = false -> Users.role u <> Users.USER ->
  Users.IsAdminOrManagerOrReadOnly (Some u) m = true /\
  Users.IsManagerOrAdmin (Some u) = true /\
  Catalog.statistics_allowed (Some u) = true /\
  Catalog.low_stock py_int (Some u) prods threshold
    = Return (inl Catalog.permission_denied) /\
  forall p, p ∈ Catalog.get_queryset (Some u) prods ->
    Product.status p = Product.PUBLISHED.
Proof.
  intros Hstaff Hrole.
  assert (Users.is_staff u || Users.is_admin u || Users.is_manager u = true) as Hany.
  { unfold Users.is_admin, Users.is_manager. rewrite Hstaff.
    destruct (Users.role u); done. }
  unfold Users.IsAdminOrManagerOrReadOnly, Users.IsManagerOrAdmin,
    Catalog.statistics_allowed, Catalog.low_stock, Catalog.get_queryset,
    Catalog.staff.
  rewrite Hany, Hstaff. simpl. split_and!; try done.
  - by destruct (Users.safe m).
  - by intros p [? _]%list_elem_of_filter.
Qed.

Lemma role_without_staff_flag_witness :
  Users.IsAdminOrManagerOrReadOnly (Some manager_user) Users.POST = true /\
  Users.IsManagerOrAdmin (Some manager_user) = true /\
  Catalog.statistics_allowed (Some manager_user) = true /\
  Catalog.low_stock (fun z : Z => Return z) (Some manager_user) catalog None
    = Return (inl Catalog.permission_denied) /\
  forall p, p ∈ Catalog.get_queryset (Some manager_user) catalog ->
    Product.status p = Product.PUBLISHED.
Proof.
  apply (role_without_staff_flag (fun z : Z => Return z) manager_user Users.POST
           catalog None); done.
Defined.

(** ** Adding a review *)

Lemma next_id_fresh (tbl : Review.table) (r : Review.t) :
  r ∈ tbl -> Review.id r < Review.next_id tbl.
Proof.
  unfold Review.next_id. induction tbl as [|x l IH]; [by intros ?%elem_of_nil|].
  intros [->|Hr]%elem_of_cons; simpl; [lia|]. apply IH in Hr. lia.
Qed.

Lemma validate_rating_range (value v : Z) :
  Views.validate_rating value = Some v -> v = value /\ 1 <= value <= 5.
Proof. unfold Views.validate_rating. case_bool_decide; [|done]. by intros [= <-]. Qed.

(** X21: [add_review] never raises.  It always answers, and it either
    leaves the store as it was or answers 201 after appending one review:
    for the product of the URL (not the one named in the body) and the
    requesting user, rated from 1 to 5, unverified, without votes, under
    a key no stored review has. *)
Theorem add_review_outcome {RequestData : Type}
    (to_internal_value : RequestData -> option Views.validated_review)
    (db : DB) (product : Product.t) (user : Z) (data : RequestData) :
  let '(db', r) := Views.add_review to_internal_value db product user data in
  (exists resp, r = Return resp) /\
  (db' = db \/
   exists stored,
     r = Return (Views.mkResponse (Views.ReviewData stored) Views.HTTP_201_CREATED) /\
     db' = with_reviews db (reviews db ++ [stored]) /\
     Review.product_id stored = Product.id product /\
     Review.user_id stored = user /\
     1 <= Review.rating stored <= 5 /\
     Review.is_verified_purchase stored = false /\
     Review.helpful_votes stored = 0 /\
     (forall x, x ∈ reviews db -> Review.id x <> Review.id stored)).
Proof.
  unfold Views.add_review.
  destruct (Review.exists_for _ _ _) eqn:Hex; [split; [by eexists|by left]|].
  destruct (Views.is_valid _ _) as [v|] eqn:Hv; [|split; [by eexists|by left]].
  unfold Review.create. simpl. rewrite Hex. split; [by eexists|]. right.
  eexists. split; [done|]. split; [done|]. simpl.
  unfold Views.is_valid in Hv.
  destruct (to_internal_value data) as [v0|]; [|done]. simpl in Hv.
  destruct (Views.validate_rating (Views.v_rating v0)) as [x|] eqn:Hr; [|done].
  simpl in Hv. injection Hv as <-. apply validate_rating_range in Hr as [_ Hr].
  split_and!; try done; try lia.
  intros y Hy. apply next_id_fresh in Hy. lia.
Qed.

Lemma filter_snoc {A} (P : A -> Prop) `{forall x, Decision (P x)}
    (l : list A) (x : A) :
  filter P (l ++ [x]) = filter P l ++ (if decide (P x) then [x] else []).
Proof. rewrite filter_app. by f_equal. Qed.

(** X22: when [add_review] answers 201, an approved new review is the
    first entry of the product's review listing and of its recent reviews
    and raises the review count by one; a review stored unapproved leaves
    all three as they were. *)
Theorem added_review_is_listed_first {RequestData : Type}
    (to_internal_value : RequestData -> option Views.validated_review)
    (db db' : DB) (product : Product.t) (user : Z) (data : RequestData)
    (stored : Review.t) :
  Views.add_review to_internal_value db product user data =
    (db', Return (Views.mkResponse (Views.ReviewData stored)
                                   Views.HTTP_201_CREATED)) ->
  if Review.is_approved stored then
    Reviews.reviews_action (reviews db') product =
      stored :: Reviews.reviews_action (reviews db) product /\
    Reviews.get_review_count (reviews db') product =
      S (Reviews.get_review_count (reviews db) product) /\
    head (Reviews.get_recent_reviews (reviews db') product) = Some stored
  else
    Reviews.reviews_action (reviews db') product =
      Reviews.reviews_action (reviews db) product /\
    Reviews.get_review_count (reviews db') product =
      Reviews.get_review_count (reviews db) product /\
    Reviews.get_recent_reviews (reviews db') product =
      Reviews.get_recent_reviews (reviews db) product.
Proof.
  intros Hadd. unfold Views.add_review in Hadd.
  destruct (Review.exists_for _ _ _) eqn:Hex; [done|].
  destruct (Views.is_valid _ _) as [v|]; [|done].
  unfold Review.create in Hadd. simpl in Hadd. rewrite Hex in Hadd.
  injection Hadd as <- <-. simpl.
  unfold Reviews.reviews_action, Reviews.get_review_count,
    Reviews.get_recent_reviews, Reviews.approved.
  rewrite (filter_snoc (fun r => Review.product_id r = Product.id product /\
                                 Review.is_approved r = true)).
  simpl. destruct (default true (Views.v_is_approved v)) eqn:Happ.
  - rewrite decide_True by done. rewrite reverse_app, length_app. simpl.
    split_and!; [done|apply Nat.add_1_r|done].
  - rewrite decide_False by (intros [_ ?]; done). by rewrite app_nil_r.
Qed.

Lemma added_review_is_listed_first_witness :
  Reviews.reviews_action (reviews reviewed_db) test_product =
    sample_review :: Reviews.reviews_action (reviews sample_db) test_product /\
  Reviews.get_review_count (reviews reviewed_db) test_product =
    S (Reviews.get_review_count (reviews sample_db) test_product) /\
  head (Reviews.get_recent_reviews (reviews reviewed_db) test_product)
    = Some sample_review.
Proof.
  apply (added_review_is_listed_first (fun v => Some v) sample_db reviewed_db
           test_product 42 sample_submission sample_review).
  reflexivity.
Defined.

(** ** Moderation *)

Section ModerationFacts.
Variable tbl : Review.table.
Hypothesis Hpk : NoDup (Review.id <$> tbl).

Lemma find_by_key (l : list Review.t) (r : Review.t) :
  NoDup (Review.id <$> l) -> r ∈ l ->
  find (fun x => bool_decide (Review.id x = Review.id r)) l = Some r.
Proof.
  induction l as [|x l IH]; [by intros _ ?%elem_of_nil|].
  rewrite fmap_cons, NoDup_cons. intros [Hx Hnd] Hr. simpl.
  case_bool_decide as Hid.
  - apply elem_of_cons in Hr as [->|Hr]; [done|].
    destruct Hx. rewrite Hid. by apply list_elem_of_fmap_2.
  - apply elem_of_cons in Hr as [->|Hr]; [done|]. by apply IH.
Qed.

Lemma find_by_key_None (l : list Review.t) (pk : Z) :
  pk ∉ Review.id <$> l ->
  find (fun x => bool_decide (Review.id x = pk)) l = None.
Proof.
  induction l as [|x l IH]; [done|]. rewrite fmap_cons, not_elem_of_cons.
  intros [Hne Hl]. simpl. rewrite bool_decide_eq_false_2 by done. by apply IH.
Qed.

Lemma queryset_NoDup (u : Users.User) (l : list Review.t) :
  NoDup (Review.id <$> l) -> NoDup (Review.id <$> Reviews.get_queryset u l).
Proof.
  intros Hnd. unfold Reviews.get_queryset. destruct (Users.is_staff u); [done|].
  eapply sublist_NoDup; [exact Hnd|]. apply fmap_sublist, sublist_filter.
Qed.

(** Who gets a stored review from [get_object]. *)
Lemma get_object_visible (u : Users.User) (l : list Review.t) (r : Review.t) :
  NoDup (Review.id <$> l) -> r ∈ l ->
  Reviews.get_object u l (Review.id r) =
    if Users.is_staff u || Review.is_approved r ||
       bool_decide (Review.user_id r = Users.id u)
    then Some r else None.
Proof.
  intros Hnd Hr. unfold Reviews.get_object.
  pose proof (queryset_NoDup u l Hnd) as Hq.
  unfold Reviews.get_queryset in *. destruct (Users.is_staff u); simpl.
  { by apply find_by_key. }
  destruct (Review.is_approved r) eqn:Happ; simpl.
  { apply find_by_key; [done|]. apply list_elem_of_filter. auto. }
  case_bool_decide as Hown.
  { apply find_by_key; [done|]. apply list_elem_of_filter. auto. }
  apply find_by_key_None.
  intros (x & Hid & [Hx Hin]%list_elem_of_filter)%list_elem_of_fmap.
  assert (x = r) as -> by (by apply (NoDup_fmap_eq Review.id l)).
  destruct Hx; congruence.
Qed.

Lemma save_row_ids (write : Review.t -> Review.t) (self : Review.t) :
  (forall r, Review.id (write r) = Review.id r) ->
  Review.id <$> Reviews.save_row write tbl self = Review.id <$> tbl.
Proof.
  intros Hw. unfold Reviews.save_row. induction tbl as [|x l IH]; [done|].
  cbn. f_equal; [by case_bool_decide|]. apply IH.
  rewrite fmap_cons in Hpk. by apply NoDup_cons in Hpk as [_ ?].
Qed.

Lemma save_row_elem (write : Review.t -> Review.t) (self x : Review.t) :
  x ∈ Reviews.save_row write tbl self <->
  exists r, r ∈ tbl /\
            x = if bool_decide (Review.id r = Review.id self) then write r else r.
Proof.
  unfold Reviews.save_row. clear Hpk. induction tbl as [|y l IH]; simpl.
  - split; [by intros ?%elem_of_nil|]. by intros (? & ?%elem_of_nil & _).
  - rewrite elem_of_cons, IH. split.
    + intros [->|(r & Hr & ->)]; [exists y|exists r]; (split; [|done]);
        [left|by right].
    + intros (r & [->|Hr]%elem_of_cons & ->); [by left|right; by exists r].
Qed.

End ModerationFacts.

(** X23: after staff rejects a stored review, the review is still served
    to staff and to its author, no longer to any other user, and it is in
    no product's review listing; the keys of the table are unchanged. *)
Theorem reject_hides_review
    (tbl : Review.table) (staff : Users.User) (r : Review.t) :
  NoDup (Review.id <$> tbl) -> Users.is_staff staff = true -> r ∈ tbl ->
  let '(tbl', rep) := Reviews.reject staff tbl (Review.id r) in
  rep = Reviews.Message "Review rejected successfully." /\
  Review.id <$> tbl' = Review.id <$> tbl /\
  (forall u,
     Reviews.get_object u tbl' (Review.id r) =
       if Users.is_staff u || bool_decide (Review.user_id r = Users.id u)
       then Some (Reviews.with_is_approved r false) else None) /\
  (forall product x, x ∈ Reviews.reviews_action tbl' product ->
     Review.id x <> Review.id r).
Proof.
  intros Hpk Hstaff Hr. unfold Reviews.reject, Reviews.set_approval.
  rewrite (get_object_visible staff tbl r Hpk Hr), Hstaff. simpl.
  set (tbl' := Reviews.save_row _ tbl _).
  assert (Review.id <$> tbl' = Review.id <$> tbl) as Hids
    by (by apply save_row_ids).
  assert (Reviews.with_is_approved r false ∈ tbl') as Hin'.
  { apply save_row_elem. exists r. split; [done|]. simpl.
    by rewrite bool_decide_eq_true_2. }
  assert (NoDup (Review.id <$> tbl')) as Hpk' by (by rewrite Hids).
  split_and!; try done.
  - intros u.
    pose proof (get_object_visible u tbl' (Reviews.with_is_approved r false)
                  Hpk' Hin') as Hg.
    simpl in Hg. rewrite Hg. by rewrite orb_false_r.
  - intros product x Hx Hid. unfold Reviews.reviews_action in Hx.
    apply elem_of_reverse, list_elem_of_filter in Hx as [[_ Happ] Hx].
    assert (x = Reviews.with_is_approved r false) as ->
      by (by apply (NoDup_fmap_eq Review.id tbl')).
    done.
Qed.

Lemma reject_hides_review_witness :
  let '(tbl', rep) := Reviews.reject staff_user review_table (Review.id three_stars) in
  rep = Reviews.Message "Review rejected successfully." /\
  Review.id <$> tbl' = Review.id <$> review_table /\
  (forall u,
     Reviews.get_object u tbl' (Review.id three_stars) =
       if Users.is_staff u || bool_decide (Review.user_id three_stars = Users.id u)
       then Some (Reviews.with_is_approved three_stars false) else None) /\
  (forall product x, x ∈ Reviews.reviews_action tbl' product ->
     Review.id x <> Review.id three_stars).
Proof.
  apply (reject_hides_review review_table staff_user three_stars).
  - apply (bool_decide_unpack _). by vm_compute.
  - reflexivity.
  - right; left.
Defined.



Example mark_helpful_own_review :
  snd (Reviews.mark_helpful author_44 review_table 3) =
    Return (Reviews.Helpful "Review marked as helpful." 1).
Proof. by vm_compute. Qed.

(** ** Deleting a category, continued *)

Section DeletionFacts.
Import Tree.
Variable tbl : Category.table.

Lemma ancestor_reachable k c x :
  x ∈ tbl -> ancestor (S k) tbl x = Some c -> reachable tbl c x.
Proof.
  revert x. induction k as [|k IH]; intros x Hx Hk; simpl in Hk;
    destruct (parent_of tbl x) as [p|] eqn:Hp; try done; simpl in Hk.
  - injection Hk as ->. apply tc_once. by apply parent_of_child.
  - eapply tc_r; [apply (IH p)|by apply parent_of_child]; [|done].
    by apply parent_of_Some in Hp as [? _].
Qed.

Lemma under_true n root r :
  Deletion.under n tbl root r = true <->
  exists k a, (k <= n)%nat /\ ancestor k tbl r = Some a /\ Category.id a = root.
Proof.
  revert r. induction n as [|n IH]; intros r; simpl.
  - rewrite orb_false_r, bool_decide_eq_true. split.
    + intros Hid. by exists 0%nat, r.
    + intros (k & a & Hk & Ha & Hid). replace k with 0%nat in Ha by lia.
      by injection Ha as ->.
  - rewrite orb_true_iff, bool_decide_eq_true. fold (parent_of tbl r). split.
    + intros [Hid|Hp]; [exists 0%nat, r; split; [lia|done]|].
      destruct (parent_of tbl r) as [p|] eqn:Hpar; [|done].
      apply IH in Hp as (k & a & Hk & Ha & Hid).
      exists (S k), a. split; [lia|]. split; [|done]. simpl. by rewrite Hpar.
    + intros (k & a & Hk & Ha & Hid). destruct k as [|k].
      * left. by injection Ha as ->.
      * right. simpl in Ha. destruct (parent_of tbl r) as [p|]; [|done].
        apply IH. exists k, a. split; [lia|done].
Qed.

Hypothesis Hpk : pk_unique tbl.
Hypothesis Hac : acyclic tbl.

(** The rows the collector gathers are the category and what the child
    edge reaches from it. *)
Lemma under_reachable c r :
  c ∈ tbl -> r ∈ tbl ->
  Deletion.under (length tbl) tbl (Category.id c) r = true <->
  r = c \/ reachable tbl c r.
Proof.
  intros Hc Hr. rewrite under_true. split.
  - intros (k & a & _ & Ha & Hid).
    assert (a = c) as ->.
    { apply (NoDup_fmap_eq Category.id tbl); try done. by eapply ancestor_in. }
    destruct k as [|k]; [left; by injection Ha|right; by eapply ancestor_reachable].
  - intros [->|Hreach]; [exists 0%nat, c; split; [lia|done]|].
    destruct (reachable_ancestor tbl Hpk c r Hreach Hc) as [_ [k Hk]].
    exists (S k), c. split; [|done].
    destruct (decide (S k <= length tbl)%nat); [done|].
    rewrite (ancestor_None_le tbl (length tbl) (S k)) in Hk; [done|lia|].
    by apply ancestor_bound.
Qed.

Lemma collected_spec c (pk : Z) :
  c ∈ tbl ->
  pk ∈ Deletion.collected tbl c <->
  exists d, d ∈ tbl /\ Category.id d = pk /\ (d = c \/ reachable tbl c d).
Proof.
  intros Hc. unfold Deletion.collected. rewrite elem_of_cons. split.
  - intros [->|Hin]; [by exists c; auto|].
    apply list_elem_of_In, in_map_iff in Hin as (d & Hid & Hd).
    apply list_elem_of_In, list_elem_of_filter in Hd as [Hu Hd].
    exists d. split; [done|]. split; [done|].
    apply under_reachable; [done..|]. by apply Is_true_true.
  - intros (d & Hd & Hid & [->|Hreach]); [by left|]. right.
    apply list_elem_of_In, in_map_iff. exists d. split; [done|].
    apply list_elem_of_In, list_elem_of_filter. split; [|done].
    apply Is_true_true, under_reachable; auto.
Qed.

End DeletionFacts.

(** X25: in a valid acyclic table, deleting a stored category fails with
    [ProtectedError] exactly when some product belongs to the category or
    to one of its descendants; otherwise it succeeds. *)
Theorem delete_category_protected_iff (db : DB) (c : Category.t) :
  Tree.pk_unique (categories db) -> Tree.acyclic (categories db) ->
  c ∈ categories db ->
  (Deletion.delete_category db c = (db, Raise ProtectedError) <->
   exists p d, p ∈ products db /\ d ∈ categories db /\
               (d = c \/ Tree.reachable (categories db) c d) /\
               Product.category_id p = Category.id d) /\
  (snd (Deletion.delete_category db c) = Return tt \/
   snd (Deletion.delete_category db c) = Raise ProtectedError).
Proof.
  intros Hpk Hac Hc. unfold Deletion.delete_category.
  destruct (Deletion.protected_by _ _) as [|p rest] eqn:E; simpl.
  - split; [|by left]. split; [done|]. intros (p & d & Hp & Hd & Hreach & Hcat).
    exfalso. apply (filter_nil_not_elem_of _ _ p E); [|done].
    apply (collected_spec _ Hpk Hac c _ Hc). by exists d.
  - split; [|by right]. split; [|done]. intros _.
    assert (p ∈ Deletion.protected_by (products db)
                  (Deletion.collected (categories db) c)) as Hin
      by (rewrite E; left).
    unfold Deletion.protected_by in Hin.
    apply list_elem_of_filter in Hin as [Hcol Hp].
    apply (collected_spec _ Hpk Hac c _ Hc) in Hcol as (d & Hd & Hid & Hreach).
    by exists p, d.
Qed.

Lemma delete_category_protected_iff_witness :
  (Deletion.delete_category sample_db computers = (sample_db, Raise ProtectedError) <->
   exists p d, p ∈ products sample_db /\ d ∈ categories sample_db /\
               (d = computers \/ Tree.reachable (categories sample_db) computers d) /\
               Product.category_id p = Category.id d) /\
  (snd (Deletion.delete_category sample_db computers) = Return tt \/
   snd (Deletion.delete_category sample_db computers) = Raise ProtectedError).
Proof.
  apply (delete_category_protected_iff sample_db computers).
  - exact sample_tree_pk.
  - exact sample_tree_acyclic.
  - right; left.
Defined.

(** X26: when the deletion succeeds, the category and its descendants are
    gone and every other category is kept; no kept category and no product
    is left pointing at a deleted row, and the products are untouched. *)
Theorem delete_category_cascade (db db' : DB) (c : Category.t) :
  Tree.pk_unique (categories db) -> Tree.acyclic (categories db) ->
  Tree.fk_valid (categories db) -> c ∈ categories db ->
  Deletion.delete_category db c = (db', Return tt) ->
  (forall r, r ∈ categories db' <->
     r ∈ categories db /\ r <> c /\ ~ Tree.reachable (categories db) c r) /\
  Tree.fk_valid (categories db') /\
  products db' = products db /\
  (forall p, p ∈ products db ->
     is_Some (Category.get (categories db) (Product.category_id p)) ->
     is_Some (Category.get (categories db') (Product.category_id p))).
Proof.
  intros Hpk Hac Hfk Hc. unfold Deletion.delete_category.
  destruct (Deletion.protected_by _ _) as [|p0 rest] eqn:E; [|done].
  intros [= <-]. simpl.
  set (kept := filter _ (categories db)).
  assert (forall r, r ∈ kept <->
            r ∈ categories db /\ r <> c /\ ~ Tree.reachable (categories db) c r)
    as Hkept.
  { intros r. unfold kept. rewrite list_elem_of_filter. split.
    - intros [Hnot Hr]. split; [done|].
      split; intros H; apply Hnot, (collected_spec _ Hpk Hac c _ Hc);
        exists r; subst; auto.
    - intros (Hr & Hne & Hnr). split; [|done].
      intros (d & Hd & Hid & Hreach)%(collected_spec _ Hpk Hac c _ Hc).
      assert (d = r) as -> by (by apply (NoDup_fmap_eq Category.id (categories db))).
      tauto. }
  assert (Tree.pk_unique kept) as Hpk'.
  { unfold Tree.pk_unique, kept. eapply sublist_NoDup; [exact Hpk|].
    apply fmap_sublist, sublist_filter. }
  split_and!; try done.
  - intros r pid [Hr [Hne Hnr]]%Hkept Hpid.
    destruct (Hfk r pid Hr Hpid) as [par Hpar].
    pose proof Hpar as Hpar'. apply get_Some in Hpar' as [Hin <-].
    exists par. apply get_pk; [done|]. apply Hkept. split; [done|].
    assert (r ∈ Category.children (categories db) par) as Hchild
      by (by apply children_spec).
    split.
    + intros ->. apply Hnr. by apply tc_once.
    + intros Hreach. apply Hnr. by eapply tc_r.
  - intros p Hp [d Hd]. pose proof Hd as Hd'. apply get_Some in Hd' as [Hin Hid].
    exists d. rewrite <- Hid. apply get_pk; [done|]. apply Hkept. split; [done|].
    assert (Product.category_id p ∉ Deletion.collected (categories db) c) as Hnot.
    { intros Hcol. by apply (filter_nil_not_elem_of _ _ p E). }
    split; intros H; apply Hnot, (collected_spec _ Hpk Hac c _ Hc);
      exists d; subst; auto.
Qed.

Lemma delete_category_cascade_witness :
  (forall r, r ∈ [electronics] <->
     r ∈ sample_tree /\ r <> computers /\ ~ Tree.reachable sample_tree computers r) /\
  Tree.fk_valid [electronics] /\
  [test_product] = [test_product] /\
  (forall p, p ∈ [test_product] ->
     is_Some (Category.get sample_tree (Product.category_id p)) ->
     is_Some (Category.get [electronics] (Product.category_id p))).
Proof.
  apply (delete_category_cascade (mkDB sample_tree [test_product] [])
           (mkDB [electronics] [test_product] []) computers).
  - exact sample_tree_pk.
  - exact sample_tree_acyclic.
  - exact sample_tree_fk.
  - right; left.
  - by vm_compute.
Defined.

(** ** The nested category representation *)

Lemma nodes_Data obj ds fp n r :
  r ∈ CategorySerializer.nodes (CategorySerializer.Data obj ds fp n) <->
  r = obj \/ exists d, d ∈ ds /\ r ∈ CategorySerializer.nodes d.
Proof.
  simpl. rewrite elem_of_cons. apply or_iff_compat_l.
  induction ds as [|d ds IH].
  - split; [by intros ?%elem_of_nil|]. by intros (d & ?%elem_of_nil & _).
  - rewrite elem_of_app, IH. split.
    + intros [H|(d' & Hd' & H)];
        [exists d; split; [left|done] | exists d'; split; [by right|done]].
    + intros (d' & [->|Hd']%elem_of_cons & H); [by left|right; by exists d'].
Qed.

Lemma mapM_returns {A B} (f : A -> outcome B) (P : A -> B -> Prop) (l : list A) :
  (forall x, x ∈ l -> exists y, f x = Return y /\ P x y) ->
  exists ys, mapM f l = Return ys /\ Forall2 P l ys.
Proof.
  induction l as [|x l IH]; intros Hall.
  - exists []. split; [done|constructor].
  - destruct (Hall x) as (y & Hy & HP); [left|].
    destruct IH as (ys & Hys & HF); [intros z Hz; apply Hall; by right|].
    exists (y :: ys). split; [|by constructor].
    simpl. rewrite Hy. simpl. rewrite Hys. done.
Qed.

Lemma Forall2_elem_l {A B} (P : A -> B -> Prop) l k x :
  Forall2 P l k -> x ∈ l -> exists y, y ∈ k /\ P x y.
Proof.
  induction 1 as [|a b l k HP _ IH]; [by intros ?%elem_of_nil|].
  intros [->|Hx]%elem_of_cons; [exists b; split; [left|done]|].
  destruct (IH Hx) as (y & ? & ?). exists y. split; [by right|done].
Qed.

Lemma Forall2_elem_r {A B} (P : A -> B -> Prop) l k y :
  Forall2 P l k -> y ∈ k -> exists x, x ∈ l /\ P x y.
Proof.
  induction 1 as [|a b l k HP _ IH]; [by intros ?%elem_of_nil|].
  intros [->|Hy]%elem_of_cons; [exists a; split; [left|done]|].
  destruct (IH Hy) as (x & ? & ?). exists x. split; [by right|done].
Qed.

Lemma to_representation_S fuel db obj :
  CategorySerializer.to_representation (S fuel) db obj =
    children ←
      (if bool_decide (Category.children (categories db) obj <> []) then
         mapM (CategorySerializer.to_representation fuel db)
              (filter (fun c => Category.is_active c = true)
                      (Category.children (categories db) obj))
       else Return []);
    full_path ← CategorySerializer.read_only_field
                  (Category.full_path (S fuel) (categories db) obj);
    Return (CategorySerializer.Data obj children full_path
              (Views.get_product_count (products db) obj)).
Proof. reflexivity. Qed.

Section Representation.
Import Tree CategorySerializer.
Variable db : DB.
Hypothesis Hpk : pk_unique (categories db).
Hypothesis Hfk : fk_valid (categories db).
Hypothesis Hac : acyclic (categories db).

Lemma to_representation_shown m : forall fuel j obj,
  obj ∈ categories db -> is_Some (ancestor j (categories db) obj) ->
  (length (categories db) <= j + m)%nat ->
  (m + length (categories db) < fuel)%nat ->
  exists d, to_representation fuel db obj = Return d /\ renders (categories db) obj d.
Proof.
  induction m as [|m IH]; intros fuel j obj Hobj [a Ha] Hj Hfuel.
  { rewrite (ancestor_None_le _ (length (categories db)) j) in Ha; [done|lia|].
    by apply ancestor_bound. }
  destruct fuel as [|fuel]; [lia|]. rewrite to_representation_S.
  set (cs := filter (fun c => Category.is_active c = true)
                    (Category.children (categories db) obj)).
  destruct (mapM_returns (to_representation fuel db)
              (renders (categories db)) cs)
    as (ys & Hys & HF).
  { intros c [Hact Hc]%list_elem_of_filter.
    apply (IH fuel (S j) c); [by apply children_spec in Hc as [? _]| |lia|lia].
    simpl. rewrite (child_parent_of _ obj c Hpk Hobj Hc). simpl. by exists a. }
  assert ((if bool_decide (Category.children (categories db) obj <> []) then
             mapM (to_representation fuel db) cs else Return []) = Return ys)
    as ->.
  { case_bool_decide as Hnil; [done|].
    rewrite <- Hys. unfold cs.
    destruct (Category.children (categories db) obj); done. }
  rewrite (full_path_chain (categories db) (length (categories db)) (S fuel) obj);
    [|done|done|by apply ancestor_bound|lia].
  simpl. eexists. split; [done|]. split; [done|].
  intros r. rewrite nodes_Data. apply or_iff_compat_l. split.
  - intros (d & Hd & Hr).
    destruct (Forall2_elem_r _ _ _ _ HF Hd) as (c & Hc & [_ Hnodes]).
    unfold cs in Hc. apply list_elem_of_filter in Hc as [Hact Hc].
    destruct (proj1 (Hnodes r) Hr) as [->|Hr']; [by apply tc_once|].
    by eapply tc_l.
  - intros Hshown.
    assert (exists c, c ∈ cs /\ (r = c \/ shown (categories db) c r))
      as (c & Hc & Hr).
    { inversion Hshown as [? ? [Hc Hact]|? y ? [Hc Hact] Hrest]; subst.
      - exists r. split; [unfold cs; by apply list_elem_of_filter|by left].
      - exists y. split; [unfold cs; by apply list_elem_of_filter|by right]. }
    destruct (Forall2_elem_l _ _ _ _ HF Hc) as (d & Hd & [_ Hnodes]).
    exists d. split; [done|]. by apply Hnodes.
Qed.

Lemma active_chain_step p c :
  p ∈ categories db -> active_chain (categories db) p ->
  active_child (categories db) p c ->
  c ∈ categories db /\ active_chain (categories db) c.
Proof.
  intros Hp Hchain [Hc Hact]. split; [by apply children_spec in Hc as [? _]|].
  intros [|k] a; simpl.
  - by intros [= <-].
  - rewrite (child_parent_of _ p c Hpk Hp Hc). simpl. apply Hchain.
Qed.

Lemma active_chain_shown x r :
  shown (categories db) x r ->
  x ∈ categories db -> active_chain (categories db) x ->
  r ∈ categories db /\ active_chain (categories db) r.
Proof.
  induction 1 as [x r Hstep|x y r Hstep _ IH]; intros Hx Hchain.
  - by eapply active_chain_step.
  - destruct (active_chain_step x y Hx Hchain Hstep) as [Hy Hchain'].
    by apply IH.
Qed.

Lemma root_active_chain root :
  root ∈ Catalog.root_categories_queryset (categories db) ->
  root ∈ categories db /\ active_chain (categories db) root.
Proof.
  unfold Catalog.root_categories_queryset, Catalog.category_queryset.
  intros [Hnone [Hact Hin]%list_elem_of_filter]%list_elem_of_filter.
  split; [done|]. intros [|k] a; simpl.
  - by intros [= <-].
  - by rewrite parent_of_eq, Hnone.
Qed.

Lemma active_chain_root k : forall r,
  r ∈ categories db -> active_chain (categories db) r ->
  ancestor k (categories db) r = None ->
  exists root, root ∈ Catalog.root_categories_queryset (categories db) /\
               (r = root \/ shown (categories db) root r).
Proof.
  induction k as [|k IH]; intros r Hr Hchain Hk; [done|].
  simpl in Hk. destruct (parent_of (categories db) r) as [p|] eqn:Hp.
  - simpl in Hk. pose proof Hp as [Hpin _]%parent_of_Some.
    destruct (IH p) as (root & Hroot & Hreach); [done| |done|].
    { intros j a Ha. apply (Hchain (S j)). simpl. by rewrite Hp. }
    exists root. split; [done|]. right.
    assert (active_child (categories db) p r) as Hstep.
    { split; [by apply parent_of_child|]. by apply (Hchain 0%nat). }
    destruct Hreach as [->|Hreach]; [by apply tc_once|by eapply tc_r].
  - exists r. split; [|by left].
    unfold Catalog.root_categories_queryset, Catalog.category_queryset.
    apply list_elem_of_filter. split.
    + rewrite parent_of_eq in Hp.
      destruct (Category.parent_id r) as [pid|] eqn:Hpid; [|done].
      destruct (Hfk r pid Hr Hpid) as [? Hget]. congruence.
    + apply list_elem_of_filter. split; [|done]. by apply (Hchain 0%nat).
Qed.

End Representation.

(** X27: in a valid acyclic table, rendering a stored category returns once
    the budget exceeds twice the table, and what it renders is the
    category itself and exactly the categories that active-child steps
    reach from it. *)
Theorem to_representation_renders_active_subtree
    (db : DB) (obj : Category.t) (fuel : nat) :
  Tree.pk_unique (categories db) -> Tree.fk_valid (categories db) ->
  Tree.acyclic (categories db) -> obj ∈ categories db ->
  (2 * length (categories db) < fuel)%nat ->
  exists d, CategorySerializer.to_representation fuel db obj = Return d /\
    CategorySerializer.obj_of d = obj /\
    forall r, r ∈ CategorySerializer.nodes d <->
              r = obj \/ CategorySerializer.shown (categories db) obj r.
Proof.
  intros Hpk Hfk Hac Hobj Hfuel.
  apply (to_representation_shown db Hpk Hfk Hac (length (categories db)) fuel 0 obj);
    [done|by exists obj|lia|lia].
Qed.

Lemma to_representation_renders_active_subtree_witness :
  exists d, CategorySerializer.to_representation 7 sample_db computers = Return d /\
    CategorySerializer.obj_of d = computers /\
    forall r, r ∈ CategorySerializer.nodes d <->
              r = computers \/ CategorySerializer.shown (categories sample_db) computers r.
Proof.
  apply (to_representation_renders_active_subtree sample_db computers 7).
  - exact sample_tree_pk.
  - exact sample_tree_fk.
  - exact sample_tree_acyclic.
  - right; left.
  - simpl. lia.
Defined.

(** X28: in a valid acyclic table the [root_categories] action returns one
    entry per active root, in the order of the queryset, and a category
    appears somewhere in the answer exactly when it and every category
    above it are active. *)
Theorem root_categories_shows_active_chains (db : DB) (fuel : nat) :
  Tree.pk_unique (categories db) -> Tree.fk_valid (categories db) ->
  Tree.acyclic (categories db) ->
  (2 * length (categories db) < fuel)%nat ->
  exists ds, CategorySerializer.root_categories fuel db = Return ds /\
    CategorySerializer.obj_of <$> ds
      = Catalog.root_categories_queryset (categories db) /\
    forall r, (exists d, d ∈ ds /\ r ∈ CategorySerializer.nodes d) <->
              r ∈ categories db /\ CategorySerializer.active_chain (categories db) r.
Proof.
  intros Hpk Hfk Hac Hfuel. unfold CategorySerializer.root_categories.
  destruct (mapM_returns (CategorySerializer.to_representation fuel db)
              (CategorySerializer.renders (categories db))
              (Catalog.root_categories_queryset (categories db)))
    as (ds & Hds & HF).
  { intros root [Hroot _]%(root_active_chain db).
    apply (to_representation_shown db Hpk Hfk Hac (length (categories db)) fuel 0);
      [done|by exists root|lia|lia]. }
  exists ds. split; [done|]. split.
  { clear Hds. induction HF as [|c d l k [Hobj _] _ IH]; [done|].
    rewrite fmap_cons. by f_equal. }
  intros r. split.
  - intros (d & Hd & Hr).
    destruct (Forall2_elem_r _ _ _ _ HF Hd) as (root & Hroot & [_ Hnodes]).
    apply (root_active_chain db) in Hroot as [Hin Hchain].
    destruct (proj1 (Hnodes r) Hr) as [->|Hr']; [done|].
    by apply (active_chain_shown db Hpk root r).
  - intros [Hr Hchain].
    destruct (active_chain_root db Hfk (length (categories db)) r Hr Hchain)
      as (root & Hroot & Hreach); [by apply ancestor_bound|].
    destruct (Forall2_elem_l _ _ _ _ HF Hroot) as (d & Hd & [_ Hnodes]).
    exists d. split; [done|]. by apply Hnodes.
Qed.

Lemma root_categories_shows_active_chains_witness :
  exists ds, CategorySerializer.root_categories 7 retired_branch = Return ds /\
    CategorySerializer.obj_of <$> ds
      = Catalog.root_categories_queryset (categories retired_branch) /\
    forall r, (exists d, d ∈ ds /\ r ∈ CategorySerializer.nodes d) <->
              r ∈ categories retired_branch /\
              CategorySerializer.active_chain (categories retired_branch) r.
Proof.
  apply (root_categories_shows_active_chains retired_branch 7).
  - apply (bool_decide_unpack _). by vm_compute.
  - apply fk_validb_sound. by vm_compute.
  - apply acyclicb_sound. by vm_compute.
  - simpl. lia.
Defined.

(** The active [Laptops] category disappears with its retired parent. *)
Example root_categories_retired_branch :
  CategorySerializer.root_categories 7 retired_branch =
    Return [CategorySerializer.Data electronics [] (Some "Electronics") 0].
Proof. reflexivity. Qed.

(** ** Writing a product through the serializer *)

Section WriteFacts.
Context {V : Type}.
Variable slugify : string -> string.
Variable db_insert : Product.table -> Product.t -> outcome (Product.table * Z).
Variable db_update : Product.table -> Product.t -> outcome Product.table.
Variable tags_set : Product.t -> list Z -> outcome (list Z).
Implicit Types (cache : gmap string V).

Lemma slugged_fields self :
  Product.category_id (ProductWrites.slugged slugify self) = Product.category_id self /\
  Product.tags (ProductWrites.slugged slugify self) = Product.tags self.
Proof. unfold ProductWrites.slugged. by case_bool_decide. Qed.

(** The cache after a write is the cache after the one run of the handler
    inside [save]; relating the tags afterwards does not touch it. *)
Lemma create_cache tbl cache fields user tag_ids tbl' cache' product :
  ProductWrites.create slugify db_insert tags_set tbl cache fields user tag_ids
    = Return (tbl', cache', product) ->
  forall k,
    cache' !! k =
      if decide (k ∈ [ Keys.category_products_key (Product.category_id fields);
                       "featured_products"; "product_stats" ])
      then None else cache !! k.
Proof.
  unfold ProductWrites.create, ProductWrites.objects_create.
  destruct (db_insert _ _) as [[tbl1 pk]|e|]; simpl; [|done..].
  intros Hret k.
  assert (cache' = Signals.invalidate_product_cache
                     (ProductWrites.with_id
                        (ProductWrites.slugged slugify
                           (ProductWrites.with_tags
                              (ProductWrites.with_created_by fields user) []))
                        pk) cache) as ->.
  { case_bool_decide; [|by injection Hret as _ <- _].
    unfold ProductWrites.set_tags in Hret.
    destruct (tags_set _ _); simpl in Hret; [|done..]. by injection Hret as _ <- _. }
  rewrite lookup_invalidate_product. unfold Signals.product_cache_keys. simpl.
  destruct (slugged_fields (ProductWrites.with_tags
                              (ProductWrites.with_created_by fields user) []))
    as [-> ->].
  reflexivity.
Qed.

Lemma update_cache tbl cache instance validated_data tag_ids tbl' cache' instance' :
  ProductWrites.update slugify db_update tags_set tbl cache instance
    validated_data tag_ids = Return (tbl', cache', instance') ->
  forall k,
    cache' !! k =
      if decide (k ∈ [ Keys.category_products_key
                         (default (Product.category_id instance)
                                  (ProductSerializer.a_category_id validated_data));
                       "featured_products"; "product_stats" ] ++
                     (Keys.tag_key <$> Product.tags instance))
      then None else cache !! k.
Proof.
  unfold ProductWrites.update, ProductWrites.save.
  destruct (db_update _ _) as [tbl1|e|]; simpl; [|done..].
  intros Hret k.
  assert (cache' = Signals.invalidate_product_cache
                     (ProductWrites.slugged slugify
                        (ProductWrites.set_attrs instance validated_data))
                     cache) as ->.
  { destruct tag_ids as [ids|]; [|by injection Hret as _ <- _].
    unfold ProductWrites.set_tags in Hret.
    destruct (tags_set _ _); simpl in Hret; [|done..]. by injection Hret as _ <- _. }
  rewrite lookup_invalidate_product. unfold Signals.product_cache_keys.
  by destruct (slugged_fields (ProductWrites.set_attrs instance validated_data))
    as [-> ->].
Qed.

End WriteFacts.

Lemma tag_key_not_product_key (tag category : Z) :
  Keys.tag_key tag ∉ [ Keys.category_products_key category;
                       "featured_products"; "product_stats" ].
Proof.
  intros Hin. repeat (apply elem_of_cons in Hin as [Hin|Hin]);
    [..|by apply elem_of_nil in Hin];
    cbv [Keys.tag_key Keys.category_products_key String.append] in Hin;
    discriminate Hin.
Qed.

(** The delete handler misses the listing of every tag of the product,
    which the save handler removes. *)
Lemma product_delete_misses_tags {V : Type}
    (instance : Product.t) (cache : gmap string V) (tag : Z) :
  tag ∈ Product.tags instance ->
  Signals.cleanup_product_cache instance cache !! Keys.tag_key tag
    = cache !! Keys.tag_key tag /\
  Signals.invalidate_product_cache instance cache !! Keys.tag_key tag = None.
Proof.
  intros Htag. split.
  - unfold Signals.cleanup_product_cache. rewrite lookup_cache_delete_many.
    rewrite decide_False; [done|apply tag_key_not_product_key].
  - rewrite lookup_invalidate_product. rewrite decide_True; [done|].
    apply elem_of_app. right. by apply list_elem_of_fmap_2.
Qed.

(** X29: creating a product through the serializer removes the listing of
    its category, [featured_products] and [product_stats] and nothing
    else: the handler runs before the tags are related, so no
    [tag_products_{id}] entry is removed, not even for the tags of the
    request. *)
Theorem create_keeps_tag_listings {V : Type}
    (slugify : string -> string)
    (db_insert : Product.table -> Product.t -> outcome (Product.table * Z))
    (tags_set : Product.t -> list Z -> outcome (list Z))
    (tbl tbl' : Product.table) (cache cache' : gmap string V)
    (fields product : Product.t) (user : Z) (tag_ids : list Z) :
  ProductWrites.create slugify db_insert tags_set tbl cache fields user tag_ids
    = Return (tbl', cache', product) ->
  cache' !! Keys.category_products_key (Product.category_id fields) = None /\
  cache' !! "featured_products" = None /\
  cache' !! "product_stats" = None /\
  forall tag, cache' !! Keys.tag_key tag = cache !! Keys.tag_key tag.
Proof.
  intros Hret. pose proof (create_cache _ _ _ _ _ _ _ _ _ _ _ Hret) as Hk.
  split_and!.
  - rewrite Hk, decide_True; [done|left].
  - rewrite Hk, decide_True; [done|right; left].
  - rewrite Hk, decide_True; [done|right; right; left].
  - intros tag. rewrite Hk, decide_False; [done|apply tag_key_not_product_key].
Qed.

Lemma create_keeps_tag_listings_witness :
  busy_cache_after_create !! Keys.category_products_key 1 = None /\
  busy_cache_after_create !! "featured_products" = None /\
  busy_cache_after_create !! "product_stats" = None /\
  forall tag, busy_cache_after_create !! Keys.tag_key tag
              = busy_cache !! Keys.tag_key tag.
Proof.
  apply (create_keeps_tag_listings sample_slugify sample_insert sample_tags_set
           [laptop_product]
           ([laptop_product] ++ [ProductWrites.with_tags
                                   (ProductWrites.with_id test_product 9) [7; 8]])
           busy_cache busy_cache_after_create
           test_product
           (ProductWrites.with_tags (ProductWrites.with_id test_product 9) [7; 8])
           1 [7; 8]).
  reflexivity.
Defined.

(** X30: updating a product through the serializer runs the handler on the
    new fields and the tags related before: the listings of the old tags
    are removed, while the listing of any other tag stays, also when the
    request relates it, and so does the listing of the category the
    product leaves. *)
Theorem update_keeps_stale_listings {V : Type}
    (slugify : string -> string)
    (db_update : Product.table -> Product.t -> outcome Product.table)
    (tags_set : Product.t -> list Z -> outcome (list Z))
    (tbl tbl' : Product.table) (cache cache' : gmap string V)
    (instance instance' : Product.t) (validated_data : ProductSerializer.attrs)
    (tag_ids : option (list Z)) :
  ProductWrites.update slugify db_update tags_set tbl cache instance
    validated_data tag_ids = Return (tbl', cache', instance') ->
  (forall tag, tag ∈ Product.tags instance -> cache' !! Keys.tag_key tag = None) /\
  (forall tag, tag ∉ Product.tags instance ->
     cache' !! Keys.tag_key tag = cache !! Keys.tag_key tag) /\
  (forall category,
     ProductSerializer.a_category_id validated_data = Some category ->
     category <> Product.category_id instance ->
     cache' !! Keys.category_products_key category = None /\
     cache' !! Keys.category_products_key (Product.category_id instance)
       = cache !! Keys.category_products_key (Product.category_id instance)).
Proof.
  intros Hret. pose proof (update_cache _ _ _ _ _ _ _ _ _ _ _ Hret) as Hk.
  split_and!.
  - intros tag Htag. rewrite Hk, decide_True; [done|].
    apply elem_of_app. right. by apply list_elem_of_fmap_2.
  - intros tag Htag. rewrite Hk, decide_False; [done|].
    intros [Hin|Hin]%elem_of_app; [by apply tag_key_not_product_key in Hin|].
    apply list_elem_of_fmap in Hin as (t & Heq & Ht).
    apply key_inj in Heq. by subst.
  - intros category Hcat Hne. rewrite Hcat in Hk. simpl in Hk. split.
    + rewrite Hk, decide_True; [done|left].
    + rewrite Hk, decide_False; [done|].
      intros [Hin|Hin]%elem_of_cons.
      * apply key_inj in Hin. by subst.
      * repeat (apply elem_of_cons in Hin as [Hin|Hin]).
        -- cbv [Keys.category_products_key String.append] in Hin. discriminate Hin.
        -- cbv [Keys.category_products_key String.append] in Hin. discriminate Hin.
        -- simpl in Hin. apply list_elem_of_fmap in Hin as (t & Hin & _).
           cbv [Keys.category_products_key Keys.tag_key String.append] in Hin.
           discriminate Hin.
Qed.

Lemma update_keeps_stale_listings_witness :
  (forall tag, tag ∈ Product.tags test_product ->
     busy_cache_after_update !! Keys.tag_key tag = None) /\
  (forall tag, tag ∉ Product.tags test_product ->
     busy_cache_after_update !! Keys.tag_key tag = busy_cache !! Keys.tag_key tag) /\
  (forall category,
     ProductSerializer.a_category_id move_to_laptops = Some category ->
     category <> Product.category_id test_product ->
     busy_cache_after_update !! Keys.category_products_key category = None /\
     busy_cache_after_update !! Keys.category_products_key (Product.category_id test_product)
       = busy_cache !! Keys.category_products_key (Product.category_id test_product)).
Proof.
  apply (update_keeps_stale_listings sample_slugify sample_update sample_tags_set
           [test_product; laptop_product]
           [moved_product; laptop_product]
           busy_cache busy_cache_after_update
           test_product moved_product move_to_laptops (Some [8])).
  reflexivity.
Defined.

(** Moving the sample product to category 3 with tag 8 in place of tag 7
    leaves the listings of category 1 and of tag 8 in the cache. *)
Example update_moves_product :
  busy_cache_after_update !! "category_products_1" = Some 1 /\
  busy_cache_after_update !! "category_products_3" = None /\
  busy_cache_after_update !! "tag_products_7" = None /\
  busy_cache_after_update !! "tag_products_8" = Some 6.
Proof. repeat split; by vm_compute. Qed.
